(** * cfind: the store back-ends, the query parser and executor, and the
      record scoreboard of the indexer, embedded from the C sources.

    Conventions of the embedding.
    - Every C integer is a [Z]; where the source relies on a width the
      wrap-around is written out ([wrap64], [wrap32], [to_int64]).
    - A function returning an [int] error code and writing through an
      out-pointer returns a [res]: [Ok v], [Err e], or [Trap] when a
      [cf_assert]/[cf_panic] fires (cf_assert.h: [__builtin_trap]).
    - Heap allocation can fail: [heap_t] lists the outcomes of the coming
      [malloc]/[realloc] requests.
    - Printing is kept only where a claim speaks about it, as a list of
      message levels. *)

From Stdlib Require Import ZArith List String Ascii Bool Lia Arith.
Import ListNotations.
Open Scope string_scope.
Open Scope list_scope.
Open Scope Z_scope.

Set Implicit Arguments.

(* ------------------------------------------------------------------ *)
(** ** Machine integers *)

Definition SIZE_MAX : Z := 2 ^ 64 - 1.
Definition UINT64_MAX : Z := 2 ^ 64 - 1.
Definition INT64_MAX : Z := 2 ^ 63 - 1.
Definition INT_MAX : Z := 2 ^ 31 - 1.

Definition wrap64 (z : Z) : Z := z mod 2 ^ 64.
Definition wrap32 (z : Z) : Z := z mod 2 ^ 32.

(** [(int64_t)u] for an unsigned 64-bit pattern [u]. *)
Definition to_int64 (u : Z) : Z :=
  let w := wrap64 u in if w <=? INT64_MAX then w else w - 2 ^ 64.

(** [(int)z], the low 32 bits read as a signed value. *)
Definition to_int32 (z : Z) : Z :=
  let w := wrap32 z in if w <=? INT_MAX then w else w - 2 ^ 32.

(* ------------------------------------------------------------------ *)
(** ** Error codes and results *)

Inductive errno : Type :=
| ENOENT | EACCES | ENOMEM | EINVAL | ERANGE | EMLINK | EILSEQ | ENOTSUP
| ESQLITE (code : Z).   (* an sqlite3 result code passed through *)

Inductive res (A : Type) : Type :=
| Ok (a : A)
| Err (e : errno)
| Trap.
Arguments Err {A} e.
Arguments Trap {A}.

Definition is_ok {A} (r : res A) : bool :=
  match r with Ok _ => true | _ => false end.

Definition errno_eqb (a b : errno) : bool :=
  match a, b with
  | ENOENT, ENOENT | EACCES, EACCES | ENOMEM, ENOMEM | EINVAL, EINVAL
  | ERANGE, ERANGE | EMLINK, EMLINK | EILSEQ, EILSEQ | ENOTSUP, ENOTSUP => true
  | ESQLITE x, ESQLITE y => x =? y
  | _, _ => false
  end.

(** cf_print.h: the level of a printed message. *)
Inductive log_level : Type :=
| print_corrupt | print_err | print_debug | print_warn | print_info.

(* ------------------------------------------------------------------ *)
(** ** cf_alloc.c *)

(** Outcomes of the coming allocation requests, [true] for a non-NULL
    pointer; once the list is used up every request succeeds. *)
Definition heap_t : Type := list bool.

Definition cf_malloc (h : heap_t) : bool * heap_t :=
  match h with
  | [] => (true, [])
  | ok :: h' => (ok, h')
  end.

Definition cf_realloc (h : heap_t) : bool * heap_t := cf_malloc h.

(* ------------------------------------------------------------------ *)
(** ** cf_string.c *)

Definition CF_STR_MAX_LEN : Z := 2 ^ 31 - 1.

(** [cf_str_t]: the bytes and the CF_STR_BORROWED bit of [len].  A NULL
    [str] and a zero length are both the empty byte string;
    [cf_str_is_null] does not tell them apart either. *)
Record cf_str_t : Type := mk_str { str : string; borrowed : bool }.

Definition cf_str_len (s : cf_str_t) : Z := Z.of_nat (String.length (str s)).

Definition cf_str_is_null (s : cf_str_t) : bool := cf_str_len s =? 0.

Definition cf_str_null : cf_str_t := mk_str "" false.

Definition cf_str_borrow (s : string) : cf_str_t := mk_str s true.

Definition cf_str_borrow_str (src : cf_str_t) : cf_str_t :=
  cf_str_borrow (str src).

Definition cf_str_dup (h : heap_t) (s : string) : res cf_str_t * heap_t :=
  let len := Z.of_nat (String.length s) in
  if len =? 0 then (Ok cf_str_null, h)
  else if len >? CF_STR_MAX_LEN then (Err ERANGE, h)
  else let '(ok, h') := cf_malloc h in
       if ok then (Ok (mk_str s false), h') else (Err ENOMEM, h').

Definition cf_str_dup_str (h : heap_t) (src : cf_str_t)
  : res cf_str_t * heap_t :=
  cf_str_dup h (str src).

Definition is_nul (c : ascii) : bool := Ascii.eqb c zero.

(** [strncmp(s1, s2, n) == 0]: at most [n] bytes are compared and the
    comparison stops after a NUL byte.  The callers pass strings of
    length [n]; past the end of a string the model reads a NUL. *)
Fixpoint strncmp_eq0 (s1 s2 : string) (n : nat) : bool :=
  match n with
  | O => true
  | S n' =>
      match s1, s2 with
      | String c1 r1, String c2 r2 =>
          if Ascii.eqb c1 c2
          then (if is_nul c1 then true else strncmp_eq0 r1 r2 n')
          else false
      | String c1 _, EmptyString => is_nul c1
      | EmptyString, String c2 _ => is_nul c2
      | EmptyString, EmptyString => true
      end
  end.

(** [memcmp(s1, s2, n) == 0] on buffers of [n] bytes. *)
Definition memcmp_eq0 (s1 s2 : string) : bool := String.eqb s1 s2.

(* ------------------------------------------------------------------ *)
(** ** cf_vector.c *)

(** [cf_vec_t]: the committed elements, the capacity in bytes and the
    stride.  [len] of the source is [length vec_data * vec_stride].  The
    two flag bits packed in the data pointer only feed assertions about
    the calling discipline and are left out. *)
Record cf_vec_t (A : Type) : Type :=
  mk_vec { vec_data : list A; vec_capacity : Z; vec_stride : Z }.

(** [CF_VEC_DATA_ALIGN], which is [alignof(long)]. *)
Definition CF_VEC_DATA_ALIGN : Z := 8.

(** [roundup] of sys/param.h on [size_t] operands: the sum and the
    product wrap. *)
Definition roundup (x y : Z) : Z := wrap64 (wrap64 (x + (y - 1)) / y * y).

(** [cf_vec_make]: the vector it writes to [*out].  The function also
    makes three assertions, on the size, on the alignment and, by
    [assert_vec], on the vector written; they are [cf_vec_make_asserts]
    below, and where that is [false] the C function traps.  Its callers
    are the [prefix_make] functions of [CF_VEC_GENERATE], which pass
    [sizeof(type)] and [alignof(type)] under static assertions of the
    first two. *)
Definition cf_vec_make (A : Type) (type_size type_align : Z) : cf_vec_t A :=
  mk_vec [] 0 (roundup type_size type_align).

Definition vec_len_bytes {A} (v : cf_vec_t A) : Z :=
  Z.of_nat (List.length (vec_data v)) * vec_stride v.

Definition cf_vec_len {A} (v : cf_vec_t A) : Z :=
  Z.of_nat (List.length (vec_data v)).

(** Linear growth by 8 elements, [None] on [size_t] overflow. *)
Definition grow_strategy (old_capacity stride : Z) : option Z :=
  if stride * 8 >? SIZE_MAX then None
  else if old_capacity + stride * 8 >? SIZE_MAX then None
  else Some (old_capacity + stride * 8).

(** [cf_vec_reserve]: [true] stands for the pointer to the slot past the
    last element, [false] for NULL. *)
Definition cf_vec_reserve {A} (h : heap_t) (v : cf_vec_t A)
  : bool * cf_vec_t A * heap_t :=
  if vec_len_bytes v =? vec_capacity v then
    match grow_strategy (vec_capacity v) (vec_stride v) with
    | None => (false, v, h)
    | Some new_capacity =>
        let '(ok, h') := cf_realloc h in
        if ok
        then (true, mk_vec (vec_data v) new_capacity (vec_stride v), h')
        else (false, v, h')
    end
  else (true, v, h).

(** [cf_vec_commit]: [len += stride]; [slot] is what the reserved slot
    holds at that moment. *)
Definition cf_vec_commit {A} (v : cf_vec_t A) (slot : A) : cf_vec_t A :=
  mk_vec (vec_data v ++ [slot]) (vec_capacity v) (vec_stride v).

Definition cf_vec_abort {A} (v : cf_vec_t A) : cf_vec_t A := v.

(** [cf_vec_at]: [None] when the assertion [offset < len] fails. *)
Definition cf_vec_at {A} (v : cf_vec_t A) (i : Z) : option A :=
  if i <? 0 then None else nth_error (vec_data v) (Z.to_nat i).

Definition cf_vec_push {A} (h : heap_t) (v : cf_vec_t A) (x : A)
  : bool * cf_vec_t A * heap_t :=
  let '(slot, v1, h1) := cf_vec_reserve h v in
  if slot then (true, cf_vec_commit v1 x, h1) else (false, v1, h1).

(** [assert_vec], its checks on the sizes: every one of them holds.  The
    sizes are [size_t] values, a stride other than zero is a positive
    one. *)
Definition assert_vec {A} (v : cf_vec_t A) : bool :=
  (0 <? vec_stride v)
  && (vec_len_bytes v <=? vec_capacity v)
  && (vec_len_bytes v mod vec_stride v =? 0)
  && (vec_capacity v mod vec_stride v =? 0).

(** The assertions of [cf_vec_make]: [cf_assert(type_size)],
    [cf_assert(type_align && (type_align <= CF_VEC_DATA_ALIGN))] and the
    closing [assert_vec(out)]. *)
Definition cf_vec_make_asserts (A : Type) (type_size type_align : Z) : bool :=
  negb (type_size =? 0)
  && (negb (type_align =? 0) && (type_align <=? CF_VEC_DATA_ALIGN))
  && assert_vec (cf_vec_make A type_size type_align).

(* ------------------------------------------------------------------ *)
(** ** db_types.h *)

Definition file_ref_t : Type := Z.
Definition type_ref_t : Type := Z.
Definition func_ref_t : Type := Z.
Definition clang_type_t : Type := Z.

Record loc_ctx_t : Type := mk_loc {
  loc_file : file_ref_t;
  loc_func : func_ref_t;
  loc_scope : Z;
  loc_line : Z;
  loc_column : Z
}.

Definition scope_global : Z := 0.

Definition type_kind_struct : Z := 1.
Definition type_kind_union : Z := 2.
Definition type_kind_enum : Z := 3.

Record db_type_entry_t : Type := mk_type_entry {
  te_kind : Z;
  te_complete : bool
}.

Definition name_kind_direct : Z := 1.
Definition name_kind_typedef : Z := 2.
Definition name_kind_var : Z := 3.

Record db_typename_t : Type := mk_typename {
  tn_kind : Z;
  tn_base_type : type_ref_t;
  tn_name : cf_str_t
}.

Record db_member_t : Type := mk_member {
  mb_parent : type_ref_t;
  mb_base_type : type_ref_t;
  mb_name : cf_str_t
}.

Definition type_use_decl : Z := 1.

Record db_type_use_t : Type := mk_type_use {
  tu_base_type : type_ref_t;
  tu_kind : Z
}.

(** Sizes and alignments on LP64, as [sizeof]/[alignof] give them. *)
Definition sizeof_cf_str_t : Z := 16.
Definition sizeof_db_type_entry_t : Z := 8.
Definition sizeof_db_typename_t : Z := 32.
Definition sizeof_db_member_t : Z := 32.
Definition sizeof_db_type_use_t : Z := 16.
Definition sizeof_loc_ctx_t : Z := 32.

(* ------------------------------------------------------------------ *)
(** ** mem_db.c *)

Record mem_db_t : Type := mk_mem_db {
  files : cf_vec_t cf_str_t;
  user_types : cf_vec_t db_type_entry_t;
  typenames : cf_vec_t db_typename_t;
  members : cf_vec_t db_member_t;
  type_uses : cf_vec_t db_type_use_t;
  (* locs[type_idx], locs[typename_idx], locs[member_idx],
     locs[type_use_idx] *)
  locs_type : cf_vec_t loc_ctx_t;
  locs_typename : cf_vec_t loc_ctx_t;
  locs_member : cf_vec_t loc_ctx_t;
  locs_type_use : cf_vec_t loc_ctx_t
}.

Definition set_files db v :=
  mk_mem_db v (user_types db) (typenames db) (members db) (type_uses db)
    (locs_type db) (locs_typename db) (locs_member db) (locs_type_use db).
Definition set_user_types db v :=
  mk_mem_db (files db) v (typenames db) (members db) (type_uses db)
    (locs_type db) (locs_typename db) (locs_member db) (locs_type_use db).
Definition set_typenames db v :=
  mk_mem_db (files db) (user_types db) v (members db) (type_uses db)
    (locs_type db) (locs_typename db) (locs_member db) (locs_type_use db).
Definition set_members db v :=
  mk_mem_db (files db) (user_types db) (typenames db) v (type_uses db)
    (locs_type db) (locs_typename db) (locs_member db) (locs_type_use db).
Definition set_type_uses db v :=
  mk_mem_db (files db) (user_types db) (typenames db) (members db) v
    (locs_type db) (locs_typename db) (locs_member db) (locs_type_use db).
Definition set_locs_type db v :=
  mk_mem_db (files db) (user_types db) (typenames db) (members db)
    (type_uses db) v (locs_typename db) (locs_member db) (locs_type_use db).
Definition set_locs_typename db v :=
  mk_mem_db (files db) (user_types db) (typenames db) (members db)
    (type_uses db) (locs_type db) v (locs_member db) (locs_type_use db).
Definition set_locs_member db v :=
  mk_mem_db (files db) (user_types db) (typenames db) (members db)
    (type_uses db) (locs_type db) (locs_typename db) v (locs_type_use db).
Definition set_locs_type_use db v :=
  mk_mem_db (files db) (user_types db) (typenames db) (members db)
    (type_uses db) (locs_type db) (locs_typename db) (locs_member db) v.

Definition mem_db_open : mem_db_t :=
  mk_mem_db
    (cf_vec_make _ sizeof_cf_str_t 8)
    (cf_vec_make _ sizeof_db_type_entry_t 4)
    (cf_vec_make _ sizeof_db_typename_t 8)
    (cf_vec_make _ sizeof_db_member_t 8)
    (cf_vec_make _ sizeof_db_type_use_t 8)
    (cf_vec_make _ sizeof_loc_ctx_t 8)
    (cf_vec_make _ sizeof_loc_ctx_t 8)
    (cf_vec_make _ sizeof_loc_ctx_t 8)
    (cf_vec_make _ sizeof_loc_ctx_t 8).

(** [mem_db_add_file]: no look-up for an earlier entry; the handle is the
    new length of [files]. *)
Definition mem_db_add_file (h : heap_t) (db : mem_db_t) (path : string)
  : res Z * mem_db_t * heap_t :=
  let '(file, files1, h1) := cf_vec_reserve h (files db) in
  let db1 := set_files db files1 in
  if negb file then (Err ENOMEM, db1, h1)
  else
    let '(r, h2) := cf_str_dup h1 path in
    match r with
    | Ok s =>
        let db2 := set_files db1 (cf_vec_commit files1 s) in
        (Ok (cf_vec_len (files db2)), db2, h2)
    | Err e => (Err e, set_files db1 (cf_vec_abort files1), h2)
    | Trap => (Trap, db1, h2)
    end.

(** The loop of [mem_db_typename_lookup] from entry [i] on: lengths, then
    [strncmp], then the file of the location at the same index.  The
    kind of [name] is not read, and the value written to [*out] is the
    index [i] of the typename entry. *)
Fixpoint mem_db_typename_lookup_loop (locs : cf_vec_t loc_ctx_t)
  (loc : loc_ctx_t) (name : db_typename_t)
  (entries : list db_typename_t) (i : Z) : res Z :=
  match entries with
  | [] => Err ENOENT
  | entry :: rest =>
      let len := cf_str_len (tn_name entry) in
      if negb (cf_str_len (tn_name name) =? len)
      then mem_db_typename_lookup_loop locs loc name rest (i + 1)
      else if negb (strncmp_eq0 (str (tn_name name)) (str (tn_name entry))
                      (Z.to_nat len))
      then mem_db_typename_lookup_loop locs loc name rest (i + 1)
      else
        match cf_vec_at locs i with
        | None => Trap
        | Some loc2 =>
            if negb (loc_file loc =? loc_file loc2)
            then mem_db_typename_lookup_loop locs loc name rest (i + 1)
            else Ok i
        end
  end.

Definition mem_db_typename_lookup (db : mem_db_t) (loc : loc_ctx_t)
  (name : db_typename_t) : res Z :=
  if cf_vec_len (typenames db) =? 0 then Err ENOENT
  else mem_db_typename_lookup_loop (locs_typename db) loc name
         (vec_data (typenames db)) 0.

Definition mem_db_type_insert (h : heap_t) (db : mem_db_t) (loc : loc_ctx_t)
  (entry : db_type_entry_t) : res Z * mem_db_t * heap_t :=
  let '(new_entry, v1, h1) := cf_vec_reserve h (user_types db) in
  let db1 := set_user_types db v1 in
  if negb new_entry then (Err ENOMEM, db1, h1)
  else
    let '(new_loc, l1, h2) := cf_vec_reserve h1 (locs_type db1) in
    let db2 := set_locs_type db1 l1 in
    if negb new_loc
    then (Err ENOMEM, set_user_types db2 (cf_vec_abort v1), h2)
    else
      let db3 := set_user_types db2 (cf_vec_commit v1 entry) in
      let db4 := set_locs_type db3 (cf_vec_commit l1 loc) in
      (Ok (cf_vec_len (user_types db4)), db4, h2).

Definition mem_db_typename_insert (h : heap_t) (db : mem_db_t)
  (loc : loc_ctx_t) (entry : db_typename_t) : res unit * mem_db_t * heap_t :=
  let '(new_entry, v1, h1) := cf_vec_reserve h (typenames db) in
  let db1 := set_typenames db v1 in
  if negb new_entry then (Err ENOMEM, db1, h1)
  else
    let '(new_loc, l1, h2) := cf_vec_reserve h1 (locs_typename db1) in
    let db2 := set_locs_typename db1 l1 in
    if negb new_loc
    then (Err ENOMEM, set_typenames db2 (cf_vec_abort v1), h2)
    else
      let '(r, h3) := cf_str_dup_str h2 (tn_name entry) in
      match r with
      | Ok s =>
          let new := mk_typename (tn_kind entry) (tn_base_type entry) s in
          let db3 := set_typenames db2 (cf_vec_commit v1 new) in
          let db4 := set_locs_typename db3 (cf_vec_commit l1 loc) in
          (Ok tt, db4, h3)
      | Err e =>
          (* fail_copy: loc_vec_abort; fail_loc: typename_vec_abort *)
          let db3 := set_locs_typename db2 (cf_vec_abort l1) in
          (Err e, set_typenames db3 (cf_vec_abort v1), h3)
      | Trap => (Trap, db2, h3)
      end.

Section MemDbMemberInsert.
(** What the slot reserved in [locs[member_idx]] holds before [loc] is
    copied into it. *)
Variable uninit_loc : loc_ctx_t.

Definition mem_db_member_insert (h : heap_t) (db : mem_db_t)
  (loc : loc_ctx_t) (entry : db_member_t) : res unit * mem_db_t * heap_t :=
  let '(new_entry, v1, h1) := cf_vec_reserve h (members db) in
  let db1 := set_members db v1 in
  if negb new_entry then (Err ENOMEM, db1, h1)
  else
    let '(new_loc, l1, h2) := cf_vec_reserve h1 (locs_member db1) in
    let db2 := set_locs_member db1 l1 in
    if negb new_loc
    then (Err ENOMEM, set_members db2 (cf_vec_abort v1), h2)
    else
      let '(r, h3) := cf_str_dup_str h2 (mb_name entry) in
      match r with
      | Ok s =>
          let new := mk_member (mb_parent entry) (mb_base_type entry) s in
          let db3 := set_members db2 (cf_vec_commit v1 new) in
          let db4 := set_locs_member db3 (cf_vec_commit l1 loc) in
          (Ok tt, db4, h3)
      | Err e =>
          (* fail_copy: loc_vec_commit; fail_loc: member_vec_abort *)
          let db3 := set_locs_member db2 (cf_vec_commit l1 uninit_loc) in
          (Err e, set_members db3 (cf_vec_abort v1), h3)
      | Trap => (Trap, db2, h3)
      end.
End MemDbMemberInsert.

Definition mem_db_type_use_insert (h : heap_t) (db : mem_db_t)
  (loc : loc_ctx_t) (entry : db_type_use_t) : res unit * mem_db_t * heap_t :=
  let '(new_entry, v1, h1) := cf_vec_reserve h (type_uses db) in
  let db1 := set_type_uses db v1 in
  if negb new_entry then (Err ENOMEM, db1, h1)
  else
    let '(new_loc, l1, h2) := cf_vec_reserve h1 (locs_type_use db1) in
    let db2 := set_locs_type_use db1 l1 in
    if negb new_loc
    then (Err ENOMEM, set_type_uses db2 (cf_vec_abort v1), h2)
    else
      let db3 := set_type_uses db2 (cf_vec_commit v1 entry) in
      let db4 := set_locs_type_use db3 (cf_vec_commit l1 loc) in
      (Ok tt, db4, h2).

Definition mem_db_file_lookup (db : mem_db_t) (id : Z) : res cf_str_t :=
  if id =? 0 then Trap
  else
    let index := wrap64 (id - 1) in
    if index >=? cf_vec_len (files db) then Err ENOENT
    else match cf_vec_at (files db) index with
         | Some file_name => Ok (mk_str (str file_name) false)
         | None => Trap
         end.

Definition mem_db_type_lookup (db : mem_db_t) (id : Z)
  : res (db_type_entry_t * loc_ctx_t) :=
  if id =? 0 then Trap
  else
    let index := wrap64 (id - 1) in
    if index >=? cf_vec_len (user_types db) then Err ENOENT
    else match cf_vec_at (user_types db) index,
               cf_vec_at (locs_type db) index with
         | Some entry, Some loc => Ok (entry, loc)
         | _, _ => Trap
         end.

(** The loop of [mem_db_member_lookup] from entry [i] on: the parent,
    the lengths, [strncmp]; for the first match the location at the
    same index of [locs[member_idx]], then the copy of the name. *)
Fixpoint mem_db_member_lookup_loop (h : heap_t) (locs : cf_vec_t loc_ctx_t)
  (parent : Z) (name : cf_str_t) (entries : list db_member_t) (i : Z)
  : res (db_member_t * loc_ctx_t) * heap_t :=
  match entries with
  | [] => (Err ENOENT, h)
  | entry :: rest =>
      if negb (parent =? mb_parent entry)
      then mem_db_member_lookup_loop h locs parent name rest (i + 1)
      else
        let len := cf_str_len (mb_name entry) in
        if negb (cf_str_len name =? len)
        then mem_db_member_lookup_loop h locs parent name rest (i + 1)
        else if negb (strncmp_eq0 (str name) (str (mb_name entry))
                        (Z.to_nat len))
        then mem_db_member_lookup_loop h locs parent name rest (i + 1)
        else
          match cf_vec_at locs i with
          | None => (Trap, h)
          | Some loc =>
              let '(r, h') := cf_str_dup_str h (mb_name entry) in
              match r with
              | Ok s =>
                  (Ok (mk_member (mb_parent entry) (mb_base_type entry) s,
                       loc), h')
              | Err e => (Err e, h')
              | Trap => (Trap, h')
              end
          end
  end.

Definition mem_db_member_lookup (h : heap_t) (db : mem_db_t) (parent : Z)
  (name : cf_str_t) : res (db_member_t * loc_ctx_t) * heap_t :=
  if cf_vec_len (members db) =? 0 then (Err ENOENT, h)
  else mem_db_member_lookup_loop h (locs_member db) parent name
         (vec_data (members db)) 0.

(** Every row of [user_types], [typenames] and [type_uses] has its
    location at the same index of its [locs] vector, and no location is
    left over. *)
Definition mem_db_aligned (db : mem_db_t) : Prop :=
  cf_vec_len (user_types db) = cf_vec_len (locs_type db)
  /\ cf_vec_len (typenames db) = cf_vec_len (locs_typename db)
  /\ cf_vec_len (type_uses db) = cf_vec_len (locs_type_use db).

(** [mem_db_typename_iter_t] *)
Record mem_db_typename_iter_t : Type :=
  mk_mem_iter { it_i : Z; it_key : cf_str_t }.

Definition mem_db_typename_find (name : cf_str_t) : mem_db_typename_iter_t :=
  mk_mem_iter SIZE_MAX (cf_str_borrow_str name).

(** The [for] loop of [mem_db_typename_iter_next] over the entries from
    index [i] on. *)
Fixpoint mem_db_typename_iter_scan (key : cf_str_t) (name_len : Z)
  (entries : list db_typename_t) (i : Z) : option Z :=
  match entries with
  | [] => None
  | entry :: rest =>
      if negb (cf_str_len (tn_name entry) =? name_len)
      then mem_db_typename_iter_scan key name_len rest (i + 1)
      else if negb (strncmp_eq0 (str key) (str (tn_name entry))
                      (Z.to_nat name_len))
      then mem_db_typename_iter_scan key name_len rest (i + 1)
      else Some i
  end.

Definition mem_db_typename_iter_next (db : mem_db_t)
  (it : mem_db_typename_iter_t) : bool * mem_db_typename_iter_t :=
  let name_len := cf_str_len (it_key it) in
  let start := wrap64 (it_i it + 1) in
  match mem_db_typename_iter_scan (it_key it) name_len
          (skipn (Z.to_nat start) (vec_data (typenames db))) start with
  | Some i => (true, mk_mem_iter i (it_key it))
  | None => (false, it)
  end.

Definition mem_db_typename_iter_peek (db : mem_db_t)
  (it : mem_db_typename_iter_t) : res (db_typename_t * loc_ctx_t) :=
  match cf_vec_at (typenames db) (it_i it),
        cf_vec_at (locs_typename db) (it_i it) with
  | Some entry, Some loc =>
      Ok (mk_typename (tn_kind entry) (tn_base_type entry)
            (cf_str_borrow_str (tn_name entry)), loc)
  | _, _ => Trap
  end.

(* ------------------------------------------------------------------ *)
(** ** nop_db.c *)

Record nop_db_t : Type := mk_nop_db { file_id : Z; type_id : Z }.

Definition nop_db_open : nop_db_t := mk_nop_db 0 0.

Definition nop_db_add_file (db : nop_db_t) : res Z * nop_db_t :=
  let id := to_int64 (file_id db + 1) in
  (Ok id, mk_nop_db id (type_id db)).

Definition nop_db_type_insert (db : nop_db_t) : res Z * nop_db_t :=
  let id := to_int64 (type_id db + 1) in
  (Ok id, mk_nop_db (file_id db) id).

(* ------------------------------------------------------------------ *)
(** ** parse.c: numeric tokens *)

Definition is_digit (c : ascii) : bool :=
  let n := Z.of_nat (nat_of_ascii c) in (48 <=? n) && (n <=? 57).

Definition char2int (c : ascii) : option Z :=
  if is_digit c then Some ((Z.of_nat (nat_of_ascii c) - 48) mod 2 ^ 8)
  else None.

(** The loop of [str2uint64]: the multiplication by 10 is checked with
    [__builtin_mul_overflow]; the addition [val += ones] is plain
    [uint64_t] arithmetic. *)
Fixpoint str2uint64_loop (s : string) (val : Z) : option Z :=
  match s with
  | EmptyString => Some val
  | String c rest =>
      if val * 10 >? UINT64_MAX then None
      else
        match char2int c with
        | None => None
        | Some ones => str2uint64_loop rest (wrap64 (val * 10 + ones))
        end
  end.

Definition str2uint64 (s : cf_str_t) : option Z :=
  if cf_str_len s =? 0 then None else str2uint64_loop (str s) 0.

(* ------------------------------------------------------------------ *)
(** ** The SQL engine, as far as sql_query.c relies on it

    The engine is not part of the repository.  A value stored in a
    column is a NULL, a 64-bit integer or a text; a prepared and bound
    statement is the list of outcomes its coming [sqlite3_step] calls
    have in one run, a result row or an error code, and reports
    SQLITE_DONE once that list is used up.  A row is read without any
    assumption on what it holds, so that a damaged database is a
    possible input.

    One run is all that is modelled.  A statement that is stepped again
    after SQLITE_DONE or after an error is reset by the engine and run
    anew, and sql_query.c never calls [sqlite3_reset] itself; what such
    a call answers is outside this model, and no property below steps a
    statement again after an answer other than SQLITE_ROW. *)

Inductive sql_value : Type :=
| sql_null
| sql_integer (z : Z)
| sql_text (s : string).

Definition SQLITE_INTEGER : Z := 1.
Definition SQLITE_TEXT : Z := 3.
Definition SQLITE_NULL : Z := 5.
Definition SQLITE_FULL : Z := 13.

Definition sqlite3_column_type (v : sql_value) : Z :=
  match v with
  | sql_null => SQLITE_NULL
  | sql_integer _ => SQLITE_INTEGER
  | sql_text _ => SQLITE_TEXT
  end.

(** [sqlite3_column_int], [sqlite3_column_int64], [sqlite3_column_text]
    with [sqlite3_column_bytes], on a column of the expected type. *)
Definition sqlite3_column_int (v : sql_value) : Z :=
  match v with sql_integer z => to_int32 z | _ => 0 end.
Definition sqlite3_column_int64 (v : sql_value) : Z :=
  match v with sql_integer z => to_int64 z | _ => 0 end.
Definition sqlite3_column_text (v : sql_value) : string :=
  match v with sql_text s => s | _ => "" end.

Inductive sql_step : Type :=
| step_row (columns : list sql_value)
| step_fail (code : Z).

Record sqlite3_stmt : Type := mk_stmt {
  stmt_pending : list sql_step;
  stmt_row : list sql_value
}.

Inductive step_code : Type :=
| SQLITE_ROW | SQLITE_DONE | SQLITE_ERRCODE (code : Z).

Definition sqlite3_step (stmt : sqlite3_stmt) : step_code * sqlite3_stmt :=
  match stmt_pending stmt with
  | [] => (SQLITE_DONE, mk_stmt [] [])
  | step_row columns :: rest => (SQLITE_ROW, mk_stmt rest columns)
  | step_fail code :: rest => (SQLITE_ERRCODE code, mk_stmt rest [])
  end.

(* ------------------------------------------------------------------ *)
(** ** sql_types.h, query_desc.h *)

Inductive column_kind_t : Type :=
| column_null | column_uint32 | column_uint64 | column_str.

(** [column_val_t], tagged with the member of the union that was
    written. *)
Inductive column_val_t : Type :=
| null_val
| uint32_val (z : Z)
| uint64_val (z : Z)
| str_val (s : cf_str_t).

Definition get_uint32 (v : column_val_t) : Z :=
  match v with uint32_val z => z | _ => 0 end.
Definition get_uint64 (v : column_val_t) : Z :=
  match v with uint64_val z => z | _ => 0 end.
Definition get_str (v : column_val_t) : cf_str_t :=
  match v with str_val s => s | _ => cf_str_null end.

(** The output columns of [typename_find_query]:
    name, kind, base_type, file, func, scope, line, column. *)
Definition typename_find_query_output_kinds : list column_kind_t :=
  [column_str; column_uint32; column_uint64; column_uint64; column_uint64;
   column_uint32; column_uint32; column_uint32].

(** The output column of [file_lookup_query]: id. *)
Definition file_lookup_query_output_kinds : list column_kind_t :=
  [column_uint64].

(* ------------------------------------------------------------------ *)
(** ** sql_query.c *)

Definition sql_column_kind2type (kind : column_kind_t) : Z :=
  match kind with
  | column_null => SQLITE_NULL
  | column_uint32 | column_uint64 => SQLITE_INTEGER
  | column_str => SQLITE_TEXT
  end.

(** [select_one_column]: a column of the wrong type is EILSEQ; a
    negative integer is reported and converted anyway; a text of length
    zero becomes the null string, any other text is borrowed. *)
Definition select_one_column (v : sql_value) (expected_kind : column_kind_t)
  : res column_val_t * list log_level :=
  if negb (sqlite3_column_type v =? sql_column_kind2type expected_kind)
  then (Err EILSEQ, [print_corrupt])
  else
    match expected_kind with
    | column_null => (Ok null_val, [])
    | column_uint32 =>
        let val := sqlite3_column_int v in
        (Ok (uint32_val (wrap32 val)),
         if val <? 0 then [print_corrupt] else [])
    | column_uint64 =>
        let val := sqlite3_column_int64 v in
        (Ok (uint64_val (wrap64 val)),
         if val <? 0 then [print_corrupt] else [])
    | column_str =>
        let s := sqlite3_column_text v in
        if Z.of_nat (String.length s) <=? 0
        then (Ok (str_val cf_str_null), [print_corrupt])
        else (Ok (str_val (cf_str_borrow s)), [print_info])
    end.

(** The loop of [select_serial_row] over the columns. *)
Fixpoint select_columns (row : list sql_value) (kinds : list column_kind_t)
  : res (list column_val_t) * list log_level :=
  match kinds with
  | [] => (Ok [], [])
  | kind :: kinds' =>
      match row with
      | [] => (Trap, [])
      | v :: row' =>
          let '(r, l1) := select_one_column v kind in
          match r with
          | Ok val =>
              let '(rs, l2) := select_columns row' kinds' in
              match rs with
              | Ok vals => (Ok (val :: vals), l1 ++ l2)
              | Err e => (Err e, l1 ++ l2)
              | Trap => (Trap, l1 ++ l2)
              end
          | Err e => (Err e, l1 ++ [print_err])
          | Trap => (Trap, l1)
          end
      end
  end.

Definition select_serial_row (stmt : sqlite3_stmt)
  (kinds : list column_kind_t) : res (list column_val_t) * list log_level :=
  let num_columns := Z.of_nat (List.length (stmt_row stmt)) in
  if (num_columns <=? 0) || negb (num_columns =? Z.of_nat (List.length kinds))
  then (Err EILSEQ, [print_err])
  else select_columns (stmt_row stmt) kinds.

Definition query_step_one (stmt : sqlite3_stmt)
  : res unit * sqlite3_stmt * list log_level :=
  let '(code, stmt') := sqlite3_step stmt in
  match code with
  | SQLITE_ROW => (Ok tt, stmt', [])
  | SQLITE_DONE => (Err ENOENT, stmt', [])
  | SQLITE_ERRCODE c => (Err (ESQLITE c), stmt', [print_err])
  end.

Definition iter_next_typename (stmt : sqlite3_stmt) := query_step_one stmt.

Definition col (vals : list column_val_t) (i : nat) : column_val_t :=
  nth i vals null_val.

(** [exec_find_typename_query]; the closing assertion wants the name
    column to carry the borrowed bit, which the null string does not. *)
Definition exec_find_typename_query (stmt : sqlite3_stmt)
  : res (db_typename_t * loc_ctx_t) * list log_level :=
  let '(r, l) := select_serial_row stmt typename_find_query_output_kinds in
  match r with
  | Ok vals =>
      let entry :=
        mk_typename (get_uint32 (col vals 1))
          (to_int64 (get_uint64 (col vals 2)))
          (cf_str_borrow_str (get_str (col vals 0))) in
      let loc :=
        mk_loc (to_int64 (get_uint64 (col vals 3)))
          (to_int64 (get_uint64 (col vals 4)))
          (get_uint32 (col vals 5)) (get_uint32 (col vals 6))
          (get_uint32 (col vals 7)) in
      if borrowed (get_str (col vals 0))
      then (Ok (entry, loc), l)
      else (Trap, l)
  | Err e => (Err e, l)
  | Trap => (Trap, l)
  end.

Definition iter_get_typename (stmt : sqlite3_stmt) :=
  exec_find_typename_query stmt.

(* ------------------------------------------------------------------ *)
(** ** sql_db.c: the typename-find cursor *)

Definition sanitize_typename_kind (kind : Z) : bool :=
  (kind =? name_kind_direct) || (kind =? name_kind_typedef)
  || (kind =? name_kind_var).

Definition sanitize_rowid (rowid : Z) : bool :=
  (0 <? rowid) && (rowid <? INT64_MAX).

Definition sanitize_typename (name : db_typename_t) : bool * list log_level :=
  if negb (sanitize_typename_kind (tn_kind name)) then (false, [print_info])
  else if negb (sanitize_rowid (tn_base_type name))
  then (false, [print_info])
  else if cf_str_is_null (tn_name name) then (false, [print_info])
  else (true, []).

Record sqlite_db_typename_iter_t : Type := mk_sql_iter {
  sit_stmt : sqlite3_stmt;
  sit_cur_name : db_typename_t;
  sit_cur_loc : loc_ctx_t
}.

(** [sql_db_typename_iter_next]: [Ok b] is the returned [bool]. *)
Definition sql_db_typename_iter_next (it : sqlite_db_typename_iter_t)
  : res bool * sqlite_db_typename_iter_t * list log_level :=
  let '(r1, stmt1, l1) := iter_next_typename (sit_stmt it) in
  let it1 := mk_sql_iter stmt1 (sit_cur_name it) (sit_cur_loc it) in
  match r1 with
  | Err _ => (Ok false, it1, l1 ++ [print_info])
  | Trap => (Trap, it1, l1)
  | Ok _ =>
      let '(r2, l2) := iter_get_typename stmt1 in
      match r2 with
      | Err _ => (Ok false, it1, l1 ++ l2 ++ [print_err])
      | Trap => (Trap, it1, l1 ++ l2)
      | Ok (cur_name, cur_loc) =>
          let it2 := mk_sql_iter stmt1 cur_name cur_loc in
          let '(ok, l3) := sanitize_typename cur_name in
          if ok then (Ok true, it2, l1 ++ l2 ++ l3)
          else (Ok false, it2, l1 ++ l2 ++ l3 ++ [print_corrupt])
      end
  end.

Definition sql_db_typename_iter_peek (it : sqlite_db_typename_iter_t)
  : db_typename_t * loc_ctx_t :=
  (sit_cur_name it, sit_cur_loc it).

(** The callers' loop [while (db_typename_iter_next(&it)) { peek }] on
    the on-disk cursor, collecting the peeked entries; [None] when a
    [next] traps.  Every [next] consumes one pending step, so the
    recursion follows the pending steps. *)
Fixpoint sql_typename_iter_collect_n (n : nat) (it : sqlite_db_typename_iter_t)
  : option (list (db_typename_t * loc_ctx_t)) :=
  match n with
  | O => Some []
  | S n' =>
      match sql_db_typename_iter_next it with
      | (Ok true, it', _) =>
          match sql_typename_iter_collect_n n' it' with
          | Some l => Some (sql_db_typename_iter_peek it' :: l)
          | None => None
          end
      | (Ok false, _, _) => Some []
      | (_, _, _) => None
      end
  end.

Definition sql_typename_iter_collect (it : sqlite_db_typename_iter_t) :=
  sql_typename_iter_collect_n (S (List.length (stmt_pending (sit_stmt it)))) it.

(* ------------------------------------------------------------------ *)
(** ** sql_query.c, sql_db.c: the file table

    [file_table] holds (id, path) rows in the order of their row
    identifiers.  The engine runs [file_lookup_query],
    "SELECT id FROM file_table WHERE (path == ?1)", as the rows whose
    path equals the bound text, and gives a row inserted with a NULL id
    the identifier 1 in an empty table, else one more than the largest
    in use (SQLITE_FULL when that one is INT64_MAX). *)

Record sqlite3 : Type := mk_sqlite3 {
  file_table : list (Z * string);
  (* typeid, kind, complete, file, func, scope, line, column *)
  type_table : list (list sql_value);
  (* name, kind, base_type, file, func, scope, line, column *)
  typename_table : list (list sql_value)
}.

Definition set_file_table (db : sqlite3) (t : list (Z * string)) : sqlite3 :=
  mk_sqlite3 t (type_table db) (typename_table db).

Record sqlite_db_t : Type := mk_sqlite_db {
  sql : sqlite3;
  readonly : bool;
  buf_len : Z
}.

Definition file_lookup_stmt (db : sqlite3) (path : string) : sqlite3_stmt :=
  mk_stmt
    (map (fun r => step_row [sql_integer (fst r)])
       (filter (fun r => String.eqb (snd r) path) (file_table db)))
    [].

Definition last_rowid (t : list (Z * string)) : Z :=
  match t with
  | [] => 0
  | r :: rest => fold_right (fun x m => Z.max (fst x) m) (fst r) rest
  end.

(** An executed [file_insert_query]: the step code and the new table. *)
Definition file_insert_step (db : sqlite3) (path : string)
  : step_code * sqlite3 :=
  if last_rowid (file_table db) =? INT64_MAX
  then (SQLITE_ERRCODE SQLITE_FULL, db)
  else (SQLITE_DONE,
        set_file_table db
          (file_table db ++ [(last_rowid (file_table db) + 1, path)])).

Definition sqlite3_last_insert_rowid (db : sqlite3) : Z :=
  last_rowid (file_table db).

Definition lookup_one_row (stmt : sqlite3_stmt) (kinds : list column_kind_t)
  : res (list column_val_t) :=
  match query_step_one stmt with
  | (Ok _, stmt', _) => fst (select_serial_row stmt' kinds)
  | (Err e, _, _) => Err e
  | (Trap, _, _) => Trap
  end.

Definition exec_lookup_file_query (stmt : sqlite3_stmt) : res Z :=
  match lookup_one_row stmt file_lookup_query_output_kinds with
  | Ok vals => Ok (to_int64 (get_uint64 (col vals 0)))
  | Err e => Err e
  | Trap => Trap
  end.

Definition lookup_file (db : sqlite3) (path : string) : res Z :=
  if Z.of_nat (String.length path) =? 0 then Trap
  else exec_lookup_file_query (file_lookup_stmt db path).

Definition insert_file (db : sqlite3) (path : string) : res Z * sqlite3 :=
  if Z.of_nat (String.length path) =? 0 then (Trap, db)
  else
    match file_insert_step db path with
    | (SQLITE_DONE, db') =>
        let rowid := sqlite3_last_insert_rowid db' in
        if rowid >? 0 then (Ok rowid, db') else (Trap, db')
    | (SQLITE_ROW, db') => (Err (ESQLITE 100), db')
    | (SQLITE_ERRCODE c, db') => (Err (ESQLITE c), db')
    end.

(** The bytes of a buffer up to its first NUL. *)
Fixpoint c_str (s : string) : string :=
  match s with
  | EmptyString => EmptyString
  | String c rest => if is_nul c then EmptyString else String c (c_str rest)
  end.

Definition strnlen (s : string) (maxlen : Z) : Z :=
  Z.min (Z.of_nat (String.length (c_str s))) maxlen.

Section SqlDbAddFile.
(** [realpath(3)] on a NUL-terminated path, and [access(path, F_OK)]
    ([None] when the file exists). *)
Variable realpath : string -> res string.
Variable access : string -> option errno.

Definition clean_path (db : sqlite_db_t) (path_in : string) : res string :=
  if Z.of_nat (String.length path_in) >=? buf_len db then Err ERANGE
  else realpath (c_str path_in).

Definition sql_db_add_file (db : sqlite_db_t) (path_ : string)
  : res Z * sqlite_db_t :=
  if negb (Z.of_nat (String.length path_) <? INT_MAX) then (Trap, db)
  else if readonly db then (Err EACCES, db)
  else
    match clean_path db path_ with
    | Err e => (Err e, db)
    | Trap => (Trap, db)
    | Ok cleaned =>
        let len := strnlen cleaned (buf_len db) in
        let path := substring 0 (Z.to_nat len) cleaned in
        match access cleaned with
        | Some e => (Err e, db)
        | None =>
            match lookup_file (sql db) path with
            | Ok rowid => (Ok rowid, db)
            | Trap => (Trap, db)
            | Err e =>
                if negb (errno_eqb e ENOENT) then (Err e, db)
                else
                  let '(r, sql') := insert_file (sql db) path in
                  (r, mk_sqlite_db sql' (readonly db) (buf_len db))
            end
        end
    end.

(** [n] calls in a row with the same path: the results, first call
    first, and the store after the last one. *)
Fixpoint sql_db_add_file_n (n : nat) (db : sqlite_db_t) (path : string)
  : list (res Z) * sqlite_db_t :=
  match n with
  | O => ([], db)
  | S n' =>
      let '(r, db1) := sql_db_add_file db path in
      let '(rs, db2) := sql_db_add_file_n n' db1 path in
      (r :: rs, db2)
  end.
End SqlDbAddFile.

Fixpoint mem_db_add_file_n (n : nat) (h : heap_t) (db : mem_db_t)
  (path : string) : list (res Z) * mem_db_t * heap_t :=
  match n with
  | O => ([], db, h)
  | S n' =>
      let '(r, db1, h1) := mem_db_add_file h db path in
      let '(rs, db2, h2) := mem_db_add_file_n n' h1 db1 path in
      (r :: rs, db2, h2)
  end.

(** The entries of a file table that match a path. *)
Definition mem_file_entries (db : mem_db_t) (path : string) : list cf_str_t :=
  filter (fun f => String.eqb (str f) path) (vec_data (files db)).

Definition sql_file_entries (db : sqlite_db_t) (path : string)
  : list (Z * string) :=
  filter (fun r => String.eqb (snd r) path) (file_table (sql db)).

(** The test of one entry in [mem_db_typename_iter_next]. *)
Definition mem_iter_match (key : cf_str_t) (entry : db_typename_t) : bool :=
  (cf_str_len (tn_name entry) =? cf_str_len key)
  && strncmp_eq0 (str key) (str (tn_name entry)) (Z.to_nat (cf_str_len key)).

(* ------------------------------------------------------------------ *)
(** ** sql_query.c, sql_db.c: the look-ups of the query executor

    [typename_find_query] selects the typename rows whose name the
    engine's LIKE operator matches with the bound text;
    [type_lookup_query] selects the type rows whose typeid equals the
    bound integer. *)

Definition type_lookup_query_output_kinds : list column_kind_t :=
  [column_uint64; column_uint32; column_uint32; column_uint64; column_uint64;
   column_uint32; column_uint32; column_uint32].

(** [bind_one_column] for a [column_uint64] placeholder. *)
Definition bind_uint64 (val : Z) : res unit :=
  if wrap64 val >? INT64_MAX then Err ERANGE else Ok tt.

Definition type_lookup_stmt (db : sqlite3) (rowid : Z) : sqlite3_stmt :=
  mk_stmt
    (map step_row
       (filter (fun row => match nth 0 row sql_null with
                           | sql_integer z => z =? rowid
                           | _ => false
                           end)
          (type_table db)))
    [].

Definition lookup_type_entry (db : sqlite3) (rowid : Z)
  : res (db_type_entry_t * loc_ctx_t) :=
  match bind_uint64 rowid with
  | Err e => Err e
  | Trap => Trap
  | Ok _ =>
      match lookup_one_row (type_lookup_stmt db rowid)
              type_lookup_query_output_kinds with
      | Err e => Err e
      | Trap => Trap
      | Ok vals =>
          let rowid_out := to_int64 (get_uint64 (col vals 0)) in
          let entry :=
            mk_type_entry (get_uint32 (col vals 1))
              (negb (get_uint32 (col vals 2) =? 0)) in
          let loc :=
            mk_loc (to_int64 (get_uint64 (col vals 3)))
              (to_int64 (get_uint64 (col vals 4)))
              (get_uint32 (col vals 5)) (get_uint32 (col vals 6))
              (get_uint32 (col vals 7)) in
          if rowid_out =? rowid then Ok (entry, loc) else Trap
      end
  end.

Definition sql_db_type_lookup (db : sqlite_db_t) (rowid : Z)
  : res (db_type_entry_t * loc_ctx_t) :=
  if rowid =? 0 then Trap else lookup_type_entry (sql db) rowid.

Section SqlLike.
(** The engine's LIKE: the pattern, then the stored value. *)
Variable sql_like : string -> sql_value -> bool.

Definition find_typenames (db : sqlite3) (name : cf_str_t) : sqlite3_stmt :=
  mk_stmt
    (map step_row
       (filter (fun row => sql_like (str name) (nth 0 row sql_null))
          (typename_table db)))
    [].

Definition sql_db_typename_find (db : sqlite_db_t) (name : cf_str_t)
  : sqlite_db_typename_iter_t :=
  mk_sql_iter (find_typenames (sql db) name)
    (mk_typename 0 0 cf_str_null) (mk_loc 0 0 0 0 0).
End SqlLike.

(* ------------------------------------------------------------------ *)
(** ** cf_db.c: the dispatch used by the query executor *)

Inductive cf_db_t : Type :=
| db_kind_nop (nop : nop_db_t)
| db_kind_mem (mem : mem_db_t)
| db_kind_sql (sqldb : sqlite_db_t).

(** [db_typename_iter_t]: the state of the back-end's cursor; the
    [parent] pointer is the store passed along with it. *)
Inductive db_typename_iter_t : Type :=
| iter_nop
| iter_mem (it : mem_db_typename_iter_t)
| iter_sql (it : sqlite_db_typename_iter_t).

Section CfDbFind.
Variable sql_like : string -> sql_value -> bool.

Definition cf_db_typename_find (db : cf_db_t) (name : cf_str_t)
  : res db_typename_iter_t :=
  match db with
  | db_kind_nop _ => Err ENOTSUP
  | db_kind_mem _ => Ok (iter_mem (mem_db_typename_find name))
  | db_kind_sql d => Ok (iter_sql (sql_db_typename_find sql_like d name))
  end.
End CfDbFind.

Definition db_typename_iter_next (db : cf_db_t) (it : db_typename_iter_t)
  : res bool * db_typename_iter_t :=
  match db, it with
  | db_kind_mem d, iter_mem i =>
      let '(b, i') := mem_db_typename_iter_next d i in (Ok b, iter_mem i')
  | db_kind_sql _, iter_sql i =>
      let '(r, i', _) := sql_db_typename_iter_next i in (r, iter_sql i')
  | _, _ => (Trap, it)
  end.

Definition db_typename_iter_peek (db : cf_db_t) (it : db_typename_iter_t)
  : res (db_typename_t * loc_ctx_t) :=
  match db, it with
  | db_kind_mem d, iter_mem i => mem_db_typename_iter_peek d i
  | db_kind_sql _, iter_sql i => Ok (sql_db_typename_iter_peek i)
  | _, _ => Trap
  end.

Definition cf_db_type_lookup (db : cf_db_t) (id : type_ref_t)
  : res (db_type_entry_t * loc_ctx_t) :=
  match db with
  | db_kind_nop _ => Err ENOENT
  | db_kind_mem d => mem_db_type_lookup d id
  | db_kind_sql d => sql_db_type_lookup d id
  end.

(* ------------------------------------------------------------------ *)
(** ** search_types.h, search.c *)

Inductive name_elab_t : Type := name_none | name_struct | name_union | name_enum.

Record name_spec_t : Type := mk_name_spec {
  ns_kind : name_elab_t;
  ns_name : cf_str_t
}.

(** [type_search_t]: [is_id] with the union it selects. *)
Inductive type_search_t : Type :=
| search_id (rowid : Z)
| search_name (name : name_spec_t).

Definition name_elab_eqb (a b : name_elab_t) : bool :=
  match a, b with
  | name_none, name_none | name_struct, name_struct
  | name_union, name_union | name_enum, name_enum => true
  | _, _ => false
  end.

Definition elab2type_kind (elab : name_elab_t) : option Z :=
  match elab with
  | name_none => None
  | name_struct => Some type_kind_struct
  | name_union => Some type_kind_union
  | name_enum => Some type_kind_enum
  end.

(** What [user_print] writes in [search_type_core]; the listing that
    [print_all_typenames] adds after "ambiguous typename" is not kept. *)
Inductive user_msg : Type :=
| msg_no_matching_type
| msg_ambiguous_typename
| msg_no_type_matching_id (id : Z).

(** The loops below run on a cursor of any back-end; [fuel] bounds the
    number of [next] calls and [None] means that it ran out. *)

(** [find_one_type]: "check remaining entries". *)
Fixpoint find_one_type_rest (fuel : nat) (db : cf_db_t)
  (it : db_typename_iter_t) (id : Z) : option (res Z) :=
  match fuel with
  | O => None
  | S fuel' =>
      match db_typename_iter_next db it with
      | (Ok true, it') =>
          match db_typename_iter_peek db it' with
          | Ok (entry, _) =>
              if negb (tn_base_type entry =? id) then Some (Err EMLINK)
              else find_one_type_rest fuel' db it' id
          | Err e => Some (Err e)
          | Trap => Some Trap
          end
      | (Ok false, _) => Some (Ok id)
      | (Err e, _) => Some (Err e)
      | (Trap, _) => Some Trap
      end
  end.

(** [find_elab_type]: "linear search all matches". *)
Fixpoint find_elab_type_loop (fuel : nat) (db : cf_db_t) (name : name_spec_t)
  (it : db_typename_iter_t) (id : Z) : option (res Z) :=
  match fuel with
  | O => None
  | S fuel' =>
      match db_typename_iter_next db it with
      | (Ok true, it') =>
          match db_typename_iter_peek db it' with
          | Ok (name_entry, _) =>
              if negb (tn_kind name_entry =? name_kind_direct)
              then find_elab_type_loop fuel' db name it' id
              else
                match cf_db_type_lookup db (tn_base_type name_entry) with
                | Ok (type_entry, _) =>
                    match elab2type_kind (ns_kind name) with
                    | None => Some Trap
                    | Some kind =>
                        if negb (kind =? te_kind type_entry)
                        then find_elab_type_loop fuel' db name it' id
                        else
                          let id' := if id =? 0
                                     then tn_base_type name_entry else id in
                          if negb (tn_base_type name_entry =? id')
                          then Some (Err EMLINK)
                          else find_elab_type_loop fuel' db name it' id'
                    end
                | Err e => Some (Err e)
                | Trap => Some Trap
                end
          | Err e => Some (Err e)
          | Trap => Some Trap
          end
      | (Ok false, _) => Some (if id =? 0 then Err ENOENT else Ok id)
      | (Err e, _) => Some (Err e)
      | (Trap, _) => Some Trap
      end
  end.

Section Search.
Variable sql_like : string -> sql_value -> bool.

Definition find_elab_type (fuel : nat) (db : cf_db_t) (name : name_spec_t)
  : option (res Z) :=
  if name_elab_eqb (ns_kind name) name_none then Some Trap
  else
    match cf_db_typename_find sql_like db (ns_name name) with
    | Ok iter => find_elab_type_loop fuel db name iter 0
    | Err e => Some (Err e)
    | Trap => Some Trap
    end.

Definition find_one_type (fuel : nat) (db : cf_db_t) (name : name_spec_t)
  : option (res Z) :=
  if negb (name_elab_eqb (ns_kind name) name_none)
  then find_elab_type fuel db name
  else
    match cf_db_typename_find sql_like db (ns_name name) with
    | Err e => Some (Err e)
    | Trap => Some Trap
    | Ok iter =>
        match fuel with
        | O => None
        | S fuel' =>
            (* extract the first entry *)
            match db_typename_iter_next db iter with
            | (Ok true, iter') =>
                match db_typename_iter_peek db iter' with
                | Ok (entry, _) =>
                    find_one_type_rest fuel' db iter' (tn_base_type entry)
                | Err e => Some (Err e)
                | Trap => Some Trap
                end
            | (Ok false, _) => Some (Err ENOENT)
            | (Err e, _) => Some (Err e)
            | (Trap, _) => Some Trap
            end
        end
    end.

Definition search_type_core (fuel : nat) (db : cf_db_t)
  (query : type_search_t)
  : option (res (type_ref_t * db_type_entry_t * loc_ctx_t) * list user_msg) :=
  let resolve (id : Z) :=
    match cf_db_type_lookup db id with
    | Ok (entry, loc) => (Ok (id, entry, loc), [])
    | Err e =>
        (Err e, if errno_eqb e ENOENT then [msg_no_type_matching_id id]
                else [])
    | Trap => (Trap, [])
    end in
  match query with
  | search_id rowid => Some (resolve rowid)
  | search_name name =>
      match find_one_type fuel db name with
      | None => None
      | Some (Ok id) => Some (resolve id)
      | Some (Err e) =>
          Some (Err e,
                if errno_eqb e ENOENT then [msg_no_matching_type]
                else if errno_eqb e EMLINK then [msg_ambiguous_typename]
                else [])
      | Some Trap => Some (Trap, [])
      end
  end.
End Search.


(* ------------------------------------------------------------------ *)
(** ** Cursor runs and inputs used in the statements *)



(** A typename row as the engine returns it for [typename_find_query]. *)
Definition typename_row (name : string) (kind base_type file line column : Z)
  : sql_step :=
  step_row [sql_text name; sql_integer kind; sql_integer base_type;
            sql_integer file; sql_integer 0; sql_integer 0;
            sql_integer line; sql_integer column].

Definition sql_iter_of (steps : list sql_step) : sqlite_db_typename_iter_t :=
  mk_sql_iter (mk_stmt steps [])
    (mk_typename 0 0 cf_str_null) (mk_loc 0 0 0 0 0).

(** A result of two rows: the first has kind 7, outside the enum; the
    second is a sound row. *)
Definition damaged_then_sound : list sql_step :=
  [typename_row "foo" 7 1 1 3 1; typename_row "foo" name_kind_direct 2 1 9 1].

(** The in-memory store holding the one typename row
    (kind = direct, base_type = 5, name = "foo") in file 1. *)
Definition mem_db_one_direct_foo : mem_db_t :=
  snd (fst (mem_db_typename_insert [] mem_db_open (mk_loc 1 0 0 1 1)
              (mk_typename name_kind_direct 5 (cf_str_borrow "foo")))).

(** Entries from the cursor's next position on that match its key. *)
Definition mem_iter_left (db : mem_db_t) (it : mem_db_typename_iter_t) : nat :=
  List.length (filter (mem_iter_match (it_key it))
     (skipn (Z.to_nat (wrap64 (it_i it + 1))) (vec_data (typenames db)))).

(** Row identifiers as the engine hands them out. *)
Definition rowids_ok (t : list (Z * string)) : Prop :=
  Forall (fun r => 0 < fst r <= INT64_MAX) t.

Definition mem_iter_rest (db : mem_db_t) (it : mem_db_typename_iter_t)
  : list db_typename_t :=
  filter (mem_iter_match (it_key it))
    (skipn (Z.to_nat (wrap64 (it_i it + 1))) (vec_data (typenames db))).

Fixpoint db_typename_iter_collect (fuel : nat) (db : cf_db_t)
  (it : db_typename_iter_t) : option (res (list db_typename_t)) :=
  match fuel with
  | O => None
  | S fuel' =>
      match db_typename_iter_next db it with
      | (Ok true, it') =>
          match db_typename_iter_peek db it' with
          | Ok (entry, _) =>
              match db_typename_iter_collect fuel' db it' with
              | Some (Ok l) => Some (Ok (entry :: l))
              | other => other
              end
          | Err e => Some (Err e)
          | Trap => Some Trap
          end
      | (Ok false, _) => Some (Ok [])
      | (Err e, _) => Some (Err e)
      | (Trap, _) => Some Trap
      end
  end.


Definition borrow_name (e : db_typename_t) : db_typename_t :=
  mk_typename (tn_kind e) (tn_base_type e) (cf_str_borrow_str (tn_name e)).

(* ------------------------------------------------------------------ *)
(** ** cf_map.c *)

(** [cf_map8_t]: the entries in the order of their insertion.  Keys are
    not checked for uniqueness, the first entry with a key shadows the
    later ones.  (The reservations of the indexer's own vectors and maps
    are taken to succeed; allocation failure is modelled in the store.) *)
Definition cf_map8_t : Type := list (Z * Z).

Fixpoint cf_map8_lookup (map : cf_map8_t) (key : Z) : option Z :=
  match map with
  | [] => None
  | (k, v) :: rest => if k =? key then Some v else cf_map8_lookup rest key
  end.

Fixpoint cf_map8_remove (map : cf_map8_t) (key : Z) : cf_map8_t :=
  match map with
  | [] => []
  | (k, v) :: rest =>
      if k =? key then rest else (k, v) :: cf_map8_remove rest key
  end.

(** [cf_map8_reserve], the two stores, [cf_map8_commit]. *)
Definition cf_map8_insert (map : cf_map8_t) (key value : Z) : cf_map8_t :=
  map ++ [(key, value)].

(* ------------------------------------------------------------------ *)
(** ** The C front-end, as far as cf_index.c asks it

    A cursor carries the answers of the libclang calls that cf_index.c
    makes on it; a translation unit is the tree of its cursors.  Names
    are the bytes of the C strings the front-end returns, without the
    terminator. *)

Inductive CXCursorKind : Type :=
| CXCursor_UnexposedDecl | CXCursor_StructDecl | CXCursor_UnionDecl
| CXCursor_EnumDecl | CXCursor_FieldDecl | CXCursor_EnumConstantDecl
| CXCursor_FunctionDecl | CXCursor_VarDecl | CXCursor_TypedefDecl
| CXCursor_MemberRefExpr | CXCursor_OtherKind.

Inductive CXTypeKind : Type :=
| CXType_Invalid | CXType_Record | CXType_Enum | CXType_OtherKind.

(** [ct_kind] is [ct.kind]; [ct_canonical_kind] and [ct_data] are the
    kind and [data[0]] of [clang_getCanonicalType(ct)]; [ct_incomplete]
    says that [clang_Type_getAlignOf] answers
    [CXTypeLayoutError_Incomplete]. *)
Record CXType : Type := mk_CXType {
  ct_kind : CXTypeKind;
  ct_canonical_kind : CXTypeKind;
  ct_data : clang_type_t;
  ct_incomplete : bool
}.

Definition clang_getCanonicalType (ct : CXType) : CXType :=
  mk_CXType (ct_canonical_kind ct) (ct_canonical_kind ct) (ct_data ct)
    (ct_incomplete ct).

Record CXCursor : Type := mk_cursor {
  cur_id : Z;                     (* what clang_equalCursors compares *)
  cur_kind : CXCursorKind;        (* clang_getCursorKind *)
  cur_type : CXType;              (* clang_getCursorType *)
  cur_underlying : CXType;        (* clang_getTypedefDeclUnderlyingType *)
  cur_anonymous : bool;           (* clang_Cursor_isAnonymousRecordDecl *)
  cur_pretty : string;            (* clang_getCursorPrettyPrinted *)
  cur_spelling : string;          (* clang_getCursorSpelling *)
  cur_typedef_name : string;      (* clang_getTypedefName of the type *)
  cur_file : Z;                   (* the CXFile of the expansion location *)
  cur_line : Z;
  cur_column : Z
}.

#[warnings="-register-all"]
Inductive ast : Type :=
| Node (cursor : CXCursor) (children : list ast).

Definition ast_cursor (n : ast) : CXCursor :=
  match n with
  | Node cursor _ => cursor
  end.

Definition clang_equalCursors (a b : CXCursor) : bool := cur_id a =? cur_id b.

(** The visitors of cf_index.c answer Continue or Recurse only. *)
Inductive CXChildVisitResult : Type :=
| CXChildVisit_Continue | CXChildVisit_Recurse.

Definition CXCursorKind_eqb (a b : CXCursorKind) : bool :=
  match a, b with
  | CXCursor_UnexposedDecl, CXCursor_UnexposedDecl
  | CXCursor_StructDecl, CXCursor_StructDecl
  | CXCursor_UnionDecl, CXCursor_UnionDecl
  | CXCursor_EnumDecl, CXCursor_EnumDecl
  | CXCursor_FieldDecl, CXCursor_FieldDecl
  | CXCursor_EnumConstantDecl, CXCursor_EnumConstantDecl
  | CXCursor_FunctionDecl, CXCursor_FunctionDecl
  | CXCursor_VarDecl, CXCursor_VarDecl
  | CXCursor_TypedefDecl, CXCursor_TypedefDecl
  | CXCursor_MemberRefExpr, CXCursor_MemberRefExpr
  | CXCursor_OtherKind, CXCursor_OtherKind => true
  | _, _ => false
  end.

Section VisitChildren.
Variable S : Type.
Variable visitor : ast -> CXCursor -> S -> option (CXChildVisitResult * S).

(** One step of the fold over a list of sibling nodes. *)
Fixpoint visit_list (visit : ast -> S -> option S) (l : list ast) (st : S)
  : option S :=
  match l with
  | [] => Some st
  | n :: rest =>
      match visit n st with
      | Some st' => visit_list visit rest st'
      | None => None
      end
  end.

(** The visit of one node with its subtree, depth first: the visitor is
    called on the node with its parent, and on Recurse the children
    follow with the node as their parent.  The visitor is handed the
    node, from which it can start a visit of its own. *)
Fixpoint visit_node (parent : CXCursor) (n : ast) (st : S) : option S :=
  match n with
  | Node cursor children =>
      match visitor n parent st with
      | Some (CXChildVisit_Recurse, st') =>
          visit_list (visit_node cursor) children st'
      | Some (CXChildVisit_Continue, st') => Some st'
      | None => None
      end
  end.

(** [clang_visitChildren(parent, visitor, data)]. *)
Definition clang_visitChildren (parent : CXCursor) (children : list ast)
  (st : S) : option S :=
  visit_list (visit_node parent) children st.
End VisitChildren.

(* ------------------------------------------------------------------ *)
(** ** cf_db.h: the interface functions that the indexer calls

    cf_db.c dispatches each of them on the tag of the store; every
    back-end is an instance.  [DB] is all the state a back-end works on. *)

Class Store (DB : Type) : Type := {
  cf_db_add_file : DB -> string -> res Z * DB;
  cf_db_typename_lookup : DB -> loc_ctx_t -> db_typename_t -> res Z;
  cf_db_type_insert : DB -> loc_ctx_t -> db_type_entry_t -> res Z * DB;
  cf_db_typename_insert : DB -> loc_ctx_t -> db_typename_t -> res unit * DB;
  cf_db_member_insert : DB -> loc_ctx_t -> db_member_t -> res unit * DB;
  cf_db_type_use_insert : DB -> loc_ctx_t -> db_type_use_t -> res unit * DB
}.

#[export] Instance nop_store : Store nop_db_t := {
  cf_db_add_file db _ := nop_db_add_file db;
  cf_db_typename_lookup _ _ _ := Err ENOENT;
  cf_db_type_insert db _ _ := nop_db_type_insert db;
  cf_db_typename_insert db _ _ := (Ok tt, db);
  cf_db_member_insert db _ _ := (Ok tt, db);
  cf_db_type_use_insert db _ _ := (Ok tt, db)
}.

(** The in-memory store together with the heap its functions allocate
    from. *)
Definition mem_store_t : Type := (mem_db_t * heap_t)%type.

Definition with_heap {A} (r : res A * mem_db_t * heap_t)
  : res A * mem_store_t :=
  let '(x, db, h) := r in (x, (db, h)).

#[export] Instance mem_store (uninit_loc : loc_ctx_t) : Store mem_store_t := {
  cf_db_add_file s path := with_heap (mem_db_add_file (snd s) (fst s) path);
  cf_db_typename_lookup s loc name := mem_db_typename_lookup (fst s) loc name;
  cf_db_type_insert s loc entry :=
    with_heap (mem_db_type_insert (snd s) (fst s) loc entry);
  cf_db_typename_insert s loc entry :=
    with_heap (mem_db_typename_insert (snd s) (fst s) loc entry);
  cf_db_member_insert s loc entry :=
    with_heap (mem_db_member_insert uninit_loc (snd s) (fst s) loc entry);
  cf_db_type_use_insert s loc entry :=
    with_heap (mem_db_type_use_insert (snd s) (fst s) loc entry)
}.

(* ------------------------------------------------------------------ *)
(** ** index_types.h *)

(** A cursor stack with its top at the head. *)
Definition cursor_stack_t : Type := list CXCursor.

Record ast_path_t : Type := mk_path {
  parent_stack : cursor_stack_t;
  count : Z
}.

Record struct_pkg_t : Type := mk_struct_pkg {
  pkg_type_id : clang_type_t;
  pkg_entry : db_type_entry_t;
  pkg_name : db_typename_t;
  pkg_loc0 : loc_ctx_t;           (* loc[0] *)
  pkg_loc1 : loc_ctx_t            (* loc[1] *)
}.

Record member_pkg_t : Type := mk_member_pkg {
  mp_parent : clang_type_t;
  mp_entry : db_member_t;
  mp_loc : loc_ctx_t
}.

Record type_use_pkg_t : Type := mk_type_use_pkg {
  up_where : clang_type_t;
  up_entry : db_type_use_t;
  up_loc : loc_ctx_t
}.

Record struct_scoreboard_t : Type := mk_sb {
  sb_path : ast_path_t;
  current_parent_stack : cursor_stack_t;
  sb_loc : loc_ctx_t;
  new_types : list struct_pkg_t;
  sb_members : list member_pkg_t;
  sb_type_uses : list type_use_pkg_t;
  unnamed_types : cf_map8_t
}.

Record index_ctx_t (DB : Type) : Type := mk_ctx {
  ctx_db : DB;                    (* the store [db] points to *)
  file_map : cf_map8_t;
  type_map : cf_map8_t;
  ctx_path : ast_path_t;
  ctx_loc : loc_ctx_t;
  struct_sb : struct_scoreboard_t;
  last_struct : clang_type_t
}.
Arguments mk_ctx {DB}.
Arguments ctx_db {DB}.
Arguments file_map {DB}.
Arguments type_map {DB}.
Arguments ctx_path {DB}.
Arguments ctx_loc {DB}.
Arguments struct_sb {DB}.
Arguments last_struct {DB}.

Definition zero_loc : loc_ctx_t := mk_loc 0 0 0 0 0.
Definition zero_typename : db_typename_t := mk_typename 0 0 cf_str_null.

Definition set_sb_path sb v :=
  mk_sb v (current_parent_stack sb) (sb_loc sb) (new_types sb)
    (sb_members sb) (sb_type_uses sb) (unnamed_types sb).
Definition set_current_parent_stack sb v :=
  mk_sb (sb_path sb) v (sb_loc sb) (new_types sb)
    (sb_members sb) (sb_type_uses sb) (unnamed_types sb).
Definition set_sb_loc sb v :=
  mk_sb (sb_path sb) (current_parent_stack sb) v (new_types sb)
    (sb_members sb) (sb_type_uses sb) (unnamed_types sb).
Definition set_new_types sb v :=
  mk_sb (sb_path sb) (current_parent_stack sb) (sb_loc sb) v
    (sb_members sb) (sb_type_uses sb) (unnamed_types sb).
Definition set_sb_members sb v :=
  mk_sb (sb_path sb) (current_parent_stack sb) (sb_loc sb) (new_types sb)
    v (sb_type_uses sb) (unnamed_types sb).
Definition set_sb_type_uses sb v :=
  mk_sb (sb_path sb) (current_parent_stack sb) (sb_loc sb) (new_types sb)
    (sb_members sb) v (unnamed_types sb).
Definition set_unnamed_types sb v :=
  mk_sb (sb_path sb) (current_parent_stack sb) (sb_loc sb) (new_types sb)
    (sb_members sb) (sb_type_uses sb) v.

Definition set_ctx_db {DB} (ctx : index_ctx_t DB) (v : DB) :=
  mk_ctx v (file_map ctx) (type_map ctx) (ctx_path ctx) (ctx_loc ctx)
    (struct_sb ctx) (last_struct ctx).
Definition set_file_map {DB} (ctx : index_ctx_t DB) v :=
  mk_ctx (ctx_db ctx) v (type_map ctx) (ctx_path ctx) (ctx_loc ctx)
    (struct_sb ctx) (last_struct ctx).
Definition set_type_map {DB} (ctx : index_ctx_t DB) v :=
  mk_ctx (ctx_db ctx) (file_map ctx) v (ctx_path ctx) (ctx_loc ctx)
    (struct_sb ctx) (last_struct ctx).
Definition set_ctx_path {DB} (ctx : index_ctx_t DB) v :=
  mk_ctx (ctx_db ctx) (file_map ctx) (type_map ctx) v (ctx_loc ctx)
    (struct_sb ctx) (last_struct ctx).
Definition set_ctx_loc {DB} (ctx : index_ctx_t DB) v :=
  mk_ctx (ctx_db ctx) (file_map ctx) (type_map ctx) (ctx_path ctx) v
    (struct_sb ctx) (last_struct ctx).
Definition set_struct_sb {DB} (ctx : index_ctx_t DB) v :=
  mk_ctx (ctx_db ctx) (file_map ctx) (type_map ctx) (ctx_path ctx)
    (ctx_loc ctx) v (last_struct ctx).
Definition set_last_struct {DB} (ctx : index_ctx_t DB) v :=
  mk_ctx (ctx_db ctx) (file_map ctx) (type_map ctx) (ctx_path ctx)
    (ctx_loc ctx) (struct_sb ctx) v.

(* ------------------------------------------------------------------ *)
(** ** cf_index.c

    A function that can hit a [cf_assert], a [cf_panic] or a NULL
    dereference returns an [option], [None] for the trap.  Keys and
    values of the maps are 64-bit patterns; the casts between [int64_t],
    [uint64_t] and pointers leave them as they are. *)

Definition type_is_indexable (ct : CXType) : bool :=
  match ct_kind ct with
  | CXType_Record | CXType_Enum => true
  | _ => false
  end.

Definition get_clang_type (ct : CXType) : option clang_type_t :=
  match ct_kind ct, ct_canonical_kind ct with
  | CXType_Invalid, _ => None
  | _, CXType_Invalid => None
  | _, _ => Some (ct_data ct)
  end.

Definition type_map_insert (map : cf_map8_t) (ct : clang_type_t)
  (type_ref : type_ref_t) : option cf_map8_t :=
  if ct =? 0 then None
  else if type_ref =? 0 then None
  else Some (cf_map8_insert map ct type_ref).

Definition type_map_lookup2 (map : cf_map8_t) (ct : clang_type_t)
  : option type_ref_t :=
  cf_map8_lookup map ct.

Definition file_map_add (map : cf_map8_t) (file : Z) (ref : file_ref_t)
  : cf_map8_t :=
  cf_map8_insert map file ref.

Definition file_map_lookup (map : cf_map8_t) (file : Z) : option file_ref_t :=
  cf_map8_lookup map file.

Definition translate_struct_type (map : cf_map8_t) (old : clang_type_t)
  : option type_ref_t :=
  cf_map8_lookup map old.

Definition translate_member_type (map1 map2 : cf_map8_t) (old : clang_type_t)
  : option type_ref_t :=
  if old =? 0 then Some 0
  else match translate_struct_type map1 old with
       | Some ref => Some ref
       | None => translate_struct_type map2 old
       end.

(** [cf_str_dup(c_string, strlen(c_string), &out)] on a name of the
    front-end, into a zeroed [out].  The callers do not look at the
    result; [out] stays null when the copy is refused.  (The allocations
    of the indexer itself are taken to succeed, those of the store are
    not.) *)
Definition dup_c_string (s : string) : cf_str_t :=
  match fst (cf_str_dup [] s) with
  | Ok r => r
  | _ => cf_str_null
  end.

Definition cursor_stack_top (stack : cursor_stack_t) : option CXCursor :=
  match stack with
  | [] => None
  | top :: _ => Some top
  end.

Definition cursor_stack_descend (stack : cursor_stack_t) (cursor : CXCursor)
  : cursor_stack_t :=
  cursor :: stack.

Definition make_ast_path : ast_path_t := mk_path [] 0.

Definition make_struct_scoreboard : struct_scoreboard_t :=
  mk_sb make_ast_path [] zero_loc [] [] [] [].

Definition reset_struct_scoreboard (sb : struct_scoreboard_t)
  : struct_scoreboard_t :=
  mk_sb make_ast_path [] (sb_loc sb) [] [] [] [].

Definition is_tag (kind : CXCursorKind) : bool :=
  match kind with
  | CXCursor_StructDecl | CXCursor_UnionDecl | CXCursor_EnumDecl => true
  | _ => false
  end.

Definition extract_type_kind (kind : CXCursorKind) : option Z :=
  match kind with
  | CXCursor_StructDecl => Some type_kind_struct
  | CXCursor_UnionDecl => Some type_kind_union
  | CXCursor_EnumDecl => Some type_kind_enum
  | _ => None
  end.

Definition extract_struct (cursor : CXCursor) (ct : CXType)
  : option db_type_entry_t :=
  match extract_type_kind (cur_kind cursor) with
  | Some entry_kind => Some (mk_type_entry entry_kind (negb (ct_incomplete ct)))
  | None => None
  end.

Inductive struct_name_kind_t : Type :=
| struct_name_direct | struct_name_unnamed | struct_name_anon.

(** The printed form of an unnamed tag starts with the keyword and the
    brace. *)
Definition get_struct_name_kind (cursor : CXCursor)
  : option struct_name_kind_t :=
  if negb (is_tag (cur_kind cursor)) then None
  else if cur_anonymous cursor then Some struct_name_anon
  else
    let name := cur_pretty cursor in
    let unnamed :=
      match cur_kind cursor with
      | CXCursor_StructDecl => strncmp_eq0 name "struct {" 8
      | CXCursor_UnionDecl => strncmp_eq0 name "union {" 7
      | _ => strncmp_eq0 name "enum {" 6
      end in
    Some (if unnamed then struct_name_unnamed else struct_name_direct).

(** [extract_struct_name]: the kind, and the name to store for a direct
    name. *)
Definition extract_struct_name (cursor : CXCursor)
  : option (struct_name_kind_t * option db_typename_t) :=
  match get_struct_name_kind cursor with
  | None => None
  | Some struct_name_direct =>
      Some (struct_name_direct,
            Some (mk_typename name_kind_direct 0
                    (dup_c_string (cur_spelling cursor))))
  | Some kind => Some (kind, None)
  end.

Definition index_struct_record (struct_decl : CXCursor)
  (sb : struct_scoreboard_t) : option struct_scoreboard_t :=
  let ct := clang_getCanonicalType (cur_type struct_decl) in
  if negb (type_is_indexable ct) then None
  else
    match get_clang_type ct, extract_struct struct_decl ct,
          extract_struct_name struct_decl with
    | Some type_id, Some entry0, Some (kind, name) =>
        let entry := mk_type_entry (te_kind entry0) true in
        match kind with
        | struct_name_anon =>
            match current_parent_stack sb with
            | [] => None
            | _ => Some sb
            end
        | _ =>
            let record :=
              mk_struct_pkg type_id entry
                (match name with Some n => n | None => zero_typename end)
                (sb_loc sb)
                (match kind with
                 | struct_name_direct => sb_loc sb
                 | _ => zero_loc
                 end) in
            let sb1 := set_new_types sb (new_types sb ++ [record]) in
            match kind with
            | struct_name_unnamed =>
                let new_index := Z.of_nat (List.length (new_types sb1)) in
                Some (set_unnamed_types sb1
                        (cf_map8_insert (unnamed_types sb1) type_id
                           (new_index - 1)))
            | _ => Some sb1
            end
        end
    | _, _, _ => None
    end.

Definition var_is_indexable (cursor : CXCursor) : bool :=
  type_is_indexable (clang_getCanonicalType (cur_type cursor)).

Definition typedef_is_indexable (cursor : CXCursor) : bool :=
  type_is_indexable (clang_getCanonicalType (cur_underlying cursor)).

Definition user_type_is_indexable (cursor : CXCursor) : option bool :=
  let ct := cur_type cursor in
  if negb (type_is_indexable ct) then None
  else Some (negb (ct_incomplete ct)).

Definition cursor_is_indexable (cursor : CXCursor) : option bool :=
  match cur_kind cursor with
  | CXCursor_StructDecl | CXCursor_UnionDecl | CXCursor_EnumDecl =>
      user_type_is_indexable cursor
  | CXCursor_TypedefDecl => Some (typedef_is_indexable cursor)
  | CXCursor_VarDecl => Some (var_is_indexable cursor)
  | _ => Some false
  end.

Definition build_member_record (cursor parent : CXCursor)
  (sb : struct_scoreboard_t) : option struct_scoreboard_t :=
  let parent_type := clang_getCanonicalType (cur_type parent) in
  let member_type := clang_getCanonicalType (cur_type cursor) in
  match (if type_is_indexable member_type then get_clang_type member_type
         else Some 0),
        get_clang_type parent_type with
  | Some member_clang_type, Some parent_id =>
      let record :=
        mk_member_pkg parent_id
          (mk_member parent_id member_clang_type
             (dup_c_string (cur_spelling cursor)))
          (sb_loc sb) in
      Some (set_sb_members sb (sb_members sb ++ [record]))
  | _, _ => None
  end.

Definition extract_member_typename (member_decl : CXCursor)
  : option db_typename_t :=
  match cur_kind member_decl with
  | CXCursor_FieldDecl =>
      Some (mk_typename name_kind_var 0
              (dup_c_string (cur_spelling member_decl)))
  | _ => None
  end.

(** [new_types[i]] replaced by [f new_types[i]]; [None] out of range. *)
Fixpoint update_pkg (l : list struct_pkg_t) (i : nat)
  (f : struct_pkg_t -> struct_pkg_t) : option (list struct_pkg_t) :=
  match l, i with
  | [], _ => None
  | pkg :: rest, O => Some (f pkg :: rest)
  | pkg :: rest, S i' =>
      match update_pkg rest i' f with
      | Some rest' => Some (pkg :: rest')
      | None => None
      end
  end.

Definition maybe_build_typename (cursor : CXCursor) (sb : struct_scoreboard_t)
  : option struct_scoreboard_t :=
  match cur_kind cursor with
  | CXCursor_FieldDecl =>
      match get_clang_type (clang_getCanonicalType (cur_type cursor)) with
      | None => None
      | Some clang_type_id =>
          match cf_map8_lookup (unnamed_types sb) clang_type_id with
          | None => Some sb
          | Some struct_index =>
              let sb1 :=
                set_unnamed_types sb
                  (cf_map8_remove (unnamed_types sb) clang_type_id) in
              match extract_member_typename cursor with
              | None => None
              | Some name =>
                  if struct_index <? 0 then None
                  else
                    match update_pkg (new_types sb1) (Z.to_nat struct_index)
                            (fun pkg =>
                               mk_struct_pkg (pkg_type_id pkg) (pkg_entry pkg)
                                 name (pkg_loc0 pkg) (sb_loc sb1)) with
                    | Some l => Some (set_new_types sb1 l)
                    | None => None
                    end
              end
          end
      end
  | _ => None
  end.

Definition build_member_type_use (cursor parent : CXCursor)
  (sb : struct_scoreboard_t) : option struct_scoreboard_t :=
  let clang_type := clang_getCanonicalType (cur_type cursor) in
  let parent_type := clang_getCanonicalType (cur_type parent) in
  if negb (var_is_indexable cursor) then Some sb
  else
    match get_clang_type parent_type, get_clang_type clang_type with
    | Some where_, Some base =>
        let entry :=
          mk_type_use_pkg where_ (mk_type_use base type_use_decl) (sb_loc sb) in
        Some (set_sb_type_uses sb (sb_type_uses sb ++ [entry]))
    | _, _ => None
    end.

Definition index_member (cursor parent : CXCursor) (sb : struct_scoreboard_t)
  : option struct_scoreboard_t :=
  match cur_kind cursor with
  | CXCursor_EnumConstantDecl => Some sb
  | CXCursor_FieldDecl =>
      match build_member_record cursor parent sb with
      | None => None
      | Some sb1 =>
          match maybe_build_typename cursor sb1 with
          | None => None
          | Some sb2 => build_member_type_use cursor parent sb2
          end
      end
  | _ => None
  end.

Definition index_type_children_cb2 (cursor : CXCursor)
  (sb : struct_scoreboard_t)
  : option (CXChildVisitResult * struct_scoreboard_t) :=
  match cur_kind cursor with
  | CXCursor_StructDecl | CXCursor_UnionDecl =>
      match index_struct_record cursor sb with
      | Some sb' => Some (CXChildVisit_Recurse, sb')
      | None => None
      end
  | CXCursor_FieldDecl =>
      match cursor_stack_top (current_parent_stack sb) with
      | None => None
      | Some parent_type =>
          match index_member cursor parent_type sb with
          | Some sb' => Some (CXChildVisit_Continue, sb')
          | None => None
          end
      end
  | _ => Some (CXChildVisit_Continue, sb)
  end.

Section Index.
Context {DB : Type} {store : Store DB}.

Definition update_location (ctx : index_ctx_t DB) (cursor : CXCursor)
  : index_ctx_t DB :=
  match file_map_lookup (file_map ctx) (cur_file cursor) with
  | None => ctx
  | Some file_ref =>
      set_ctx_loc ctx
        (mk_loc file_ref (loc_func (ctx_loc ctx)) (loc_scope (ctx_loc ctx))
           (cur_line cursor) (cur_column cursor))
  end.

(** [iterate_children_cb], on a state [S] that holds the path, a visitor
    [cb] and a finalizer [final].  The [while] loop pops the path until
    its top is [parent], calling [final] on every popped cursor; the
    finalizers of cf_index.c leave the path alone. *)
Section IterateChildren.
Variable S : Type.
Variable get_path : S -> ast_path_t.
Variable set_path : S -> ast_path_t -> S.
Variable cb : ast -> CXCursor -> S -> option (CXChildVisitResult * S).
Variable final : CXCursor -> S -> S.

Fixpoint ascend (stack : cursor_stack_t) (parent : CXCursor) (st : S)
  : option S :=
  match stack with
  | [] => None
  | top :: rest =>
      if clang_equalCursors top parent then Some st
      else
        let st1 := final top st in
        ascend rest parent
          (set_path st1 (mk_path rest (count (get_path st1))))
  end.

Definition iterate_children_cb (node : ast) (parent : CXCursor) (st : S)
  : option (CXChildVisitResult * S) :=
  let st0 :=
    set_path st (mk_path (parent_stack (get_path st))
                   (wrap32 (count (get_path st) + 1))) in
  match ascend (parent_stack (get_path st0)) parent st0 with
  | None => None
  | Some st1 =>
      match cb node parent st1 with
      | None => None
      | Some (CXChildVisit_Recurse, st2) =>
          Some (CXChildVisit_Recurse,
                set_path st2
                  (mk_path (cursor_stack_descend
                              (parent_stack (get_path st2))
                              (ast_cursor node))
                     (count (get_path st2))))
      | Some (ret, st2) => Some (ret, st2)
      end
  end.

Definition iterate_children (root : ast) (st : S) : option S :=
  match root with
  | Node root_cursor children =>
      let st0 :=
        set_path st
          (mk_path (cursor_stack_descend (parent_stack (get_path st))
                      root_cursor)
             (count (get_path st))) in
      match clang_visitChildren iterate_children_cb root_cursor children
              st0 with
      | None => None
      | Some st1 =>
          match parent_stack (get_path st1) with
          | [] => None
          | _ :: rest =>
              Some (set_path st1 (mk_path rest (count (get_path st1))))
          end
      end
  end.
End IterateChildren.

Definition get_sb_path (ctx : index_ctx_t DB) : ast_path_t :=
  sb_path (struct_sb ctx).
Definition put_sb_path (ctx : index_ctx_t DB) (p : ast_path_t)
  : index_ctx_t DB :=
  set_struct_sb ctx (set_sb_path (struct_sb ctx) p).

Definition index_type_children_cb (node : ast) (parent : CXCursor)
  (ctx : index_ctx_t DB) : option (CXChildVisitResult * index_ctx_t DB) :=
  let cursor := ast_cursor node in
  let ctx1 := update_location ctx cursor in
  let sb1 := set_sb_loc (struct_sb ctx1) (ctx_loc ctx1) in
  match index_type_children_cb2 cursor sb1 with
  | None => None
  | Some (ret, sb2) =>
      let cursor_type := cur_type cursor in
      let new_parent :=
        match ct_kind cursor_type with
        | CXType_Invalid => false
        | _ => type_is_indexable cursor_type
        end
        && negb (cur_anonymous cursor) in
      let sb3 :=
        match ret with
        | CXChildVisit_Recurse =>
            if new_parent
            then set_current_parent_stack sb2
                   (cursor_stack_descend (current_parent_stack sb2) cursor)
            else sb2
        | CXChildVisit_Continue => sb2
        end in
      Some (ret, set_struct_sb ctx1 sb3)
  end.

(** [index_struct_finalizer]; of its argument structure only the
    scoreboard of the context is used. *)
Definition index_struct_finalizer (cursor : CXCursor) (ctx : index_ctx_t DB)
  : index_ctx_t DB :=
  let sb := struct_sb ctx in
  match current_parent_stack sb with
  | [] => ctx
  | top :: rest =>
      if clang_equalCursors cursor top
      then set_struct_sb ctx (set_current_parent_stack sb rest)
      else ctx
  end.

Definition nop (parent : CXCursor) (ctx : index_ctx_t DB) : index_ctx_t DB :=
  ctx.

Definition index_struct_children (struct_cursor : ast) (ctx : index_ctx_t DB)
  : option (index_ctx_t DB) :=
  match struct_cursor with
  | Node cursor _ =>
      let sb := struct_sb ctx in
      let ctx1 :=
        set_struct_sb ctx
          (set_current_parent_stack sb (cursor :: current_parent_stack sb)) in
      iterate_children get_sb_path put_sb_path index_type_children_cb
        index_struct_finalizer struct_cursor ctx1
  end.

(** What [iterate_children] hands to [clang_visitChildren] for the
    children of a record. *)
Definition index_struct_visitor
  : ast -> CXCursor -> index_ctx_t DB
    -> option (CXChildVisitResult * index_ctx_t DB) :=
  iterate_children_cb get_sb_path put_sb_path index_type_children_cb
    index_struct_finalizer.

Definition commit_one_struct (pkg : struct_pkg_t) (new_type_map : cf_map8_t)
  (ctx : index_ctx_t DB) : option (res unit * cf_map8_t * index_ctx_t DB) :=
  match cf_db_typename_lookup (ctx_db ctx) (pkg_loc1 pkg) (pkg_name pkg) with
  | Ok struct_ref =>
      (* preexists, mutate old type map *)
      match type_map_insert (type_map ctx) (pkg_type_id pkg) struct_ref with
      | Some m => Some (Ok tt, new_type_map, set_type_map ctx m)
      | None => None
      end
  | Trap => None
  | Err e =>
      if negb (errno_eqb e ENOENT) then Some (Err e, new_type_map, ctx)
      else
        match cf_db_type_insert (ctx_db ctx) (pkg_loc0 pkg) (pkg_entry pkg) with
        | (Ok struct_ref, db1) =>
            let name :=
              mk_typename (tn_kind (pkg_name pkg)) struct_ref
                (tn_name (pkg_name pkg)) in
            match cf_db_typename_insert db1 (pkg_loc1 pkg) name with
            | (Ok _, db2) =>
                match type_map_insert new_type_map (pkg_type_id pkg)
                        struct_ref with
                | Some m => Some (Ok tt, m, set_ctx_db ctx db2)
                | None => None
                end
            | (Err e2, db2) => Some (Err e2, new_type_map, set_ctx_db ctx db2)
            | (Trap, _) => None
            end
        | (Err e1, db1) => Some (Err e1, new_type_map, set_ctx_db ctx db1)
        | (Trap, _) => None
        end
  end.

Definition commit_one_member (pkg : member_pkg_t) (ctx : index_ctx_t DB)
  : option (index_ctx_t DB) :=
  if mb_parent (mp_entry pkg) =? 0 then None
  else
    match cf_db_member_insert (ctx_db ctx) (mp_loc pkg) (mp_entry pkg) with
    | (Trap, _) => None
    | (_, db') => Some (set_ctx_db ctx db')
    end.

Definition commit_one_type_use (pkg : type_use_pkg_t) (ctx : index_ctx_t DB)
  : option (index_ctx_t DB) :=
  if tu_base_type (up_entry pkg) =? 0 then None
  else if tu_kind (up_entry pkg) =? 0 then None
  else
    match cf_db_type_use_insert (ctx_db ctx) (up_loc pkg) (up_entry pkg) with
    | (Trap, _) => None
    | (_, db') => Some (set_ctx_db ctx db')
    end.

(** The loops of [commit_struct_scoreboard]. *)
Fixpoint commit_new_types (unnamed : cf_map8_t) (pkgs : list struct_pkg_t)
  (new_type_map : cf_map8_t) (ctx : index_ctx_t DB)
  : option (cf_map8_t * index_ctx_t DB) :=
  match pkgs with
  | [] => Some (new_type_map, ctx)
  | pkg :: rest =>
      if pkg_type_id pkg =? 0 then None
      else
        match cf_map8_lookup unnamed (pkg_type_id pkg) with
        | Some _ => commit_new_types unnamed rest new_type_map ctx
        | None =>
            match commit_one_struct pkg new_type_map ctx with
            | Some (_, new_type_map', ctx') =>
                commit_new_types unnamed rest new_type_map' ctx'
            | None => None
            end
        end
  end.

Fixpoint commit_members (new_type_map : cf_map8_t)
  (pkgs : list member_pkg_t) (ctx : index_ctx_t DB)
  : option (index_ctx_t DB) :=
  match pkgs with
  | [] => Some ctx
  | pkg :: rest =>
      match translate_struct_type new_type_map (mp_parent pkg) with
      | None => commit_members new_type_map rest ctx
      | Some parent =>
          match translate_member_type (type_map ctx) new_type_map
                  (mb_base_type (mp_entry pkg)) with
          | None => commit_members new_type_map rest ctx
          | Some base =>
              let pkg' :=
                mk_member_pkg (mp_parent pkg)
                  (mk_member parent base (mb_name (mp_entry pkg)))
                  (mp_loc pkg) in
              match commit_one_member pkg' ctx with
              | Some ctx' => commit_members new_type_map rest ctx'
              | None => None
              end
          end
      end
  end.

Fixpoint commit_type_uses (new_type_map : cf_map8_t)
  (pkgs : list type_use_pkg_t) (ctx : index_ctx_t DB)
  : option (index_ctx_t DB) :=
  match pkgs with
  | [] => Some ctx
  | pkg :: rest =>
      match translate_struct_type new_type_map (up_where pkg) with
      | None => commit_type_uses new_type_map rest ctx
      | Some _ =>
          match translate_member_type new_type_map (type_map ctx)
                  (tu_base_type (up_entry pkg)) with
          | None => commit_type_uses new_type_map rest ctx
          | Some base =>
              let pkg' :=
                mk_type_use_pkg (up_where pkg)
                  (mk_type_use base (tu_kind (up_entry pkg))) (up_loc pkg) in
              match commit_one_type_use pkg' ctx with
              | Some ctx' => commit_type_uses new_type_map rest ctx'
              | None => None
              end
          end
      end
  end.

Fixpoint merge_type_map (entries : cf_map8_t) (map : cf_map8_t)
  : option cf_map8_t :=
  match entries with
  | [] => Some map
  | (key, value) :: rest =>
      match type_map_insert map key value with
      | Some map' => merge_type_map rest map'
      | None => None
      end
  end.

(** The scratch map [new_type_map] once the loop over [new_types] is
    done, with the context at that point. *)
Definition commit_scratch (sb : struct_scoreboard_t) (ctx : index_ctx_t DB)
  : option (cf_map8_t * index_ctx_t DB) :=
  commit_new_types (unnamed_types sb) (new_types sb) [] ctx.

(** [commit_struct_scoreboard]; the staged records are rewritten in
    place while they are committed, and dropped by the reset that every
    caller does next, so only the context is returned. *)
Definition commit_struct_scoreboard (sb : struct_scoreboard_t)
  (ctx : index_ctx_t DB) : option (index_ctx_t DB) :=
  match commit_scratch sb ctx with
  | None => None
  | Some (new_type_map, ctx1) =>
      match commit_members new_type_map (sb_members sb) ctx1 with
      | None => None
      | Some ctx2 =>
          match commit_type_uses new_type_map (sb_type_uses sb) ctx2 with
          | None => None
          | Some ctx3 =>
              match merge_type_map new_type_map (type_map ctx3) with
              | Some m => Some (set_type_map ctx3 m)
              | None => None
              end
          end
      end
  end.

Definition struct_scoreboard_add_name (cursor : CXCursor)
  (sb : struct_scoreboard_t) (loc : loc_ctx_t)
  : option (res unit * struct_scoreboard_t) :=
  match new_types sb with
  | [] => None
  | entry :: rest =>
      match cf_map8_lookup (unnamed_types sb) (pkg_type_id entry) with
      | None => None
      | Some index =>
          if negb (index =? 0) then None
          else
            match
              match cur_kind cursor with
              | CXCursor_VarDecl => Some name_kind_var
              | CXCursor_TypedefDecl => Some name_kind_typedef
              | _ => None
              end
            with
            | None => Some (Err EILSEQ, sb)
            | Some name_kind =>
                let name_entry :=
                  mk_typename name_kind 0
                    (dup_c_string (cur_spelling cursor)) in
                let entry' :=
                  mk_struct_pkg (pkg_type_id entry) (pkg_entry entry)
                    name_entry (pkg_loc0 entry) loc in
                let sb1 := set_new_types sb (entry' :: rest) in
                Some (Ok tt,
                      set_unnamed_types sb1
                        (cf_map8_remove (unnamed_types sb1)
                           (pkg_type_id entry)))
            end
      end
  end.

Definition special_index_struct_name (cursor : CXCursor)
  (ctx : index_ctx_t DB) : option (bool * index_ctx_t DB) :=
  if last_struct ctx =? 0 then None
  else
    match
      match cur_kind cursor with
      | CXCursor_VarDecl =>
          Some (get_clang_type (clang_getCanonicalType (cur_type cursor)))
      | CXCursor_TypedefDecl =>
          Some (get_clang_type
                  (clang_getCanonicalType (cur_underlying cursor)))
      | _ => None
      end
    with
    | None => Some (false, ctx)
    | Some None => None
    | Some (Some cursor_type) =>
        if negb (last_struct ctx =? cursor_type) then Some (false, ctx)
        else
          match struct_scoreboard_add_name cursor (struct_sb ctx)
                  (ctx_loc ctx) with
          | None => None
          | Some (_, sb') => Some (true, set_struct_sb ctx sb')
          end
    end.

Definition index_typedef (cursor : CXCursor) (ctx : index_ctx_t DB)
  : option (index_ctx_t DB) :=
  let old_type := clang_getCanonicalType (cur_underlying cursor) in
  match get_clang_type old_type with
  | None => None
  | Some ct =>
      match type_map_lookup2 (type_map ctx) ct with
      | None => Some ctx
      | Some old_ref =>
          let record :=
            mk_typename name_kind_typedef old_ref
              (cf_str_borrow (cur_typedef_name cursor)) in
          match cf_db_typename_lookup (ctx_db ctx) (ctx_loc ctx) record with
          | Ok _ => Some ctx
          | Trap => None
          | Err e =>
              if negb (errno_eqb e ENOENT) then Some ctx
              else
                match cf_db_typename_insert (ctx_db ctx) (ctx_loc ctx)
                        record with
                | (Trap, _) => None
                | (_, db') => Some (set_ctx_db ctx db')
                end
          end
      end
  end.

Definition index_struct (cursor : ast) (ctx : index_ctx_t DB)
  : option (bool * index_ctx_t DB) :=
  match cursor with
  | Node c _ =>
      match new_types (struct_sb ctx) with
      | _ :: _ => None
      | [] =>
          let cursor_type := clang_getCanonicalType (cur_type c) in
          match get_clang_type cursor_type with
          | None => None
          | Some type_id =>
              if negb (type_is_indexable cursor_type) then None
              else
                let sb0 := set_sb_loc (struct_sb ctx) (ctx_loc ctx) in
                match index_struct_record c sb0 with
                | None => None
                | Some sb1 =>
                    match index_struct_children cursor
                            (set_struct_sb ctx sb1) with
                    | None => None
                    | Some ctx1 =>
                        match new_types (struct_sb ctx1) with
                        | [] => None
                        | first :: _ =>
                            if negb (pkg_type_id first =? type_id) then None
                            else
                              match cf_map8_lookup
                                      (unnamed_types (struct_sb ctx1))
                                      type_id with
                              | Some index =>
                                  if negb (index =? 0) then None
                                  else Some (true, ctx1)
                              | None =>
                                  match commit_struct_scoreboard
                                          (struct_sb ctx1) ctx1 with
                                  | None => None
                                  | Some ctx2 =>
                                      Some (false,
                                            set_struct_sb ctx2
                                              (reset_struct_scoreboard
                                                 (struct_sb ctx2)))
                                  end
                              end
                        end
                    end
                end
          end
      end
  end.

(** [index_ast_node]; the subtree of [cursor] is at hand for
    [index_struct], which visits the children itself. *)
Definition index_ast_node (node : ast) (parent : CXCursor)
  (ctx : index_ctx_t DB) : option (CXChildVisitResult * index_ctx_t DB) :=
  match node with
  | Node cursor _ =>
      match cursor_is_indexable cursor with
      | None => None
      | Some false => Some (CXChildVisit_Continue, ctx)
      | Some true =>
          let ctx1 := update_location ctx cursor in
          let need_name := negb (last_struct ctx1 =? 0) in
          match
            (if need_name then
               match special_index_struct_name cursor ctx1 with
               | None => None
               | Some (skip, ctx2) =>
                   match commit_struct_scoreboard (struct_sb ctx2) ctx2 with
                   | None => None
                   | Some ctx3 =>
                       Some (skip,
                             set_last_struct
                               (set_struct_sb ctx3
                                  (reset_struct_scoreboard (struct_sb ctx3)))
                               0)
                   end
               end
             else Some (false, ctx1))
          with
          | None => None
          | Some (true, ctx4) => Some (CXChildVisit_Continue, ctx4)
          | Some (false, ctx4) =>
              match cur_kind cursor with
              | CXCursor_StructDecl | CXCursor_UnionDecl
              | CXCursor_EnumDecl =>
                  match index_struct node ctx4 with
                  | None => None
                  | Some (true, ctx5) =>
                      match get_clang_type (cur_type cursor) with
                      | None => None
                      | Some t =>
                          Some (CXChildVisit_Continue, set_last_struct ctx5 t)
                      end
                  | Some (false, ctx5) => Some (CXChildVisit_Continue, ctx5)
                  end
              | CXCursor_TypedefDecl =>
                  match index_typedef cursor ctx4 with
                  | None => None
                  | Some ctx5 => Some (CXChildVisit_Recurse, ctx5)
                  end
              | _ => Some (CXChildVisit_Recurse, ctx4)
              end
          end
      end
  end.

(** [index_tu] on the root cursor of a translation unit. *)
Definition index_tu (root : ast) (ctx : index_ctx_t DB)
  : option (index_ctx_t DB) :=
  iterate_children ctx_path set_ctx_path index_ast_node nop root ctx.
End Index.

(** [make_index_ctx] around an opened store. *)
Definition make_index_ctx {DB : Type} (db : DB) : index_ctx_t DB :=
  mk_ctx db [] [] make_ast_path zero_loc make_struct_scoreboard 0.

(* ------------------------------------------------------------------ *)
(** ** Record bodies and staged records *)

(** A member declaration of the plain kind, inside the record of type
    [tid] and below the records with the cursors [anc]: a field whose
    canonical type is no record and no enumeration, or a C11 anonymous
    struct or union of such members.  No anonymous record has the cursor
    of a record around it, and no field has the type of the outermost
    record. *)
Fixpoint plain_member (tid : clang_type_t) (anc : list Z) (n : ast) : bool :=
  match n with
  | Node c kids =>
      match cur_kind c with
      | CXCursor_FieldDecl =>
          match ct_canonical_kind (cur_type c) with
          | CXType_OtherKind => negb (ct_data (cur_type c) =? tid)
          | _ => false
          end
      | CXCursor_StructDecl | CXCursor_UnionDecl =>
          cur_anonymous c
          && type_is_indexable (clang_getCanonicalType (cur_type c))
          && negb (existsb (Z.eqb (cur_id c)) anc)
          && forallb (plain_member tid (cur_id c :: anc)) kids
      | _ => false
      end
  end.

(** The fields of a member declaration, those of nested records
    included, in the order of the source. *)
Fixpoint promoted_fields (n : ast) : list CXCursor :=
  match n with
  | Node c kids =>
      match cur_kind c with
      | CXCursor_FieldDecl => [c]
      | _ => flat_map promoted_fields kids
      end
  end.

(** The context [ctx] with the parts that the visit of plain members
    works on set anew: the path of the scoreboard, the two locations
    and the staged members. *)
Definition children_state {DB : Type} (ctx : index_ctx_t DB)
  (stack : cursor_stack_t) (cnt : Z) (loc sloc : loc_ctx_t)
  (mems : list member_pkg_t) : index_ctx_t DB :=
  mk_ctx (ctx_db ctx) (file_map ctx) (type_map ctx) (ctx_path ctx) loc
    (mk_sb (mk_path stack cnt) (current_parent_stack (struct_sb ctx)) sloc
       (new_types (struct_sb ctx)) mems (sb_type_uses (struct_sb ctx))
       (unnamed_types (struct_sb ctx)))
    (last_struct ctx).

(** [id -> ref] comes from a staged record [pkg] with a name, for which
    in some context the look-up of the name found nothing and the two
    inserts went through, the first one answering [ref]. *)
Definition newly_persisted {DB : Type} {store : Store DB}
  (unnamed : cf_map8_t) (pkgs : list struct_pkg_t) (id : clang_type_t)
  (ref : type_ref_t) : Prop :=
  exists pkg (ctxi : index_ctx_t DB) db1 db2,
    In pkg pkgs /\ pkg_type_id pkg = id
    /\ cf_map8_lookup unnamed id = None
    /\ cf_db_typename_lookup (ctx_db ctxi) (pkg_loc1 pkg) (pkg_name pkg)
       = Err ENOENT
    /\ cf_db_type_insert (ctx_db ctxi) (pkg_loc0 pkg) (pkg_entry pkg)
       = (Ok ref, db1)
    /\ cf_db_typename_insert db1 (pkg_loc1 pkg)
         (mk_typename (tn_kind (pkg_name pkg)) ref (tn_name (pkg_name pkg)))
       = (Ok tt, db2).

(** The staged members and uses whose enclosing record is a key of
    [new_type_map]. *)
Definition enclosing_is_new (new_type_map : cf_map8_t) (id : clang_type_t)
  : bool :=
  match translate_struct_type new_type_map id with
  | Some _ => true
  | None => false
  end.

Definition keep_enclosed (new_type_map : cf_map8_t)
  (sb : struct_scoreboard_t) : struct_scoreboard_t :=
  set_sb_type_uses
    (set_sb_members sb
       (filter (fun pkg => enclosing_is_new new_type_map (mp_parent pkg))
          (sb_members sb)))
    (filter (fun pkg => enclosing_is_new new_type_map (up_where pkg))
       (sb_type_uses sb)).

(* ------------------------------------------------------------------ *)
(** ** Translation units and scoreboards used as inputs *)

(** The in-memory store just opened, on a heap that grants every
    request. *)
Definition mem_store_open : mem_store_t := (mem_db_open, []).

Definition record_type (p : clang_type_t) : CXType :=
  mk_CXType CXType_Record CXType_Record p false.
Definition int_type : CXType :=
  mk_CXType CXType_OtherKind CXType_OtherKind 7 false.
Definition no_type : CXType :=
  mk_CXType CXType_Invalid CXType_Invalid 0 false.

(** A cursor of file 1, on the line of its number. *)
Definition decl_cursor (id : Z) (kind : CXCursorKind) (ty und : CXType)
  (anon : bool) (pretty spelling : string) : CXCursor :=
  mk_cursor id kind ty und anon pretty spelling spelling 1 id 1.

Definition int_field (id : Z) (name : string) : ast :=
  Node (decl_cursor id CXCursor_FieldDecl int_type no_type false name name)
    [].

Definition tu_root : CXCursor :=
  decl_cursor 0 CXCursor_OtherKind no_type no_type false "" "".




(** A scoreboard with the record 100 under the name [R], a member of
    it, and a member of a record 999 that is not staged. *)
Definition staged_two_members : struct_scoreboard_t :=
  mk_sb make_ast_path [] zero_loc
    [mk_struct_pkg 100 (mk_type_entry type_kind_struct true)
       (mk_typename name_kind_direct 0 (mk_str "R" false)) zero_loc zero_loc]
    [mk_member_pkg 100 (mk_member 100 0 (mk_str "a" false)) zero_loc;
     mk_member_pkg 999 (mk_member 999 0 (mk_str "z" false)) zero_loc]
    [] [].

(* ------------------------------------------------------------------ *)
(** ** token.c

    The pointers [cur] and [end] of an iterator are offsets into the
    bytes of its string; [cur] is NULL until a token has been found. *)

Definition is_delim (c : ascii) : bool :=
  Ascii.eqb c " " || Ascii.eqb c (ascii_of_nat 9).

Record cf_tok_iter_t : Type := mk_tok_iter {
  ti_str : cf_str_t;
  ti_cur : option nat;
  ti_end : nat
}.

Definition tok_iter_make (s : cf_str_t) : cf_tok_iter_t :=
  mk_tok_iter (cf_str_borrow_str s) None 0.

(** The bytes of [s] from offset [n] on. *)
Fixpoint string_drop (n : nat) (s : string) : string :=
  match n, s with
  | O, _ => s
  | S n', String _ rest => string_drop n' rest
  | S _, EmptyString => EmptyString
  end.

(** The two scanning loops of [tok_iter_next]: how far the pointer
    moves over delimiters, and over bytes that are none. *)
Fixpoint scan_delims (s : string) : nat :=
  match s with
  | String c rest => if is_delim c then S (scan_delims rest) else O
  | EmptyString => O
  end.

Fixpoint scan_token (s : string) : nat :=
  match s with
  | String c rest => if is_delim c then O else S (scan_token rest)
  | EmptyString => O
  end.

(** [tok_iter_next]; [Trap] is the assertion on the byte at [cur]. *)
Definition tok_iter_next (iter : cf_tok_iter_t) : res bool * cf_tok_iter_t :=
  let s := str (ti_str iter) in
  let real_end := String.length s in
  (* handle first call setup *)
  let end0 := match ti_cur iter with None => O | Some _ => ti_end iter end in
  let iter0 := mk_tok_iter (ti_str iter) (ti_cur iter) end0 in
  let cur := (end0 + scan_delims (string_drop end0 s))%nat in
  if (cur =? real_end)%nat then (Ok false, iter0)
  else
    match String.get cur s with
    | None => (Trap, iter0)
    | Some c =>
        if is_delim c then (Trap, iter0)
        else
          let end1 := (cur + 1 + scan_token (string_drop (cur + 1) s))%nat in
          (Ok true, mk_tok_iter (ti_str iter) (Some cur) end1)
    end.

(** [tok_iter_peek]: the assertion [end > cur], then [cf_str_borrow]
    with its assertion on the length.  Before the first token [cur] is
    NULL and nothing can be borrowed. *)
Definition tok_iter_peek (iter : cf_tok_iter_t) : res cf_str_t :=
  match ti_cur iter with
  | None => Trap
  | Some cur =>
      if (ti_end iter <=? cur)%nat then Trap
      else
        let len := (ti_end iter - cur)%nat in
        if Z.of_nat len >? CF_STR_MAX_LEN then Trap
        else Ok (cf_str_borrow (substring cur len (str (ti_str iter))))
  end.

(** A run of the iterator: [tok_iter_next] until it answers false, with
    [tok_iter_peek] after every true, collecting the tokens; [None]
    when [fuel] calls of [tok_iter_next] did not reach the end.  Every
    token takes at least one byte, so the length of the string bounds
    the number of rounds. *)
Fixpoint tok_iter_collect (fuel : nat) (iter : cf_tok_iter_t)
  : option (res (list cf_str_t)) :=
  match fuel with
  | O => None
  | S fuel' =>
      match tok_iter_next iter with
      | (Ok true, iter') =>
          match tok_iter_peek iter' with
          | Ok tok =>
              match tok_iter_collect fuel' iter' with
              | Some (Ok l) => Some (Ok (tok :: l))
              | other => other
              end
          | Err e => Some (Err e)
          | Trap => Some Trap
          end
      | (Ok false, _) => Some (Ok [])
      | (Err e, _) => Some (Err e)
      | (Trap, _) => Some Trap
      end
  end.

Definition tokens (s : cf_str_t) : option (res (list cf_str_t)) :=
  tok_iter_collect (S (String.length (str s))) (tok_iter_make s).

(* ------------------------------------------------------------------ *)
(** ** parse.c: commands *)

Inductive search_kind_t : Type :=
| search_type_decl | search_typename | search_member_decl.

(** [search_cmd_t]: the kind with the member of [arg] it selects. *)
Inductive search_cmd_t : Type :=
| cmd_type_decl (type : type_search_t)
| cmd_typename (name : name_spec_t)
| cmd_member_decl (base : type_search_t) (name : cf_str_t).

Definition litcmp (lit : string) (s2 : cf_str_t) : bool :=
  if negb (Z.of_nat (String.length lit) =? cf_str_len s2) then false
  else memcmp_eq0 lit (str s2).

Definition command_string2kind (s : cf_str_t) : option search_kind_t :=
  if litcmp "td" s || litcmp "typedecl" s then Some search_type_decl
  else if litcmp "tn" s || litcmp "typename" s then Some search_typename
  else if litcmp "md" s || litcmp "memberdecl" s then Some search_member_decl
  else None.

Definition str2elab (s : cf_str_t) : name_elab_t :=
  if litcmp "struct" s then name_struct
  else if litcmp "union" s then name_union
  else if litcmp "enum" s then name_enum
  else name_none.

(** [parse_name_spec2]: the error code, what [*out] holds on return,
    and the iterator. *)
Definition parse_name_spec2 (tok : cf_str_t) (iter : cf_tok_iter_t)
  : res unit * name_spec_t * cf_tok_iter_t :=
  let kind := str2elab tok in
  if name_elab_eqb kind name_none
  then (Ok tt, mk_name_spec kind (cf_str_borrow_str tok), iter)
  else
    match tok_iter_next iter with
    | (Ok true, iter') =>
        match tok_iter_peek iter' with
        | Ok name => (Ok tt, mk_name_spec kind name, iter')
        | Err e => (Err e, mk_name_spec kind cf_str_null, iter')
        | Trap => (Trap, mk_name_spec kind cf_str_null, iter')
        end
    | (Ok false, iter') => (Err EINVAL, mk_name_spec kind cf_str_null, iter')
    | (Err e, iter') => (Err e, mk_name_spec kind cf_str_null, iter')
    | (Trap, iter') => (Trap, mk_name_spec kind cf_str_null, iter')
    end.

Definition parse_name_spec1 (iter : cf_tok_iter_t)
  : res name_spec_t * cf_tok_iter_t :=
  match tok_iter_next iter with
  | (Ok true, iter1) =>
      match tok_iter_peek iter1 with
      | Ok tok =>
          match parse_name_spec2 tok iter1 with
          | (Ok _, out, iter2) => (Ok out, iter2)
          | (Err e, _, iter2) => (Err e, iter2)
          | (Trap, _, iter2) => (Trap, iter2)
          end
      | Err e => (Err e, iter1)
      | Trap => (Trap, iter1)
      end
  | (Ok false, iter1) => (Err ENOENT, iter1)
  | (Err e, iter1) => (Err e, iter1)
  | (Trap, iter1) => (Trap, iter1)
  end.

(** [parse_type_search]; the result of [parse_name_spec2] is not looked
    at. *)
Definition parse_type_search (iter : cf_tok_iter_t)
  : res type_search_t * cf_tok_iter_t :=
  match tok_iter_next iter with
  | (Ok true, iter1) =>
      match tok_iter_peek iter1 with
      | Ok tok =>
          match String.get 0 (str tok) with
          | None => (Trap, iter1)
          | Some c =>
              if is_digit c then
                match str2uint64 tok with
                | None => (Err EINVAL, iter1)
                | Some id =>
                    if id >? INT64_MAX then (Err ERANGE, iter1)
                    else (Ok (search_id (to_int64 id)), iter1)
                end
              else
                match parse_name_spec2 tok iter1 with
                | (Trap, _, iter2) => (Trap, iter2)
                | (_, out, iter2) => (Ok (search_name out), iter2)
                end
          end
      | Err e => (Err e, iter1)
      | Trap => (Trap, iter1)
      end
  | (Ok false, iter1) => (Err ENOENT, iter1)
  | (Err e, iter1) => (Err e, iter1)
  | (Trap, iter1) => (Trap, iter1)
  end.

Definition parse_typename_search (iter : cf_tok_iter_t)
  : res name_spec_t * cf_tok_iter_t :=
  parse_name_spec1 iter.

Definition parse_member_search (iter : cf_tok_iter_t)
  : res (type_search_t * cf_str_t) * cf_tok_iter_t :=
  match parse_type_search iter with
  | (Ok base, iter1) =>
      match tok_iter_next iter1 with
      | (Ok true, iter2) =>
          match tok_iter_peek iter2 with
          | Ok name => (Ok (base, name), iter2)
          | Err e => (Err e, iter2)
          | Trap => (Trap, iter2)
          end
      | (Ok false, iter2) => (Err ENOENT, iter2)
      | (Err e, iter2) => (Err e, iter2)
      | (Trap, iter2) => (Trap, iter2)
      end
  | (Err e, iter1) => (Err e, iter1)
  | (Trap, iter1) => (Trap, iter1)
  end.

Definition parse_command_verb (iter : cf_tok_iter_t)
  : res search_kind_t * cf_tok_iter_t :=
  match tok_iter_next iter with
  | (Ok true, iter1) =>
      match tok_iter_peek iter1 with
      | Ok tok =>
          match command_string2kind tok with
          | Some cmd => (Ok cmd, iter1)
          | None => (Err EINVAL, iter1)
          end
      | Err e => (Err e, iter1)
      | Trap => (Trap, iter1)
      end
  | (Ok false, iter1) => (Err ENOENT, iter1)
  | (Err e, iter1) => (Err e, iter1)
  | (Trap, iter1) => (Trap, iter1)
  end.

(** [parse_command]; the tokens left after the arguments are looked at
    for a message only. *)
Definition parse_command (cmd_str : cf_str_t) : res search_cmd_t :=
  let iter := tok_iter_make cmd_str in
  match parse_command_verb iter with
  | (Ok cmd, iter1) =>
      let '(r, iter2) :=
        match cmd with
        | search_type_decl =>
            match parse_type_search iter1 with
            | (Ok t, it) => (Ok (cmd_type_decl t), it)
            | (Err e, it) => (Err e, it)
            | (Trap, it) => (Trap, it)
            end
        | search_typename =>
            match parse_typename_search iter1 with
            | (Ok n, it) => (Ok (cmd_typename n), it)
            | (Err e, it) => (Err e, it)
            | (Trap, it) => (Trap, it)
            end
        | search_member_decl =>
            match parse_member_search iter1 with
            | (Ok (b, n), it) => (Ok (cmd_member_decl b n), it)
            | (Err e, it) => (Err e, it)
            | (Trap, it) => (Trap, it)
            end
        end in
      match r with
      | Ok out =>
          (* warn about unparsed tokens *)
          match tok_iter_next iter2 with
          | (Ok true, iter3) =>
              match tok_iter_peek iter3 with
              | Ok _ => Ok out
              | Err e => Err e
              | Trap => Trap
              end
          | (Ok false, _) => Ok out
          | (Err e, _) => Err e
          | (Trap, _) => Trap
          end
      | Err e => Err e
      | Trap => Trap
      end
  | (Err e, _) => Err e
  | (Trap, _) => Trap
  end.

(** The value of a string of decimal digits read after the value
    [acc]. *)
Fixpoint decimal_value (s : string) (acc : Z) : Z :=
  match s with
  | EmptyString => acc
  | String c rest =>
      decimal_value rest (acc * 10 + (Z.of_nat (nat_of_ascii c) - 48))
  end.

Fixpoint string_forallb (f : ascii -> bool) (s : string) : bool :=
  match s with
  | EmptyString => true
  | String c rest => f c && string_forallb f rest
  end.

(** A word: one byte or more, none of them a delimiter. *)
Definition is_word (w : string) : bool :=
  negb (String.eqb w EmptyString)
  && string_forallb (fun c => negb (is_delim c)) w.

(** A string of delimiters, and what can follow a token: the end of the
    string or a delimiter. *)
Definition is_blank (d : string) : bool := string_forallb is_delim d.

Definition ends_word (r : string) : bool :=
  match r with
  | EmptyString => true
  | String c _ => is_delim c
  end.

(** A command line laid out as words, each with the blank in front of
    it: the first blank may be empty, the others separate two words. *)
Fixpoint laid_out (l : list (string * string)) : string :=
  match l with
  | [] => EmptyString
  | (d, w) :: rest => d ++ w ++ laid_out rest
  end.

Fixpoint separated (l : list (string * string)) : bool :=
  match l with
  | [] => true
  | (d, w) :: rest =>
      is_blank d && negb (String.eqb d EmptyString) && is_word w
      && separated rest
  end.

Definition well_laid_out (l : list (string * string)) : bool :=
  match l with
  | [] => true
  | (d, w) :: rest => is_blank d && is_word w && separated rest
  end.

(** The iterator stands before the rest [r] of its string: the scan of
    the next [tok_iter_next] starts there.  The length of a [cf_str_t]
    is a 31-bit field. *)
Definition tok_iter_at (it : cf_tok_iter_t) (r : string) : Prop :=
  Z.of_nat (String.length (str (ti_str it))) <= CF_STR_MAX_LEN /\
  exists pre : string,
    str (ti_str it) = (pre ++ r)%string /\
    match ti_cur it with None => O | Some _ => ti_end it end
    = String.length pre.

(* ================================================================== *)
(** * Properties *)

Unset Implicit Arguments.


(* ------------------------------------------------------------------ *)
(** ** Machine integers, strings *)

Lemma wrap64_small (z : Z) : 0 <= z < 2 ^ 64 -> wrap64 z = z.
Proof. intros H. unfold wrap64. apply Z.mod_small. exact H. Qed.

Lemma to_int64_small (z : Z) : 0 <= z <= INT64_MAX -> to_int64 z = z.
Proof.
  intros H. unfold to_int64, INT64_MAX in *.
  rewrite wrap64_small by lia.
  destruct (z <=? 2 ^ 63 - 1) eqn:E; [reflexivity | apply Z.leb_gt in E; lia].
Qed.

Lemma cf_str_len_nonneg (s : cf_str_t) : 0 <= cf_str_len s.
Proof. unfold cf_str_len. lia. Qed.

(* ------------------------------------------------------------------ *)
(** ** parse.c *)

(** C10 (code_bug).  The token "18446744073709551616" is 2^64, which no
    [uint64_t] holds; [str2uint64] accepts it and yields 0: the
    multiplication by 10 is checked, the addition of the last digit
    wraps. *)
Theorem str2uint64_accepts_2_pow_64 :
  str2uint64 (cf_str_borrow "18446744073709551616") = Some 0.
Proof. vm_compute. reflexivity. Qed.

(* ------------------------------------------------------------------ *)
(** ** mem_db.c *)

(** C1 (code_bug).  On the in-memory back-end a look-up for the typedef
    name "foo" in file 1 succeeds on a store whose only row is the
    direct name "foo", and returns 0, the index of the typename row,
    where the row's base type is 5. *)
Theorem mem_db_typename_lookup_wrong_kind_found :
  vec_data (typenames mem_db_one_direct_foo)
    = [mk_typename name_kind_direct 5 (mk_str "foo" false)]
  /\ mem_db_typename_lookup mem_db_one_direct_foo (mk_loc 1 0 0 8 1)
       (mk_typename name_kind_typedef 0 (cf_str_borrow "foo")) = Ok 0.
Proof. split; vm_compute; reflexivity. Qed.

(** C7 (code_bug).  [mem_db_member_insert] on the empty store, with the
    two reservations granted and the copy of the name refused: the call
    returns ENOMEM, no member is stored, and the member locations have
    grown by one entry. *)
Theorem mem_db_member_insert_failure_grows_locs (uninit_loc : loc_ctx_t) :
  let '(r, db, _) :=
    mem_db_member_insert uninit_loc [true; true; false] mem_db_open
      (mk_loc 1 0 0 2 5) (mk_member 1 0 (cf_str_borrow "a")) in
  r = Err ENOMEM
  /\ cf_vec_len (members db) = 0
  /\ cf_vec_len (locs_member db) = 1.
Proof. vm_compute. repeat split; reflexivity. Qed.

Lemma mem_iter_scan_none key entries i :
  mem_db_typename_iter_scan key (cf_str_len key) entries i = None ->
  filter (mem_iter_match key) entries = [].
Proof.
  revert i. induction entries as [|a l IH]; intros i H; [reflexivity|].
  simpl in H |- *. unfold mem_iter_match at 1.
  destruct (cf_str_len (tn_name a) =? cf_str_len key); simpl in *; [|eauto].
  destruct (strncmp_eq0 _ _ _); simpl in *; [discriminate|eauto].
Qed.

Lemma mem_iter_scan_some key entries i j :
  mem_db_typename_iter_scan key (cf_str_len key) entries i = Some j ->
  exists n : nat,
    j = i + Z.of_nat n /\ (n < List.length entries)%nat
    /\ S (List.length (filter (mem_iter_match key) (skipn (S n) entries)))
       = List.length (filter (mem_iter_match key) entries).
Proof.
  revert i. induction entries as [|a l IH]; intros i H; [discriminate|].
  simpl in H. unfold mem_iter_match at 2. simpl filter.
  destruct (cf_str_len (tn_name a) =? cf_str_len key); simpl in *.
  - destruct (strncmp_eq0 _ _ _); simpl in *.
    + injection H as <-. exists 0%nat. simpl. repeat split; lia.
    + destruct (IH _ H) as (n & -> & Hn & Hc). exists (S n). repeat split; [lia|lia|exact Hc].
  - destruct (IH _ H) as (n & -> & Hn & Hc). exists (S n). repeat split; [lia|lia|exact Hc].
Qed.

Lemma wrap64_range z : 0 <= wrap64 z < 2 ^ 64.
Proof. unfold wrap64. apply Z.mod_pos_bound. lia. Qed.

Lemma mem_iter_next_false db it :
  mem_iter_left db it = 0%nat ->
  mem_db_typename_iter_next db it = (false, it).
Proof.
  unfold mem_iter_left, mem_db_typename_iter_next. intros H.
  destruct (mem_db_typename_iter_scan _ _ _ _) eqn:E; [|reflexivity].
  apply mem_iter_scan_some in E. destruct E as (n & _ & _ & Hc). rewrite H in Hc. discriminate.
Qed.




Lemma filter_length_le {A} (f : A -> bool) l : (List.length (filter f l) <= List.length l)%nat.
Proof. induction l; simpl; [lia|]. destruct (f a); simpl; lia. Qed.


(* ------------------------------------------------------------------ *)
(** ** sql_db.c: the typename-find cursor *)







(* ---------------- C6 ---------------- *)
Lemma sanitize_typename_false (name : db_typename_t) :
  fst (sanitize_typename name) = false <->
  (tn_kind name <> name_kind_direct /\ tn_kind name <> name_kind_typedef
   /\ tn_kind name <> name_kind_var)
  \/ ~ (0 < tn_base_type name < INT64_MAX)
  \/ cf_str_len (tn_name name) = 0.
Proof.
  unfold sanitize_typename, sanitize_typename_kind, sanitize_rowid, cf_str_is_null.
  destruct (tn_kind name =? name_kind_direct) eqn:K1;
  destruct (tn_kind name =? name_kind_typedef) eqn:K2;
  destruct (tn_kind name =? name_kind_var) eqn:K3;
  destruct (0 <? tn_base_type name) eqn:R1;
  destruct (tn_base_type name <? INT64_MAX) eqn:R2;
  destruct (cf_str_len (tn_name name) =? 0) eqn:N;
  cbn [orb andb negb fst];
  rewrite ?Z.eqb_eq, ?Z.eqb_neq, ?Z.ltb_lt, ?Z.ltb_ge in *;
  split; intros H; try reflexivity; try discriminate; try tauto; try lia.
Qed.

(** C6 (corrected), counterexample. *)
Lemma sql_cursor_stops_at_damaged_row :
  sql_typename_iter_collect (sql_iter_of damaged_then_sound) = Some []
  /\ sql_typename_iter_collect (sql_iter_of (tl damaged_then_sound))
     = Some [(mk_typename name_kind_direct 2 (cf_str_borrow "foo"),
              mk_loc 1 0 0 9 1)].
Proof. split; vm_compute; reflexivity. Qed.

Theorem sql_db_typename_iter_next_damaged_row
  (it : sqlite_db_typename_iter_t) (columns : list sql_value)
  (rest : list sql_step) (entry : db_typename_t) (loc : loc_ctx_t)
  (l2 : list log_level) :
  stmt_pending (sit_stmt it) = step_row columns :: rest ->
  iter_get_typename (mk_stmt rest columns) = (Ok (entry, loc), l2) ->
  fst (sanitize_typename entry) = false ->
  exists log : list log_level,
    sql_db_typename_iter_next it
    = (Ok false, mk_sql_iter (mk_stmt rest columns) entry loc,
       log ++ [print_corrupt])
    /\ sql_typename_iter_collect it = Some [].
Proof.
  intros Hp Hg Hs.
  assert (Hn : exists log, sql_db_typename_iter_next it
    = (Ok false, mk_sql_iter (mk_stmt rest columns) entry loc, log ++ [print_corrupt])).
  { unfold sql_db_typename_iter_next, iter_next_typename, query_step_one, sqlite3_step.
    rewrite Hp. rewrite Hg.
    destruct (sanitize_typename entry) as [ok l3]. cbn [fst] in Hs. subst ok.
    exists ([] ++ l2 ++ l3). rewrite <- !app_assoc. reflexivity. }
  destruct Hn as [log Hn]. exists log. split; [exact Hn|].
  unfold sql_typename_iter_collect. cbn [sql_typename_iter_collect_n].
  rewrite Hn. reflexivity.
Qed.

Lemma sql_db_typename_iter_next_damaged_row_witness :
  exists log : list log_level,
    sql_db_typename_iter_next (sql_iter_of damaged_then_sound)
    = (Ok false,
       mk_sql_iter
         (mk_stmt (tl damaged_then_sound)
            [sql_text "foo"; sql_integer 7; sql_integer 1; sql_integer 1;
             sql_integer 0; sql_integer 0; sql_integer 3; sql_integer 1])
         (mk_typename 7 1 (cf_str_borrow "foo")) (mk_loc 1 0 0 3 1),
       log ++ [print_corrupt])
    /\ sql_typename_iter_collect (sql_iter_of damaged_then_sound) = Some [].
Proof.
  apply (sql_db_typename_iter_next_damaged_row
           (sql_iter_of damaged_then_sound) _ _ _ _ [print_info]);
    vm_compute; reflexivity.
Defined.

(* ------------------------------------------------------------------ *)
(** ** sql_db.c: the file table *)

Lemma substring_all (s : string) : substring 0 (String.length s) s = s.
Proof. induction s; simpl; [reflexivity| rewrite IHs; reflexivity]. Qed.

Lemma select_rowid_column rest id :
  0 <= id <= INT64_MAX ->
  select_serial_row (mk_stmt rest [sql_integer id]) file_lookup_query_output_kinds
  = (Ok [uint64_val id], []).
Proof.
  intros H. unfold select_serial_row, file_lookup_query_output_kinds.
  cbn -[to_int64 wrap64 Z.ltb].
  rewrite (to_int64_small id H).
  rewrite wrap64_small by (unfold INT64_MAX in *; lia).
  destruct (id <? 0) eqn:E; [apply Z.ltb_lt in E; lia|]. reflexivity.
Qed.

Lemma lookup_file_found db path id p' rest :
  path <> "" ->
  0 < id <= INT64_MAX ->
  filter (fun r => String.eqb (snd r) path) (file_table db) = (id, p') :: rest ->
  lookup_file db path = Ok id.
Proof.
  intros Hne Hid Hf. unfold lookup_file.
  destruct path as [|c path]; [congruence|].
  cbn [String.length]. rewrite Nat2Z.inj_succ.
  destruct (Z.succ _ =? 0) eqn:E; [apply Z.eqb_eq in E; lia|].
  unfold exec_lookup_file_query, lookup_one_row, file_lookup_stmt. rewrite Hf.
  cbn [map fst]. unfold query_step_one, sqlite3_step. cbn [stmt_pending].
  rewrite select_rowid_column by lia.
  cbn [fst col nth get_uint64]. rewrite to_int64_small by lia. reflexivity.
Qed.

Lemma lookup_file_missing db path :
  path <> "" ->
  filter (fun r => String.eqb (snd r) path) (file_table db) = [] ->
  lookup_file db path = Err ENOENT.
Proof.
  intros Hne Hf. unfold lookup_file.
  destruct path as [|c path]; [congruence|].
  cbn [String.length]. rewrite Nat2Z.inj_succ.
  destruct (Z.succ _ =? 0) eqn:E; [apply Z.eqb_eq in E; lia|].
  unfold exec_lookup_file_query, lookup_one_row, file_lookup_stmt. rewrite Hf. reflexivity.
Qed.

Lemma last_rowid_bound t : rowids_ok t ->
  0 <= last_rowid t <= INT64_MAX /\ Forall (fun r => fst r <= last_rowid t) t.
Proof.
  intros H. destruct t as [|r t]; [simpl; unfold INT64_MAX; split; [lia|constructor]|].
  unfold last_rowid. inversion H as [|? ? Hr Ht]; subst. clear H.
  revert r Hr. induction Ht as [|x t Hx Ht IH]; intros r Hr.
  - simpl. split; [lia|]. constructor; [lia|constructor].
  - simpl. destruct (IH r Hr) as [IH1 IH2]. split; [lia|].
    inversion IH2 as [|? ? Ha Hb]; subst.
    constructor; [lia|]. constructor; [lia|].
    eapply Forall_impl; [|exact Hb]. simpl. intros. lia.
Qed.

Lemma fold_max_snoc (t : list (Z * string)) (M base : Z) (p : string) :
  Forall (fun r => fst r <= M) t -> base <= M + 1 ->
  fold_right (fun x acc => Z.max (fst x) acc) base (t ++ [(M + 1, p)]) = M + 1.
Proof.
  intros Ht Hbase. induction Ht as [|x t' Hx Ht IH]; simpl; [lia|].
  rewrite IH. lia.
Qed.

Lemma last_rowid_snoc t p : rowids_ok t ->
  last_rowid (t ++ [(last_rowid t + 1, p)]) = last_rowid t + 1.
Proof.
  intros H. destruct t as [|r t]; [reflexivity|].
  pose proof (last_rowid_bound _ H) as [_ Hb].
  inversion Hb as [|? ? Hr Hb']; subst.
  unfold last_rowid at 1. cbn [app].
  apply fold_max_snoc; [exact Hb'|lia].
Qed.

Lemma fold_max_lt (t : list (Z * string)) (B base : Z) :
  Forall (fun r => fst r < B) t -> base < B ->
  fold_right (fun x acc => Z.max (fst x) acc) base t < B.
Proof. intros Ht Hb. induction Ht; simpl; lia. Qed.

Lemma last_rowid_lt t :
  Forall (fun r => 0 < fst r < INT64_MAX) t -> last_rowid t < INT64_MAX.
Proof.
  intros H. destruct t as [|r t]; [simpl; unfold INT64_MAX; lia|].
  inversion H as [|? ? Hr Ht]; subst. unfold last_rowid.
  apply fold_max_lt; [|lia]. eapply Forall_impl; [|exact Ht]. simpl. intros. lia.
Qed.

Section AddFile.
Variable realpath : string -> res string.
Variable access : string -> option errno.

Lemma sql_db_add_file_found db path_ p id p' rest :
  readonly db = false ->
  Z.of_nat (String.length path_) < INT_MAX ->
  Z.of_nat (String.length path_) < buf_len db ->
  realpath (c_str path_) = Ok p ->
  access p = None ->
  c_str p = p -> p <> "" -> Z.of_nat (String.length p) <= buf_len db ->
  0 < id <= INT64_MAX ->
  sql_file_entries db p = (id, p') :: rest ->
  sql_db_add_file realpath access db path_ = (Ok id, db).
Proof.
  intros Hro Hl1 Hl2 Hrp Hac Hc Hne Hlp Hid Hf.
  unfold sql_db_add_file, clean_path.
  destruct (Z.of_nat (String.length path_) <? INT_MAX) eqn:E1; [|apply Z.ltb_ge in E1; lia].
  cbn [negb]. rewrite Hro.
  destruct (Z.of_nat (String.length path_) >=? buf_len db) eqn:E2; [apply Z.geb_le in E2; lia|].
  rewrite Hrp, Hac. unfold strnlen. rewrite Hc.
  rewrite Z.min_l by lia. rewrite Nat2Z.id, substring_all.
  rewrite (lookup_file_found (sql db) p id p' rest Hne Hid Hf). reflexivity.
Qed.

Lemma sql_db_add_file_n_found n : forall db path_ p id p' rest,
  readonly db = false ->
  Z.of_nat (String.length path_) < INT_MAX ->
  Z.of_nat (String.length path_) < buf_len db ->
  realpath (c_str path_) = Ok p ->
  access p = None ->
  c_str p = p -> p <> "" -> Z.of_nat (String.length p) <= buf_len db ->
  0 < id <= INT64_MAX ->
  sql_file_entries db p = (id, p') :: rest ->
  sql_db_add_file_n realpath access n db path_ = (repeat (Ok id) n, db).
Proof.
  induction n as [|n IH]; intros; [reflexivity|].
  cbn [sql_db_add_file_n]. erewrite sql_db_add_file_found by eassumption.
  erewrite IH by eassumption. reflexivity.
Qed.

Lemma sql_db_add_file_new db path_ p :
  readonly db = false ->
  Z.of_nat (String.length path_) < INT_MAX ->
  Z.of_nat (String.length path_) < buf_len db ->
  realpath (c_str path_) = Ok p ->
  access p = None ->
  c_str p = p -> p <> "" -> Z.of_nat (String.length p) <= buf_len db ->
  Forall (fun r => 0 < fst r < INT64_MAX) (file_table (sql db)) ->
  sql_file_entries db p = [] ->
  let id := last_rowid (file_table (sql db)) + 1 in
  sql_db_add_file realpath access db path_
  = (Ok id, mk_sqlite_db
              (set_file_table (sql db) (file_table (sql db) ++ [(id, p)]))
              (readonly db) (buf_len db))
  /\ 0 < id <= INT64_MAX.
Proof.
  intros Hro Hl1 Hl2 Hrp Hac Hc Hne Hlp Hwf Hf id.
  assert (Hok : rowids_ok (file_table (sql db))).
  { eapply Forall_impl; [|exact Hwf]. simpl. intros. lia. }
  pose proof (last_rowid_bound _ Hok) as [Hb1 Hb2].
  pose proof (last_rowid_lt _ Hwf) as Hlt.
  split; [|subst id; lia].
  unfold sql_db_add_file, clean_path.
  destruct (Z.of_nat (String.length path_) <? INT_MAX) eqn:E1; [|apply Z.ltb_ge in E1; lia].
  cbn [negb]. rewrite Hro.
  destruct (Z.of_nat (String.length path_) >=? buf_len db) eqn:E2; [apply Z.geb_le in E2; lia|].
  rewrite Hrp, Hac. unfold strnlen. rewrite Hc.
  rewrite Z.min_l by lia. rewrite Nat2Z.id, substring_all.
  rewrite (lookup_file_missing (sql db) p Hne Hf).
  cbn [errno_eqb negb]. unfold insert_file.
  destruct p as [|c p]; [congruence|].
  cbn [String.length]. rewrite Nat2Z.inj_succ.
  destruct (Z.succ _ =? 0) eqn:E; [apply Z.eqb_eq in E; lia|].
  unfold file_insert_step.
  destruct (last_rowid (file_table (sql db)) =? INT64_MAX) eqn:E3; [apply Z.eqb_eq in E3; lia|].
  unfold sqlite3_last_insert_rowid. cbn [file_table set_file_table].
  rewrite (last_rowid_snoc _ (String c p) Hok).
  destruct (last_rowid (file_table (sql db)) + 1 >? 0) eqn:E4; [reflexivity|].
  rewrite Z.gtb_ltb in E4. apply Z.ltb_ge in E4. lia.
Qed.
End AddFile.

(* ------------------------------------------------------------------ *)
(** ** add-file on the back-ends *)

Lemma cf_str_dup_ok h s r h' : cf_str_dup h s = (Ok r, h') -> str r = s.
Proof.
  unfold cf_str_dup.
  destruct (Z.of_nat (String.length s) =? 0) eqn:E.
  - intros H. injection H as <- _. apply Z.eqb_eq in E.
    destruct s; [reflexivity|simpl in E; lia].
  - destruct (_ >? _); [discriminate|].
    destruct (cf_malloc h) as [[|] h1]; [|discriminate].
    intros H. injection H as <- _. reflexivity.
Qed.

Lemma cf_vec_reserve_data {A} h (v : cf_vec_t A) b v' h' :
  cf_vec_reserve h v = (b, v', h') -> vec_data v' = vec_data v.
Proof.
  unfold cf_vec_reserve.
  destruct (_ =? _); [|intros H; injection H as _ <- _; reflexivity].
  destruct (grow_strategy _ _); [|intros H; injection H as _ <- _; reflexivity].
  destruct (cf_realloc h) as [[|] h1]; intros H; injection H as _ <- _; reflexivity.
Qed.

Lemma mem_db_add_file_ok h db path id db' h' :
  mem_db_add_file h db path = (Ok id, db', h') ->
  id = cf_vec_len (files db) + 1
  /\ exists s, str s = path /\ vec_data (files db') = vec_data (files db) ++ [s].
Proof.
  unfold mem_db_add_file.
  destruct (cf_vec_reserve h (files db)) as [[file files1] h1] eqn:Er.
  apply cf_vec_reserve_data in Er.
  destruct file; cbn [negb]; [|discriminate].
  destruct (cf_str_dup h1 path) as [[s|e|] h2] eqn:Ed; try discriminate.
  intros H. injection H as <- <- _.
  apply cf_str_dup_ok in Ed.
  unfold cf_vec_len. cbn. rewrite Er. rewrite length_app. cbn. split; [lia|].
  exists s. split; [exact Ed|reflexivity].
Qed.

Lemma mem_db_add_file_n_ok n : forall h db path rs db' h',
  mem_db_add_file_n n h db path = (rs, db', h') ->
  Forall (fun r => is_ok r = true) rs ->
  rs = map (fun k => Ok (cf_vec_len (files db) + Z.of_nat k)) (seq 1 n)
  /\ List.length (mem_file_entries db' path)
     = (List.length (mem_file_entries db path) + n)%nat.
Proof.
  induction n as [|n IH]; intros h db path rs db' h' H Hok.
  - injection H as <- <- _. split; [reflexivity|lia].
  - cbn [mem_db_add_file_n] in H.
    destruct (mem_db_add_file h db path) as [[r db1] h1] eqn:E1.
    destruct (mem_db_add_file_n n h1 db1 path) as [[rs2 db2] h2] eqn:E2.
    injection H as <- <- _.
    inversion Hok as [|? ? Hr Hrs]; subst.
    destruct r as [id| |]; try discriminate.
    apply mem_db_add_file_ok in E1. destruct E1 as (-> & s & Hs & Hd).
    destruct (IH _ _ _ _ _ _ E2 Hrs) as (-> & Hc).
    split.
    + cbn [seq map]. f_equal.
      rewrite <- (seq_shift n 1), map_map. apply map_ext. intros k.
      unfold cf_vec_len. rewrite Hd, length_app. cbn [List.length]. f_equal. lia.
    + rewrite Hc. unfold mem_file_entries. rewrite Hd, filter_app, length_app.
      cbn [filter]. rewrite Hs, String.eqb_refl. cbn [List.length]. lia.
Qed.

(** C3 (corrected), counterexample.  Two calls of add-file with "a.c" on
    the fresh in-memory store both succeed, return the handles 1 and 2,
    and leave two entries that match "a.c". *)
Lemma mem_db_add_file_twice :
  let '(rs, db, _) := mem_db_add_file_n 2 [] mem_db_open "a.c" in
  rs = [Ok 1; Ok 2] /\ List.length (mem_file_entries db "a.c") = 2%nat.
Proof. vm_compute. split; reflexivity. Qed.

(** C3 (corrected), as amended.  On-disk store opened read-write, for a
    path that resolves to an existing file and a file table with at most
    one entry for the resolved path: any number of calls succeed with one
    and the same handle and leave exactly one entry for it.  In-memory
    store: calls that succeed return the positions following the old
    length of the file table, one after the other, and each adds one
    more entry for the path. *)
Theorem add_file_repeated :
  (forall (realpath : string -> res string) (access : string -> option errno)
          (db : sqlite_db_t) (path p : string) (n : nat),
      readonly db = false ->
      Z.of_nat (String.length path) < INT_MAX ->
      Z.of_nat (String.length path) < buf_len db ->
      realpath (c_str path) = Ok p ->
      access p = None ->
      c_str p = p -> p <> "" -> Z.of_nat (String.length p) <= buf_len db ->
      Forall (fun r => 0 < fst r < INT64_MAX) (file_table (sql db)) ->
      (List.length (sql_file_entries db p) <= 1)%nat ->
      exists (id : Z) (db' : sqlite_db_t),
        sql_db_add_file_n realpath access (S n) db path
        = (repeat (Ok id) (S n), db')
        /\ List.length (sql_file_entries db' p) = 1%nat)
  /\ (forall (n : nat) (h : heap_t) (db : mem_db_t) (path : string)
             (rs : list (res Z)) (db' : mem_db_t) (h' : heap_t),
        mem_db_add_file_n n h db path = (rs, db', h') ->
        Forall (fun r => is_ok r = true) rs ->
        rs = map (fun k => Ok (cf_vec_len (files db) + Z.of_nat k)) (seq 1 n)
        /\ List.length (mem_file_entries db' path)
           = (List.length (mem_file_entries db path) + n)%nat).
Proof.
  split; [|exact mem_db_add_file_n_ok].
  intros realpath access db path p n Hro Hl1 Hl2 Hrp Hac Hc Hne Hlp Hwf Hcnt.
  destruct (sql_file_entries db p) as [|[id p'] rest] eqn:Hf.
  - destruct (sql_db_add_file_new realpath access db path p
                Hro Hl1 Hl2 Hrp Hac Hc Hne Hlp Hwf Hf) as [Hadd Hid].
    set (id := last_rowid (file_table (sql db)) + 1) in *.
    set (db1 := mk_sqlite_db
                  (set_file_table (sql db) (file_table (sql db) ++ [(id, p)]))
                  (readonly db) (buf_len db)) in *.
    assert (Hf1 : sql_file_entries db1 p = [(id, p)]).
    { unfold sql_file_entries in *. subst db1. cbn [sql file_table set_file_table].
      rewrite filter_app, Hf. cbn. rewrite String.eqb_refl. reflexivity. }
    exists id, db1. cbn [sql_db_add_file_n repeat]. rewrite Hadd.
    rewrite (sql_db_add_file_n_found realpath access n db1 path p id p []
               Hro Hl1 Hl2 Hrp Hac Hc Hne Hlp Hid Hf1).
    split; [reflexivity|]. rewrite Hf1. reflexivity.
  - assert (Hid : 0 < id <= INT64_MAX).
    { assert (Hin : In (id, p') (file_table (sql db))).
      { unfold sql_file_entries in Hf.
        eapply (proj1 (filter_In _ _ _)). rewrite Hf. left. reflexivity. }
      rewrite Forall_forall in Hwf. specialize (Hwf _ Hin). simpl in Hwf. lia. }
    exists id, db.
    rewrite (sql_db_add_file_n_found realpath access (S n) db path p id p' rest
               Hro Hl1 Hl2 Hrp Hac Hc Hne Hlp Hid Hf).
    split; [reflexivity|]. rewrite Hf. simpl in Hcnt |- *. lia.
Qed.

Lemma add_file_repeated_witness :
  (readonly (mk_sqlite_db (mk_sqlite3 [] [] []) false 4096) = false
   /\ exists (id : Z) (db' : sqlite_db_t),
        sql_db_add_file_n (fun _ => Ok "/src/a.c") (fun _ => None) 3%nat
          (mk_sqlite_db (mk_sqlite3 [] [] []) false 4096) "a.c"
        = (repeat (Ok id) 3%nat, db')
        /\ List.length (sql_file_entries db' "/src/a.c") = 1%nat)
  /\ (Forall (fun r => is_ok r = true) [Ok 1; Ok 2]
      /\ [Ok 1; Ok 2]
         = map (fun k => Ok (cf_vec_len (files mem_db_open) + Z.of_nat k))
             (seq 1 2%nat)).
Proof.
  split.
  - split; [reflexivity|].
    apply (proj1 add_file_repeated (fun _ => Ok "/src/a.c") (fun _ => None)
             (mk_sqlite_db (mk_sqlite3 [] [] []) false 4096) "a.c" "/src/a.c" 2%nat);
      try reflexivity; try discriminate.
    + constructor.
    + simpl. lia.
  - assert (Hok : Forall (fun r : res Z => is_ok r = true) [Ok 1; Ok 2])
      by (repeat constructor).
    split; [exact Hok|].
    exact (proj1 (proj2 add_file_repeated 2%nat [] mem_db_open "a.c"
                    [Ok 1; Ok 2] _ _ eq_refl Hok)).
Defined.

(* ------------------------------------------------------------------ *)
(** ** search.c *)

Lemma mem_iter_scan_first key entries i j :
  mem_db_typename_iter_scan key (cf_str_len key) entries i = Some j ->
  exists (n : nat) (e : db_typename_t),
    j = i + Z.of_nat n
    /\ nth_error entries n = Some e
    /\ filter (mem_iter_match key) entries
       = e :: filter (mem_iter_match key) (skipn (n + 1) entries).
Proof.
  revert i. induction entries as [|a l IH]; intros i H; [discriminate|].
  cbn [mem_db_typename_iter_scan] in H. cbn [filter]. unfold mem_iter_match at 1.
  destruct (cf_str_len (tn_name a) =? cf_str_len key); cbn [negb andb] in *.
  - destruct (strncmp_eq0 _ _ _); cbn [negb] in *.
    + injection H as <-. exists 0%nat, a. repeat split. lia.
    + destruct (IH _ H) as (n & e & -> & Hn & Hc). exists (S n), e.
      repeat split; [lia|exact Hn|exact Hc].
  - destruct (IH _ H) as (n & e & -> & Hn & Hc). exists (S n), e.
    repeat split; [lia|exact Hn|exact Hc].
Qed.

Opaque skipn.

Transparent skipn.

Lemma nth_error_skipn {A} (l : list A) (s n : nat) :
  nth_error (skipn s l) n = nth_error l (s + n).
Proof.
  revert l. induction s as [|s IH]; intros l; [reflexivity|].
  destruct l; [destruct n; reflexivity|]. simpl. apply IH.
Qed.

Opaque skipn.

Lemma mem_iter_next_nil db it :
  mem_iter_rest db it = [] -> mem_db_typename_iter_next db it = (false, it).
Proof.
  intros H. apply mem_iter_next_false. unfold mem_iter_left.
  unfold mem_iter_rest in H. rewrite H. reflexivity.
Qed.

Lemma mem_iter_next_cons db it e l :
  cf_vec_len (typenames db) <= SIZE_MAX ->
  mem_iter_rest db it = e :: l ->
  exists it',
    mem_db_typename_iter_next db it = (true, it')
    /\ it_key it' = it_key it
    /\ mem_iter_rest db it' = l
    /\ cf_vec_at (typenames db) (it_i it') = Some e.
Proof.
  unfold mem_iter_rest, mem_db_typename_iter_next, cf_vec_len, SIZE_MAX.
  intros Hlen H.
  pose proof (wrap64_range (it_i it + 1)) as Hr.
  set (s := wrap64 (it_i it + 1)) in *.
  destruct (mem_db_typename_iter_scan _ _ _ _) eqn:E.
  - apply mem_iter_scan_first in E. destruct E as (n & e' & -> & Hn & Hc).
    rewrite H in Hc. injection Hc as <- ->.
    eexists. split; [reflexivity|]. cbn [it_key it_i].
    assert (Hlt : (Z.to_nat s + n < List.length (vec_data (typenames db)))%nat).
    { apply nth_error_Some. rewrite <- nth_error_skipn, Hn. discriminate. }
    split; [reflexivity|]. split.
    + rewrite wrap64_small by lia. rewrite skipn_skipn. f_equal. f_equal. lia.
    + unfold cf_vec_at. destruct (s + Z.of_nat n <? 0) eqn:E0; [apply Z.ltb_lt in E0; lia|].
      rewrite <- Hn, nth_error_skipn. f_equal. lia.
  - apply mem_iter_scan_none in E. rewrite E in H. discriminate.
Qed.

Lemma mem_peek_ok db it e :
  List.length (vec_data (locs_typename db)) = List.length (vec_data (typenames db)) ->
  cf_vec_at (typenames db) (it_i it) = Some e ->
  exists loc,
    mem_db_typename_iter_peek db it
    = Ok (mk_typename (tn_kind e) (tn_base_type e) (cf_str_borrow_str (tn_name e)), loc).
Proof.
  intros Hal He. unfold mem_db_typename_iter_peek. rewrite He.
  unfold cf_vec_at in *. destruct (it_i it <? 0); [discriminate|].
  destruct (nth_error (vec_data (locs_typename db)) (Z.to_nat (it_i it))) as [loc|] eqn:El.
  - exists loc. reflexivity.
  - apply nth_error_None in El. assert (nth_error (vec_data (typenames db)) (Z.to_nat (it_i it)) <> None) by congruence.
    apply nth_error_Some in H. lia.
Qed.



Lemma mem_collect db :
  cf_vec_len (typenames db) <= SIZE_MAX ->
  List.length (vec_data (locs_typename db)) = List.length (vec_data (typenames db)) ->
  forall (l : list db_typename_t) (fuel : nat) (it : mem_db_typename_iter_t),
    mem_iter_rest db it = l ->
    (List.length l < fuel)%nat ->
    db_typename_iter_collect fuel (db_kind_mem db) (iter_mem it)
    = Some (Ok (map borrow_name l)).
Proof.
  intros Hlen Hal. induction l as [|e l IH]; intros fuel it Hr Hf.
  - destruct fuel; [simpl in Hf; lia|]. cbn [db_typename_iter_collect db_typename_iter_next].
    rewrite (mem_iter_next_nil _ _ Hr). reflexivity.
  - destruct fuel; [simpl in Hf; lia|]. cbn [db_typename_iter_collect db_typename_iter_next].
    destruct (mem_iter_next_cons _ _ _ _ Hlen Hr) as (it' & Hn & Hk & Hr' & Hat).
    rewrite Hn. cbn [db_typename_iter_peek].
    destruct (mem_peek_ok _ _ _ Hal Hat) as [loc Hp]. rewrite Hp.
    rewrite (IH fuel it' Hr') by (simpl in Hf; lia). reflexivity.
Qed.





Transparent skipn.

(* ------------------------------------------------------------------ *)
(** ** cf_index.c: the commit of the scoreboard *)

Lemma cf_map8_lookup_insert map key value k :
  cf_map8_lookup (cf_map8_insert map key value) k
  = match cf_map8_lookup map k with
    | Some v => Some v
    | None => if key =? k then Some value else None
    end.
Proof.
  unfold cf_map8_insert.
  induction map as [|[k0 v0] map IH]; cbn.
  - reflexivity.
  - destruct (k0 =? k); [reflexivity|exact IH].
Qed.

Section CommitFacts.
Context {DB : Type} {store : Store DB}.

Lemma commit_members_filter ntm pkgs : forall ctx : index_ctx_t DB,
  commit_members ntm
    (filter (fun pkg => enclosing_is_new ntm (mp_parent pkg)) pkgs) ctx
  = commit_members ntm pkgs ctx.
Proof.
  induction pkgs as [|pkg rest IH]; intros ctx; [reflexivity|].
  cbn [filter commit_members]. unfold enclosing_is_new at 1.
  destruct (translate_struct_type ntm (mp_parent pkg)) as [parent|] eqn:E.
  - cbn [commit_members]. rewrite E.
    destruct (translate_member_type _ _ _); [|apply IH].
    destruct (commit_one_member _ _); [apply IH|reflexivity].
  - apply IH.
Qed.

Lemma commit_type_uses_filter ntm pkgs : forall ctx : index_ctx_t DB,
  commit_type_uses ntm
    (filter (fun pkg => enclosing_is_new ntm (up_where pkg)) pkgs) ctx
  = commit_type_uses ntm pkgs ctx.
Proof.
  induction pkgs as [|pkg rest IH]; intros ctx; [reflexivity|].
  cbn [filter commit_type_uses]. unfold enclosing_is_new at 1.
  destruct (translate_struct_type ntm (up_where pkg)) as [parent|] eqn:E.
  - cbn [commit_type_uses]. rewrite E.
    destruct (translate_member_type _ _ _); [|apply IH].
    destruct (commit_one_type_use _ _); [apply IH|reflexivity].
  - apply IH.
Qed.

Lemma commit_one_struct_scratch pkg ntm (ctx : index_ctx_t DB) r ntm' ctx' :
  commit_one_struct pkg ntm ctx = Some (r, ntm', ctx') ->
  ntm' = ntm
  \/ exists ref db1 db2,
       ntm' = cf_map8_insert ntm (pkg_type_id pkg) ref
       /\ cf_db_typename_lookup (ctx_db ctx) (pkg_loc1 pkg) (pkg_name pkg)
          = Err ENOENT
       /\ cf_db_type_insert (ctx_db ctx) (pkg_loc0 pkg) (pkg_entry pkg)
          = (Ok ref, db1)
       /\ cf_db_typename_insert db1 (pkg_loc1 pkg)
            (mk_typename (tn_kind (pkg_name pkg)) ref
               (tn_name (pkg_name pkg)))
          = (Ok tt, db2).
Proof.
  unfold commit_one_struct.
  destruct (cf_db_typename_lookup _ _ _) as [ref0|e|] eqn:El.
  - destruct (type_map_insert _ _ _); [|discriminate].
    intros H. injection H as _ <- _. left. reflexivity.
  - destruct (errno_eqb e ENOENT) eqn:Ee; cbn [negb].
    + destruct (cf_db_type_insert _ _ _) as [[ref|e1|] db1] eqn:Ei;
        [| intros H; injection H as _ <- _; left; reflexivity | discriminate].
      destruct (cf_db_typename_insert _ _ _) as [[[]|e2|] db2] eqn:En;
        [| intros H; injection H as _ <- _; left; reflexivity | discriminate].
      unfold type_map_insert.
      destruct (pkg_type_id pkg =? 0); [discriminate|].
      destruct (ref =? 0); [discriminate|].
      intros H. injection H as _ <- _. right. exists ref, db1, db2.
      assert (e = ENOENT) as ->.
      { destruct e; try discriminate Ee; reflexivity. }
      auto.
    + intros H. injection H as _ <- _. left. reflexivity.
  - discriminate.
Qed.

Lemma commit_new_types_scratch unnamed all pkgs :
  forall ntm (ctx : index_ctx_t DB) ntm' ctx',
  (forall pkg, In pkg pkgs -> In pkg all) ->
  (forall id ref, cf_map8_lookup ntm id = Some ref ->
                  @newly_persisted DB store unnamed all id ref) ->
  commit_new_types unnamed pkgs ntm ctx = Some (ntm', ctx') ->
  forall id ref, cf_map8_lookup ntm' id = Some ref ->
                 @newly_persisted DB store unnamed all id ref.
Proof.
  induction pkgs as [|pkg rest IH]; intros ntm ctx ntm' ctx' Hin Hinv H.
  - injection H as <- _. exact Hinv.
  - cbn [commit_new_types] in H.
    destruct (pkg_type_id pkg =? 0); [discriminate|].
    destruct (cf_map8_lookup unnamed (pkg_type_id pkg)) eqn:Eu.
    + eapply IH; [|exact Hinv|exact H]. intros p Hp. apply Hin. right. exact Hp.
    + destruct (commit_one_struct pkg ntm ctx) as [[[r ntm1] ctx1]|] eqn:Ec;
        [|discriminate].
      eapply IH; [| |exact H].
      * intros p Hp. apply Hin. right. exact Hp.
      * apply commit_one_struct_scratch in Ec.
        destruct Ec as [->|(ref0 & db1 & db2 & -> & El & Ei & En)];
          [exact Hinv|].
        intros id ref. rewrite cf_map8_lookup_insert.
        destruct (cf_map8_lookup ntm id) eqn:E0.
        -- intros H0. injection H0 as <-. apply Hinv. exact E0.
        -- destruct (pkg_type_id pkg =? id) eqn:Ek; [|discriminate].
           intros H0. injection H0 as <-. apply Z.eqb_eq in Ek.
           exists pkg, ctx, db1, db2. rewrite <- Ek.
           repeat split; auto. apply Hin. left. reflexivity.
Qed.
End CommitFacts.


(** C2.  In every commit of a scoreboard, on every store: the staged
    members and the staged type uses whose enclosing record is not a key
    of the scratch map built in this commit have no effect, the commit
    ends in the same context without them; and every key of the scratch
    map is the type of a staged record that is not in [unnamed_types],
    whose name the look-up did not find, and whose type row and typename
    row were both inserted in this commit. *)
Theorem commit_struct_scoreboard_enclosing_new {DB : Type} {store : Store DB}
  (sb : struct_scoreboard_t) (ctx : index_ctx_t DB) ntm ctx1 :
  commit_scratch sb ctx = Some (ntm, ctx1) ->
  commit_struct_scoreboard sb ctx
  = commit_struct_scoreboard (keep_enclosed ntm sb) ctx
  /\ forall id ref, cf_map8_lookup ntm id = Some ref ->
       newly_persisted (unnamed_types sb) (new_types sb) id ref.
Proof.
  intros H. split.
  - unfold commit_struct_scoreboard.
    assert (commit_scratch (keep_enclosed ntm sb) ctx = Some (ntm, ctx1)) as ->
      by exact H.
    rewrite H. cbn [keep_enclosed set_sb_type_uses set_sb_members sb_members
                      sb_type_uses].
    rewrite commit_members_filter.
    destruct (commit_members ntm (sb_members sb) ctx1); [|reflexivity].
    rewrite commit_type_uses_filter. reflexivity.
  - unfold commit_scratch in H.
    eapply (commit_new_types_scratch (unnamed_types sb) (new_types sb));
      [| |exact H].
    + auto.
    + intros id ref H0. discriminate H0.
Qed.

Lemma commit_struct_scoreboard_enclosing_new_witness :
  exists ntm ctx1,
    @commit_scratch _ (mem_store zero_loc) staged_two_members
      (make_index_ctx mem_store_open) = Some (ntm, ctx1)
    /\ (@commit_struct_scoreboard _ (mem_store zero_loc) staged_two_members
          (make_index_ctx mem_store_open)
        = @commit_struct_scoreboard _ (mem_store zero_loc)
            (keep_enclosed ntm staged_two_members)
            (make_index_ctx mem_store_open)
        /\ forall id ref, cf_map8_lookup ntm id = Some ref ->
             @newly_persisted _ (mem_store zero_loc)
               (unnamed_types staged_two_members)
               (new_types staged_two_members) id ref).
Proof.
  eexists. eexists. split; [vm_compute; reflexivity|].
  eapply (@commit_struct_scoreboard_enclosing_new _ (mem_store zero_loc)).
  vm_compute. reflexivity.
Defined.

(* ------------------------------------------------------------------ *)
(** ** cf_index.c: the visit of the members of a record *)

Lemma ast_ind_list (Q : ast -> Prop) :
  (forall c kids, Forall Q kids -> Q (Node c kids)) -> forall n, Q n.
Proof.
  intros H. fix IH 1. intros [c kids]. apply H.
  induction kids as [|k ks IHks]; constructor; [apply IH|exact IHks].
Qed.

Section Children.
Context {DB : Type} {store : Store DB}.
Variable ctx : index_ctx_t DB.
Variables (P : CXCursor) (rest : cursor_stack_t) (pid tid : clang_type_t).
Hypothesis Hcps : current_parent_stack (struct_sb ctx) = P :: rest.
Hypothesis Hpid :
  get_clang_type (clang_getCanonicalType (cur_type P)) = Some pid.
Hypothesis Hunnamed : forall k v,
  cf_map8_lookup (unnamed_types (struct_sb ctx)) k = Some v -> k = tid.

Lemma put_sb_path_state stack cnt loc sloc mems p :
  put_sb_path (children_state ctx stack cnt loc sloc mems) p
  = children_state ctx (parent_stack p) (count p) loc sloc mems.
Proof. destruct p. reflexivity. Qed.

Lemma get_sb_path_state stack cnt loc sloc mems :
  get_sb_path (children_state ctx stack cnt loc sloc mems)
  = mk_path stack cnt.
Proof. reflexivity. Qed.

Lemma finalizer_plain c stack cnt loc sloc mems :
  cur_id c <> cur_id P ->
  index_struct_finalizer c (children_state ctx stack cnt loc sloc mems)
  = children_state ctx stack cnt loc sloc mems.
Proof.
  intros Hc. unfold index_struct_finalizer.
  cbn [children_state struct_sb current_parent_stack]. rewrite Hcps.
  unfold clang_equalCursors.
  destruct (cur_id c =? cur_id P) eqn:E; [apply Z.eqb_eq in E; tauto|].
  reflexivity.
Qed.

Lemma ascend_plain (X : CXCursor) (B : cursor_stack_t) cnt loc sloc mems :
  forall L,
  Forall (fun c => cur_id c <> cur_id X /\ cur_id c <> cur_id P) L ->
  ascend get_sb_path put_sb_path index_struct_finalizer (L ++ X :: B) X
    (children_state ctx (L ++ X :: B) cnt loc sloc mems)
  = Some (children_state ctx (X :: B) cnt loc sloc mems).
Proof.
  induction L as [|c L IH]; intros HL.
  - cbn. unfold clang_equalCursors. rewrite Z.eqb_refl. reflexivity.
  - inversion HL as [|? ? [HcX HcP] HL']; subst.
    cbn [app ascend]. unfold clang_equalCursors at 1.
    destruct (cur_id c =? cur_id X) eqn:E; [apply Z.eqb_eq in E; tauto|].
    rewrite finalizer_plain by exact HcP.
    rewrite put_sb_path_state, get_sb_path_state. cbn [parent_stack count].
    apply IH. exact HL'.
Qed.

Lemma update_location_state stack cnt loc sloc mems f :
  update_location (children_state ctx stack cnt loc sloc mems) f
  = children_state ctx stack cnt
      (ctx_loc (update_location (set_ctx_loc ctx loc) f)) sloc mems.
Proof.
  unfold update_location. cbn [children_state file_map set_ctx_loc].
  destruct (file_map_lookup (file_map ctx) (cur_file f)); reflexivity.
Qed.

Lemma index_field_plain f kids X stack cnt loc sloc mems :
  cur_kind f = CXCursor_FieldDecl ->
  ct_canonical_kind (cur_type f) = CXType_OtherKind ->
  ct_data (cur_type f) <> tid ->
  exists loc',
    index_type_children_cb (Node f kids) X
      (children_state ctx stack cnt loc sloc mems)
    = Some (CXChildVisit_Continue,
            children_state ctx stack cnt loc' loc'
              (mems ++ [mk_member_pkg pid
                          (mk_member pid 0 (dup_c_string (cur_spelling f)))
                          loc'])).
Proof.
  intros Hk Hc Hd. eexists.
  unfold index_type_children_cb. cbn [ast_cursor].
  rewrite update_location_state.
  unfold index_type_children_cb2. rewrite Hk.
  cbn [children_state struct_sb ctx_loc set_sb_loc current_parent_stack
       sb_path sb_loc new_types sb_members sb_type_uses unnamed_types].
  rewrite Hcps. cbn [cursor_stack_top].
  unfold index_member. rewrite Hk.
  unfold build_member_record.
  rewrite Hpid.
  assert (Hni : type_is_indexable (clang_getCanonicalType (cur_type f)) = false).
  { unfold type_is_indexable, clang_getCanonicalType. cbn. rewrite Hc. reflexivity. }
  rewrite Hni.
  unfold maybe_build_typename. rewrite Hk.
  assert (Hg : get_clang_type (clang_getCanonicalType (cur_type f))
               = Some (ct_data (cur_type f))).
  { unfold get_clang_type, clang_getCanonicalType. cbn. rewrite Hc. reflexivity. }
  rewrite Hg.
  cbn [set_sb_members unnamed_types sb_members sb_path current_parent_stack
       sb_loc new_types sb_type_uses].
  assert (El : cf_map8_lookup (unnamed_types (struct_sb ctx))
                 (ct_data (cur_type f)) = None).
  { destruct (cf_map8_lookup _ _) eqn:El; [|reflexivity].
    apply Hunnamed in El. contradiction. }
  unfold build_member_type_use, var_is_indexable. rewrite Hni.
  unfold children_state. cbn. rewrite El. cbn. rewrite Hcps. reflexivity.
Qed.

Lemma index_anon_plain a kids X stack cnt loc sloc mems :
  (cur_kind a = CXCursor_StructDecl \/ cur_kind a = CXCursor_UnionDecl) ->
  cur_anonymous a = true ->
  type_is_indexable (clang_getCanonicalType (cur_type a)) = true ->
  exists loc',
    index_type_children_cb (Node a kids) X
      (children_state ctx stack cnt loc sloc mems)
    = Some (CXChildVisit_Recurse,
            children_state ctx stack cnt loc' loc' mems).
Proof.
  intros Hk Ha Hi. eexists.
  unfold index_type_children_cb. cbn [ast_cursor].
  rewrite update_location_state.
  assert (Hr : index_struct_record a
                 (set_sb_loc
                    (struct_sb (children_state ctx stack cnt
                       (ctx_loc (update_location (set_ctx_loc ctx loc) a))
                       sloc mems))
                    (ctx_loc (update_location (set_ctx_loc ctx loc) a)))
               = Some (set_sb_loc
                    (struct_sb (children_state ctx stack cnt
                       (ctx_loc (update_location (set_ctx_loc ctx loc) a))
                       sloc mems))
                    (ctx_loc (update_location (set_ctx_loc ctx loc) a)))).
  { unfold index_struct_record. rewrite Hi. cbn [negb].
    assert (Hg : get_clang_type (clang_getCanonicalType (cur_type a))
                 = Some (ct_data (cur_type a))).
    { revert Hi. unfold get_clang_type, type_is_indexable, clang_getCanonicalType.
      cbn. destruct (ct_canonical_kind (cur_type a)); intros; try discriminate;
        reflexivity. }
    rewrite Hg.
    unfold extract_struct, extract_struct_name, get_struct_name_kind.
    rewrite Ha.
    destruct Hk as [-> | ->]; cbn; rewrite Hcps; reflexivity. }
  unfold index_type_children_cb2.
  cbn [ctx_loc children_state] in *.
  destruct Hk as [Hk | Hk]; rewrite Hk; rewrite Hr; rewrite Ha;
    rewrite andb_false_r; reflexivity.
Qed.

Lemma iterate_field_plain f kids X B L cnt loc sloc mems :
  cur_kind f = CXCursor_FieldDecl ->
  ct_canonical_kind (cur_type f) = CXType_OtherKind ->
  ct_data (cur_type f) <> tid ->
  Forall (fun c => cur_id c <> cur_id X /\ cur_id c <> cur_id P) L ->
  exists cnt' loc',
    index_struct_visitor (Node f kids) X (children_state ctx (L ++ X :: B) cnt loc sloc mems)
    = Some (CXChildVisit_Continue,
            children_state ctx (X :: B) cnt' loc' loc'
              (mems ++ [mk_member_pkg pid
                          (mk_member pid 0 (dup_c_string (cur_spelling f)))
                          loc'])).
Proof.
  intros Hk Hc Hd HL.
  unfold index_struct_visitor, iterate_children_cb.
  rewrite put_sb_path_state, !get_sb_path_state. cbn [parent_stack count].
  rewrite (ascend_plain X B _ loc sloc mems L HL).
  destruct (index_field_plain f kids X (X :: B) (wrap32 (cnt + 1)) loc sloc
              mems Hk Hc Hd) as [loc' ->].
  eexists. eexists. reflexivity.
Qed.

Lemma iterate_anon_plain a kids X B L cnt loc sloc mems :
  (cur_kind a = CXCursor_StructDecl \/ cur_kind a = CXCursor_UnionDecl) ->
  cur_anonymous a = true ->
  type_is_indexable (clang_getCanonicalType (cur_type a)) = true ->
  Forall (fun c => cur_id c <> cur_id X /\ cur_id c <> cur_id P) L ->
  exists cnt' loc',
    index_struct_visitor (Node a kids) X (children_state ctx (L ++ X :: B) cnt loc sloc mems)
    = Some (CXChildVisit_Recurse,
            children_state ctx (a :: X :: B) cnt' loc' loc' mems).
Proof.
  intros Hk Ha Hi HL.
  unfold index_struct_visitor, iterate_children_cb.
  rewrite put_sb_path_state, !get_sb_path_state. cbn [parent_stack count].
  rewrite (ascend_plain X B _ loc sloc mems L HL).
  destruct (index_anon_plain a kids X (X :: B) (wrap32 (cnt + 1)) loc sloc
              mems Hk Ha Hi) as [loc' ->].
  rewrite put_sb_path_state, get_sb_path_state.
  cbn [parent_stack count cursor_stack_descend ast_cursor].
  eexists. eexists. reflexivity.
Qed.

Lemma not_in_anc (anc : list Z) X :
  In (cur_id X) anc -> In (cur_id P) anc ->
  forall L, Forall (fun c => ~ In (cur_id c) anc) L ->
  Forall (fun c => cur_id c <> cur_id X /\ cur_id c <> cur_id P) L.
Proof.
  intros HX HP L HL. eapply Forall_impl; [|exact HL].
  intros c Hc. cbn in Hc. split; intros E; apply Hc; rewrite E; assumption.
Qed.

Lemma existsb_eqb_false (x : Z) l :
  existsb (Z.eqb x) l = false -> ~ In x l.
Proof.
  intros H Hin.
  assert (existsb (Z.eqb x) l = true) as E
    by (apply existsb_exists; exists x; split; [exact Hin|apply Z.eqb_refl]).
  congruence.
Qed.

Lemma visit_plain_node : forall n anc X B L cnt loc sloc mems,
  plain_member tid anc n = true ->
  In (cur_id X) anc -> In (cur_id P) anc ->
  Forall (fun c => ~ In (cur_id c) anc) L ->
  exists L' cnt' loc' sloc' news,
    visit_node index_struct_visitor X n (children_state ctx (L ++ X :: B) cnt loc sloc mems)
    = Some (children_state ctx (L' ++ X :: B) cnt' loc' sloc' (mems ++ news))
    /\ Forall (fun c => ~ In (cur_id c) anc) L'
    /\ map (fun p => (mp_parent p, mp_entry p)) news
       = map (fun f => (pid, mk_member pid 0 (dup_c_string (cur_spelling f))))
           (promoted_fields n).
Proof.
  intros n. induction n as [c kids Hkids] using ast_ind_list.
  assert (Hlist : forall anc X B L cnt loc sloc mems,
    forallb (plain_member tid anc) kids = true ->
    In (cur_id X) anc -> In (cur_id P) anc ->
    Forall (fun c => ~ In (cur_id c) anc) L ->
    exists L' cnt' loc' sloc' news,
      visit_list (visit_node index_struct_visitor X) kids
        (children_state ctx (L ++ X :: B) cnt loc sloc mems)
      = Some (children_state ctx (L' ++ X :: B) cnt' loc' sloc'
                (mems ++ news))
      /\ Forall (fun c => ~ In (cur_id c) anc) L'
      /\ map (fun p => (mp_parent p, mp_entry p)) news
         = map (fun f => (pid, mk_member pid 0
                                 (dup_c_string (cur_spelling f))))
             (flat_map promoted_fields kids)).
  { clear c. induction Hkids as [|k ks Hk _ IH];
      intros anc X B L cnt loc sloc mems Hp HX HP HL.
    - exists L, cnt, loc, sloc, []. rewrite app_nil_r. cbn. auto.
    - cbn [forallb] in Hp. apply andb_prop in Hp. destruct Hp as [Hp1 Hp2].
      destruct (Hk anc X B L cnt loc sloc mems Hp1 HX HP HL)
        as (L1 & cnt1 & loc1 & sloc1 & news1 & E1 & HL1 & M1).
      destruct (IH anc X B L1 cnt1 loc1 sloc1 (mems ++ news1) Hp2 HX HP HL1)
        as (L2 & cnt2 & loc2 & sloc2 & news2 & E2 & HL2 & M2).
      exists L2, cnt2, loc2, sloc2, (news1 ++ news2).
      cbn [visit_list]. rewrite E1, E2. rewrite app_assoc.
      split; [reflexivity|]. split; [exact HL2|].
      cbn [flat_map]. rewrite !map_app, M1, M2. reflexivity. }
  intros anc X B L cnt loc sloc mems Hp HX HP HL.
  pose proof (not_in_anc anc X HX HP L HL) as HL'.
  cbn [plain_member] in Hp.
  assert (Hrec : (cur_kind c = CXCursor_StructDecl
                  \/ cur_kind c = CXCursor_UnionDecl) ->
                 cur_anonymous c
                 && type_is_indexable (clang_getCanonicalType (cur_type c))
                 && negb (existsb (Z.eqb (cur_id c)) anc)
                 && forallb (plain_member tid (cur_id c :: anc)) kids = true ->
    exists L' cnt' loc' sloc' news,
      visit_node index_struct_visitor X (Node c kids)
        (children_state ctx (L ++ X :: B) cnt loc sloc mems)
      = Some (children_state ctx (L' ++ X :: B) cnt' loc' sloc'
                (mems ++ news))
      /\ Forall (fun c => ~ In (cur_id c) anc) L'
      /\ map (fun p => (mp_parent p, mp_entry p)) news
         = map (fun f => (pid, mk_member pid 0
                                 (dup_c_string (cur_spelling f))))
             (flat_map promoted_fields kids)).
  { intros Hk Hq.
    apply andb_prop in Hq. destruct Hq as [Hq Hkp].
    apply andb_prop in Hq. destruct Hq as [Hq Hfresh].
    apply andb_prop in Hq. destruct Hq as [Ha Hi].
    apply negb_true_iff in Hfresh. apply existsb_eqb_false in Hfresh.
    destruct (iterate_anon_plain c kids X B L cnt loc sloc mems Hk Ha Hi HL')
      as (cnt1 & loc1 & E1).
    destruct (Hlist (cur_id c :: anc) c (X :: B) [] cnt1 loc1 loc1 mems Hkp
                (or_introl eq_refl) (or_intror HP) (Forall_nil _))
      as (L2 & cnt2 & loc2 & sloc2 & news & E2 & HL2 & M2).
    exists (L2 ++ [c]), cnt2, loc2, sloc2, news.
    cbn [visit_node]. rewrite E1. cbn [app] in E2. rewrite E2.
    rewrite <- app_assoc. cbn [app]. split; [reflexivity|]. split.
    - apply Forall_app. split.
      + eapply Forall_impl; [|exact HL2]. intros x Hx Hin. apply Hx.
        right. exact Hin.
      + constructor; [exact Hfresh|constructor].
    - exact M2. }
  destruct (cur_kind c) eqn:Hk; try discriminate Hp.
  - destruct (Hrec (or_introl eq_refl) Hp) as (L2 & c2 & l2 & s2 & nw & H).
    exists L2, c2, l2, s2, nw. cbn [promoted_fields]. rewrite Hk. exact H.
  - destruct (Hrec (or_intror eq_refl) Hp) as (L2 & c2 & l2 & s2 & nw & H).
    exists L2, c2, l2, s2, nw. cbn [promoted_fields]. rewrite Hk. exact H.
  - destruct (ct_canonical_kind (cur_type c)) eqn:Hc; try discriminate Hp.
    apply negb_true_iff in Hp. apply Z.eqb_neq in Hp.
    destruct (iterate_field_plain c kids X B L cnt loc sloc mems Hk Hc Hp HL')
      as (cnt1 & loc1 & E1).
    exists [], cnt1, loc1, loc1,
      [mk_member_pkg pid (mk_member pid 0 (dup_c_string (cur_spelling c))) loc1].
    cbn [visit_node]. rewrite E1. cbn [app promoted_fields]. rewrite Hk.
    split; [reflexivity|]. split; [constructor|reflexivity].
Qed.

Lemma visit_plain_list_of kids : forall anc X B L cnt loc sloc mems,
  forallb (plain_member tid anc) kids = true ->
  In (cur_id X) anc -> In (cur_id P) anc ->
  Forall (fun c => ~ In (cur_id c) anc) L ->
  exists L' cnt' loc' sloc' news,
    visit_list (visit_node index_struct_visitor X) kids
      (children_state ctx (L ++ X :: B) cnt loc sloc mems)
    = Some (children_state ctx (L' ++ X :: B) cnt' loc' sloc' (mems ++ news))
    /\ Forall (fun c => ~ In (cur_id c) anc) L'
    /\ map (fun p => (mp_parent p, mp_entry p)) news
       = map (fun f => (pid, mk_member pid 0 (dup_c_string (cur_spelling f))))
           (flat_map promoted_fields kids).
Proof.
  induction kids as [|k ks IH]; intros anc X B L cnt loc sloc mems Hp HX HP HL.
  - exists L, cnt, loc, sloc, []. rewrite app_nil_r. cbn. auto.
  - cbn [forallb] in Hp. apply andb_prop in Hp. destruct Hp as [Hp1 Hp2].
    destruct (visit_plain_node k anc X B L cnt loc sloc mems Hp1 HX HP HL)
      as (L1 & cnt1 & loc1 & sloc1 & news1 & E1 & HL1 & M1).
    destruct (IH anc X B L1 cnt1 loc1 sloc1 (mems ++ news1) Hp2 HX HP HL1)
      as (L2 & cnt2 & loc2 & sloc2 & news2 & E2 & HL2 & M2).
    exists L2, cnt2, loc2, sloc2, (news1 ++ news2).
    cbn [visit_list]. rewrite E1, E2. rewrite app_assoc.
    split; [reflexivity|]. split; [exact HL2|].
    cbn [flat_map]. rewrite !map_app, M1, M2. reflexivity.
Qed.
End Children.

Section Staging.
Context {DB : Type} {store : Store DB}.

Lemma index_struct_children_plain (ctx : index_ctx_t DB) R body tid :
  get_clang_type (clang_getCanonicalType (cur_type R)) = Some tid ->
  (forall k v,
      cf_map8_lookup (unnamed_types (struct_sb ctx)) k = Some v -> k = tid) ->
  forallb (plain_member tid [cur_id R]) body = true ->
  exists stack cnt loc sloc news,
    index_struct_children (Node R body) ctx
    = Some (mk_ctx (ctx_db ctx) (file_map ctx) (type_map ctx) (ctx_path ctx)
              loc
              (mk_sb (mk_path stack cnt)
                 (R :: current_parent_stack (struct_sb ctx)) sloc
                 (new_types (struct_sb ctx))
                 (sb_members (struct_sb ctx) ++ news)
                 (sb_type_uses (struct_sb ctx))
                 (unnamed_types (struct_sb ctx)))
              (last_struct ctx))
    /\ map (fun p => (mp_parent p, mp_entry p)) news
       = map (fun f => (tid, mk_member tid 0 (dup_c_string (cur_spelling f))))
           (flat_map promoted_fields body).
Proof.
  intros Hg Hu Hp.
  destruct ctx as [db fm tm cpath loc [[stack cnt] cps sloc nts mems uses un] ls].
  cbn [struct_sb unnamed_types] in Hu.
  pose (ctx1 := mk_ctx db fm tm cpath loc
                  (mk_sb (mk_path stack cnt) (R :: cps) sloc nts mems uses un)
                  ls).
  destruct (visit_plain_list_of ctx1 R cps tid tid eq_refl Hg Hu body
              [cur_id R] R stack [] cnt loc sloc mems Hp
              (or_introl eq_refl) (or_introl eq_refl) (Forall_nil _))
    as (L' & cnt' & loc' & sloc' & news & E & _ & M).
  unfold index_struct_children, iterate_children, clang_visitChildren.
  change (visit_list _ body _)
    with (visit_list (visit_node index_struct_visitor R) body
            (children_state ctx1 ([] ++ R :: stack) cnt loc sloc mems)).
  rewrite E. cbv beta iota. rewrite get_sb_path_state.
  cbn [parent_stack count].
  destruct (L' ++ R :: stack) as [|top tl] eqn:El.
  { destruct L'; discriminate El. }
  rewrite put_sb_path_state. cbn [parent_stack count].
  exists tl, cnt', loc', sloc', news. split; [reflexivity|exact M].
Qed.

Lemma get_clang_type_indexable ct :
  type_is_indexable (clang_getCanonicalType ct) = true ->
  get_clang_type (clang_getCanonicalType ct) = Some (ct_data ct).
Proof.
  unfold get_clang_type, type_is_indexable, clang_getCanonicalType. cbn.
  destruct (ct_canonical_kind ct); intros; try discriminate; reflexivity.
Qed.

Lemma index_struct_record_named R k nk path cps sloc mems uses :
  extract_type_kind (cur_kind R) = Some k ->
  type_is_indexable (clang_getCanonicalType (cur_type R)) = true ->
  get_struct_name_kind R = Some nk ->
  nk <> struct_name_anon ->
  index_struct_record R (mk_sb path cps sloc [] mems uses [])
  = Some (mk_sb path cps sloc
            [mk_struct_pkg (ct_data (cur_type R)) (mk_type_entry k true)
               (match nk with
                | struct_name_direct =>
                    mk_typename name_kind_direct 0
                      (dup_c_string (cur_spelling R))
                | _ => zero_typename
                end)
               sloc
               (match nk with
                | struct_name_direct => sloc
                | _ => zero_loc
                end)]
            mems uses
            (match nk with
             | struct_name_unnamed => [(ct_data (cur_type R), 0)]
             | _ => []
             end)).
Proof.
  intros Hk Hi Hn Hnk. unfold index_struct_record.
  rewrite Hi. cbn [negb]. rewrite (get_clang_type_indexable _ Hi).
  unfold extract_struct, extract_struct_name. rewrite Hk, Hn.
  destruct nk; [reflexivity|reflexivity|contradiction].
Qed.

Lemma index_struct_plain (ctx : index_ctx_t DB) R body k nk sloc0 :
  struct_sb ctx = mk_sb make_ast_path [] sloc0 [] [] [] [] ->
  extract_type_kind (cur_kind R) = Some k ->
  type_is_indexable (clang_getCanonicalType (cur_type R)) = true ->
  get_struct_name_kind R = Some nk ->
  nk <> struct_name_anon ->
  forallb (plain_member (ct_data (cur_type R)) [cur_id R]) body = true ->
  exists stack cnt loc sloc news,
    map (fun p => (mp_parent p, mp_entry p)) news
    = map (fun f => (ct_data (cur_type R),
                     mk_member (ct_data (cur_type R)) 0
                       (dup_c_string (cur_spelling f))))
        (flat_map promoted_fields body)
    /\ let ctx1 :=
         mk_ctx (ctx_db ctx) (file_map ctx) (type_map ctx) (ctx_path ctx) loc
           (mk_sb (mk_path stack cnt) [R] sloc
              [mk_struct_pkg (ct_data (cur_type R)) (mk_type_entry k true)
                 (match nk with
                  | struct_name_direct =>
                      mk_typename name_kind_direct 0
                        (dup_c_string (cur_spelling R))
                  | _ => zero_typename
                  end)
                 (ctx_loc ctx)
                 (match nk with
                  | struct_name_direct => ctx_loc ctx
                  | _ => zero_loc
                  end)]
              news []
              (match nk with
               | struct_name_unnamed => [(ct_data (cur_type R), 0)]
               | _ => []
               end))
           (last_struct ctx) in
       index_struct (Node R body) ctx
       = match nk with
         | struct_name_unnamed => Some (true, ctx1)
         | _ =>
             match commit_struct_scoreboard (struct_sb ctx1) ctx1 with
             | Some ctx2 =>
                 Some (false,
                       set_struct_sb ctx2
                         (reset_struct_scoreboard (struct_sb ctx2)))
             | None => None
             end
         end.
Proof.
  intros Hsb Hk Hi Hn Hnk Hp.
  pose proof (get_clang_type_indexable _ Hi) as Hg.
  destruct ctx as [db fm tm cpath loc sb ls]. cbn [struct_sb] in Hsb. subst sb.
  pose (sb1 := mk_sb make_ast_path [] loc
            [mk_struct_pkg (ct_data (cur_type R)) (mk_type_entry k true)
               (match nk with
                | struct_name_direct =>
                    mk_typename name_kind_direct 0
                      (dup_c_string (cur_spelling R))
                | _ => zero_typename
                end)
               loc
               (match nk with
                | struct_name_direct => loc
                | _ => zero_loc
                end)]
            [] []
            (match nk with
             | struct_name_unnamed => [(ct_data (cur_type R), 0)]
             | _ => []
             end)).
  destruct (index_struct_children_plain
              (mk_ctx db fm tm cpath loc sb1 ls) R body (ct_data (cur_type R)))
    as (stack & cnt & loc' & sloc' & news & E & M).
  { exact Hg. }
  { cbn [struct_sb sb1 unnamed_types]. intros k0 v.
    destruct nk; cbn; try discriminate.
    destruct (ct_data (cur_type R) =? k0) eqn:Ek; [|discriminate].
    intros _. symmetry. apply Z.eqb_eq. exact Ek. }
  { exact Hp. }
  exists stack, cnt, loc', sloc', news. split; [exact M|].
  cbn zeta. unfold index_struct.
  cbn [struct_sb new_types ctx_loc set_sb_loc sb_path current_parent_stack
       sb_loc sb_members sb_type_uses unnamed_types].
  rewrite Hg, Hi. cbn [negb].
  change (set_sb_loc _ _) with (mk_sb make_ast_path [] loc [] [] [] []).
  rewrite (index_struct_record_named R k nk make_ast_path [] loc [] []
             Hk Hi Hn Hnk).
  change (set_struct_sb (mk_ctx _ _ _ _ _ _ _) _) with (mk_ctx db fm tm cpath loc sb1 ls).
  rewrite E.
  cbn [struct_sb new_types sb1 pkg_type_id unnamed_types ctx_db file_map
       type_map ctx_path last_struct current_parent_stack sb_members
       sb_type_uses app].
  rewrite Z.eqb_refl. cbn [negb].
  destruct nk; [|cbn; rewrite Z.eqb_refl; reflexivity|contradiction].
  reflexivity.
Qed.
End Staging.

(* ------------------------------------------------------------------ *)
(** ** cf_index.c: the commit on the in-memory store *)




Section MemCommit.
Variable uninit_loc : loc_ctx_t.




End MemCommit.

Lemma update_location_frame {DB : Type} (ctx : index_ctx_t DB) c :
  exists loc, update_location ctx c = set_ctx_loc ctx loc.
Proof.
  unfold update_location. destruct (file_map_lookup _ _).
  - eexists. reflexivity.
  - exists (ctx_loc ctx). destruct ctx. reflexivity.
Qed.

Section TopLevel.
Context {DB : Type} {store : Store DB}.

Lemma index_ast_node_tag (ctx : index_ctx_t DB) R body parent k :
  extract_type_kind (cur_kind R) = Some k ->
  type_is_indexable (cur_type R) = true ->
  ct_incomplete (cur_type R) = false ->
  last_struct ctx = 0 ->
  index_ast_node (Node R body) parent ctx
  = match index_struct (Node R body) (update_location ctx R) with
    | None => None
    | Some (true, ctx5) =>
        match get_clang_type (cur_type R) with
        | None => None
        | Some t => Some (CXChildVisit_Continue, set_last_struct ctx5 t)
        end
    | Some (false, ctx5) => Some (CXChildVisit_Continue, ctx5)
    end.
Proof.
  intros Hk Hi Hc Hl. unfold index_ast_node, cursor_is_indexable.
  assert (Hu : user_type_is_indexable R = Some true).
  { unfold user_type_is_indexable. rewrite Hi, Hc. reflexivity. }
  assert (Hl' : last_struct (update_location ctx R) = 0).
  { unfold update_location. destruct (file_map_lookup _ _); exact Hl. }
  unfold extract_type_kind in Hk.
  destruct (cur_kind R); try discriminate Hk; rewrite Hu, Hl';
    cbn [Z.eqb negb]; reflexivity.
Qed.

Lemma iterate_children_cb_root (node : ast) root (ctx : index_ctx_t DB) cnt :
  ctx_path ctx = mk_path [root] cnt ->
  iterate_children_cb ctx_path set_ctx_path index_ast_node nop node root ctx
  = match index_ast_node node root
            (set_ctx_path ctx (mk_path [root] (wrap32 (cnt + 1)))) with
    | None => None
    | Some (CXChildVisit_Recurse, st2) =>
        Some (CXChildVisit_Recurse,
              set_ctx_path st2
                (mk_path (ast_cursor node :: parent_stack (ctx_path st2))
                   (count (ctx_path st2))))
    | Some (CXChildVisit_Continue, st2) => Some (CXChildVisit_Continue, st2)
    end.
Proof.
  intros Hp. unfold iterate_children_cb.
  destruct ctx as [db fm tm cpath loc sb ls]. cbn [ctx_path] in Hp. subst cpath.
  cbn [ctx_path set_ctx_path parent_stack count ascend].
  unfold clang_equalCursors. rewrite Z.eqb_refl.
  cbn [ctx_db file_map type_map ctx_loc struct_sb last_struct].
  destruct (index_ast_node _ _ _) as [[[|] st2]|]; reflexivity.
Qed.

End TopLevel.


(* ------------------------------------------------------------------ *)
(** ** cf_index.c: a record with anonymous members *)





(* ------------------------------------------------------------------ *)
(** ** cf_index.c: an unnamed record and its declarator *)

Lemma get_clang_type_cursor ct :
  type_is_indexable ct = true ->
  type_is_indexable (clang_getCanonicalType ct) = true ->
  get_clang_type ct = Some (ct_data ct).
Proof.
  unfold get_clang_type, type_is_indexable, clang_getCanonicalType. cbn.
  destruct (ct_kind ct); try discriminate;
    destruct (ct_canonical_kind ct); intros; try discriminate; reflexivity.
Qed.




(* ------------------------------------------------------------------ *)
(** ** token.c: the tokenizer on a laid out line *)

Lemma string_length_app (a b : string) :
  String.length (a ++ b) = (String.length a + String.length b)%nat.
Proof. induction a as [|c a IH]; cbn; [reflexivity|rewrite IH; reflexivity]. Qed.

Lemma string_app_assoc (a b c : string) : ((a ++ b) ++ c = a ++ (b ++ c))%string.
Proof. induction a as [|x a IH]; cbn; [reflexivity|rewrite IH; reflexivity]. Qed.

Lemma string_app_nil_r (a : string) : (a ++ "")%string = a.
Proof. induction a as [|x a IH]; cbn; [reflexivity|rewrite IH; reflexivity]. Qed.

Lemma string_drop_app (pre x : string) :
  string_drop (String.length pre) (pre ++ x) = x.
Proof. induction pre as [|c pre IH]; cbn; [reflexivity|exact IH]. Qed.

Lemma substring_app (pre w r : string) :
  substring (String.length pre) (String.length w) (pre ++ w ++ r) = w.
Proof.
  induction pre as [|c pre IH]; cbn [String.length append substring].
  - induction w as [|x w IHw]; cbn.
    + destruct r; reflexivity.
    + rewrite IHw. reflexivity.
  - exact IH.
Qed.

Lemma string_get_app (pre : string) c x :
  String.get (String.length pre) (pre ++ String c x) = Some c.
Proof. induction pre as [|y pre IH]; cbn; [reflexivity|exact IH]. Qed.

Lemma scan_delims_blank (d x : string) :
  is_blank d = true ->
  scan_delims (d ++ x) = (String.length d + scan_delims x)%nat.
Proof.
  unfold is_blank.
  induction d as [|c d IH]; cbn [append scan_delims string_forallb String.length];
    [reflexivity|].
  intros H. apply andb_prop in H. destruct H as [-> H].
  rewrite (IH H). reflexivity.
Qed.

Lemma scan_token_word (w r : string) :
  string_forallb (fun c => negb (is_delim c)) w = true ->
  ends_word r = true ->
  scan_token (w ++ r) = String.length w.
Proof.
  intros Hw Hr. induction w as [|c w IH];
    cbn [append scan_token string_forallb] in *.
  - destruct r as [|c r]; [reflexivity|]. cbn [ends_word] in Hr.
    cbn [scan_token]. rewrite Hr. reflexivity.
  - apply andb_prop in Hw. destruct Hw as [Hc Hw].
    apply negb_true_iff in Hc. rewrite Hc, (IH Hw). reflexivity.
Qed.

Lemma is_word_cons w :
  is_word w = true ->
  exists c w', w = String c w' /\ is_delim c = false
               /\ string_forallb (fun c => negb (is_delim c)) w' = true.
Proof.
  unfold is_word. destruct w as [|c w]; [discriminate|].
  cbn [String.eqb negb andb string_forallb]. intros H. apply andb_prop in H. destruct H as [Hc Hw].
  apply negb_true_iff in Hc. eauto.
Qed.

(** The position the scan of [tok_iter_next] starts from. *)
Lemma tok_iter_next_word ts c e (pre d w r : string) :
  str ts = (pre ++ d ++ w ++ r)%string ->
  match c with None => O | Some _ => e end = String.length pre ->
  is_blank d = true -> is_word w = true -> ends_word r = true ->
  tok_iter_next (mk_tok_iter ts c e)
  = (Ok true,
     mk_tok_iter ts (Some (String.length pre + String.length d)%nat)
       (String.length pre + String.length d + String.length w)%nat).
Proof.
  intros Hs He Hd Hw Hr.
  destruct (is_word_cons w Hw) as (x & w' & -> & Hx & Hw').
  unfold tok_iter_next. cbn [ti_str ti_cur ti_end]. rewrite He, Hs.
  rewrite string_drop_app, (scan_delims_blank _ _ Hd).
  cbn [append scan_delims]. rewrite Hx, Nat.add_0_r.
  rewrite !string_length_app. cbn [String.length].
  replace (pre ++ d ++ String x (w' ++ r))%string
    with ((pre ++ d) ++ String x (w' ++ r))%string
    by apply string_app_assoc.
  rewrite <- string_length_app, string_get_app, Hx.
  replace (String.length (pre ++ d) + 1)%nat
    with (String.length ((pre ++ d) ++ String x "")).
  2:{ rewrite string_length_app. reflexivity. }
  replace ((pre ++ d) ++ String x (w' ++ r))%string
    with (((pre ++ d) ++ String x "") ++ (w' ++ r))%string.
  2:{ rewrite string_app_assoc. reflexivity. }
  rewrite string_drop_app, (scan_token_word _ _ Hw' Hr).
  rewrite !string_length_app. cbn [String.length].
  destruct (Nat.eqb_spec (String.length pre + String.length d)
              (String.length pre
               + (String.length d + (S (String.length w' + String.length r)))))
    as [E|_]; [lia|].
  f_equal. f_equal. lia.
Qed.

Lemma tok_iter_next_blank ts c e (pre d : string) :
  str ts = (pre ++ d)%string ->
  match c with None => O | Some _ => e end = String.length pre ->
  is_blank d = true ->
  tok_iter_next (mk_tok_iter ts c e)
  = (Ok false, mk_tok_iter ts c (String.length pre)).
Proof.
  intros Hs He Hd. unfold tok_iter_next. cbn [ti_str ti_cur ti_end].
  rewrite He, Hs, string_drop_app.
  replace d with (d ++ "")%string at 1 by apply string_app_nil_r.
  rewrite (scan_delims_blank _ _ Hd). cbn [scan_delims].
  rewrite string_length_app, Nat.add_0_r, Nat.eqb_refl. reflexivity.
Qed.

Lemma tok_iter_peek_word ts (pre d w r : string) :
  str ts = (pre ++ d ++ w ++ r)%string ->
  is_word w = true ->
  Z.of_nat (String.length w) <= CF_STR_MAX_LEN ->
  tok_iter_peek
    (mk_tok_iter ts (Some (String.length pre + String.length d)%nat)
       (String.length pre + String.length d + String.length w)%nat)
  = Ok (cf_str_borrow w).
Proof.
  intros Hs Hw Hlen.
  destruct (is_word_cons w Hw) as (x & w' & -> & _ & _).
  unfold tok_iter_peek. cbn [ti_cur ti_end ti_str].
  destruct (Nat.leb_spec
              (String.length pre + String.length d
               + String.length (String x w'))
              (String.length pre + String.length d)) as [E|_];
    [cbn in E; lia|].
  replace (String.length pre + String.length d
           + String.length (String x w')
           - (String.length pre + String.length d))%nat
    with (String.length (String x w')) by lia.
  assert ((Z.of_nat (String.length (String x w')) >? CF_STR_MAX_LEN) = false)
    as -> by (rewrite Z.gtb_ltb; apply Z.ltb_ge; lia).
  rewrite Hs, <- string_length_app.
  replace (pre ++ d ++ String x w' ++ r)%string
    with ((pre ++ d) ++ String x w' ++ r)%string
    by apply string_app_assoc.
  rewrite substring_app. reflexivity.
Qed.

Lemma is_blank_ends_word t : is_blank t = true -> ends_word t = true.
Proof.
  unfold is_blank. destruct t as [|c t]; [reflexivity|].
  cbn [string_forallb ends_word]. intros H. apply andb_prop in H. tauto.
Qed.

Lemma separated_ends_word l t :
  separated l = true -> is_blank t = true ->
  ends_word (laid_out l ++ t) = true.
Proof.
  destruct l as [|[d w] rest]; cbn [separated laid_out append].
  - intros _. apply is_blank_ends_word.
  - intros H _. apply andb_prop in H. destruct H as [H _].
    apply andb_prop in H. destruct H as [H _].
    apply andb_prop in H. destruct H as [Hd Hne].
    destruct d as [|c d]; [discriminate Hne|].
    cbn [append ends_word]. unfold is_blank in Hd. cbn in Hd.
    apply andb_prop in Hd. tauto.
Qed.

Lemma separated_well_laid_out l :
  separated l = true -> well_laid_out l = true.
Proof.
  destruct l as [|[d w] rest]; cbn [separated well_laid_out]; [reflexivity|].
  intros H. apply andb_prop in H. destruct H as [H Hs].
  apply andb_prop in H. destruct H as [H Hw].
  apply andb_prop in H. destruct H as [Hd _].
  rewrite Hd, Hw, Hs. reflexivity.
Qed.

Lemma tok_iter_collect_laid_out t :
  is_blank t = true ->
  forall l pre ts c e fuel,
  well_laid_out l = true ->
  str ts = (pre ++ laid_out l ++ t)%string ->
  match c with None => O | Some _ => e end = String.length pre ->
  Z.of_nat (String.length (laid_out l)) <= CF_STR_MAX_LEN ->
  (List.length l < fuel)%nat ->
  tok_iter_collect fuel (mk_tok_iter ts c e)
  = Some (Ok (map (fun p => cf_str_borrow (snd p)) l)).
Proof.
  intros Ht. induction l as [|[d w] rest IH];
    intros pre ts c e fuel Hl Hs He Hlen Hf.
  - destruct fuel as [|fuel]; [cbn in Hf; lia|].
    cbn [tok_iter_collect laid_out append] in *.
    rewrite (tok_iter_next_blank ts c e pre t Hs He Ht). reflexivity.
  - destruct fuel as [|fuel]; [cbn in Hf; lia|].
    cbn [well_laid_out] in Hl. apply andb_prop in Hl. destruct Hl as [Hl Hsep].
    apply andb_prop in Hl. destruct Hl as [Hd Hw].
    cbn [laid_out] in Hs, Hlen.
    assert (Hs' : str ts = (pre ++ d ++ w ++ laid_out rest ++ t)%string).
    { rewrite Hs. rewrite !string_app_assoc. reflexivity. }
    rewrite !string_length_app in Hlen.
    cbn [tok_iter_collect].
    rewrite (tok_iter_next_word ts c e pre d w (laid_out rest ++ t) Hs' He Hd Hw
               (separated_ends_word rest t Hsep Ht)).
    rewrite (tok_iter_peek_word ts pre d w (laid_out rest ++ t) Hs' Hw)
      by lia.
    rewrite (IH ((pre ++ d) ++ w)%string ts
               (Some (String.length pre + String.length d)%nat)
               (String.length pre + String.length d + String.length w)%nat
               fuel (separated_well_laid_out rest Hsep)).
    + reflexivity.
    + rewrite Hs'. rewrite !string_app_assoc. reflexivity.
    + rewrite !string_length_app. reflexivity.
    + lia.
    + cbn [List.length] in Hf. lia.
Qed.

Lemma is_word_length w : is_word w = true -> (1 <= String.length w)%nat.
Proof.
  intros H. destruct (is_word_cons w H) as (c & w' & -> & _). cbn. lia.
Qed.

Lemma separated_length l :
  separated l = true -> (List.length l <= String.length (laid_out l))%nat.
Proof.
  induction l as [|[d w] rest IH]; cbn [List.length laid_out separated];
    [lia|].
  intros H. apply andb_prop in H. destruct H as [H Hs].
  apply andb_prop in H. destruct H as [_ Hw].
  rewrite !string_length_app. pose proof (is_word_length w Hw).
  specialize (IH Hs). lia.
Qed.

Lemma well_laid_out_length l :
  well_laid_out l = true ->
  (List.length l <= String.length (laid_out l))%nat.
Proof.
  destruct l as [|[d w] rest]; cbn [List.length laid_out well_laid_out];
    [lia|].
  intros H. apply andb_prop in H. destruct H as [H Hs].
  apply andb_prop in H. destruct H as [_ Hw].
  rewrite !string_length_app. pose proof (is_word_length w Hw).
  pose proof (separated_length rest Hs). lia.
Qed.

Lemma tokens_of_laid_out l t b :
  well_laid_out l = true -> is_blank t = true ->
  Z.of_nat (String.length (laid_out l ++ t)) <= CF_STR_MAX_LEN ->
  tokens (mk_str (laid_out l ++ t) b)
  = Some (Ok (map (fun p => cf_str_borrow (snd p)) l)).
Proof.
  intros Hl Ht Hlen. unfold tokens, tok_iter_make, cf_str_borrow_str.
  cbn [str]. rewrite string_length_app in Hlen.
  apply (tok_iter_collect_laid_out t Ht l ""%string); auto.
  - lia.
  - rewrite string_length_app. pose proof (well_laid_out_length l Hl). lia.
Qed.

(** Every string is laid out in one way or another. *)
Lemma blank_prefix (s : string) :
  exists d x, s = (d ++ x)%string /\ is_blank d = true
              /\ match x with
                 | EmptyString => True
                 | String c _ => is_delim c = false
                 end.
Proof.
  induction s as [|c s IH].
  - exists ""%string, ""%string. auto.
  - destruct (is_delim c) eqn:Hc.
    + destruct IH as (d & x & -> & Hd & Hx).
      exists (String c d), x. cbn [append]. split; [reflexivity|].
      split; [|exact Hx]. unfold is_blank in *. cbn [string_forallb].
      rewrite Hc, Hd. reflexivity.
    + exists ""%string, (String c s). auto.
Qed.

Lemma word_prefix (s : string) c :
  is_delim c = false ->
  exists w r, String c s = (w ++ r)%string /\ is_word w = true
              /\ ends_word r = true.
Proof.
  revert c. induction s as [|c' s IH]; intros c Hc.
  - exists (String c ""), ""%string. unfold is_word.
    cbn [String.eqb negb andb string_forallb append]. rewrite Hc. auto.
  - destruct (is_delim c') eqn:Hc'.
    + exists (String c ""), (String c' s). unfold is_word.
      cbn [String.eqb negb andb string_forallb append ends_word].
      rewrite Hc. auto.
    + destruct (IH c' Hc') as (w & r & E & Hw & Hr).
      exists (String c w), r. cbn [append]. rewrite E. split; [reflexivity|].
      split; [|exact Hr].
      destruct (is_word_cons w Hw) as (x & w' & -> & Hx & Hw').
      unfold is_word. cbn [String.eqb negb andb string_forallb].
      rewrite Hc, Hx, Hw'. reflexivity.
Qed.

Lemma every_string_laid_out :
  forall n (s : string), (String.length s <= n)%nat ->
  ends_word s = true ->
  exists l t, s = (laid_out l ++ t)%string /\ separated l = true
              /\ is_blank t = true.
Proof.
  induction n as [|n IH]; intros s Hn He.
  - destruct s; [|cbn in Hn; lia]. exists [], ""%string. auto.
  - destruct (blank_prefix s) as (d & x & -> & Hd & Hx).
    destruct x as [|c x].
    + exists [], d. rewrite string_app_nil_r. auto.
    + destruct (word_prefix x c Hx) as (w & r & E & Hw & Hr).
      rewrite E in *. clear E.
      destruct d as [|c0 d].
      { (* the string starts with a word: excluded by ends_word *)
        cbn [append] in He.
        destruct (is_word_cons w Hw) as (y & w' & -> & Hy & _).
        cbn [append ends_word] in He. congruence. }
      destruct (IH r) as (l & t & -> & Hl & Ht).
      { rewrite !string_length_app in Hn. cbn [String.length] in Hn.
        pose proof (is_word_length w Hw). lia. }
      { exact Hr. }
      exists ((String c0 d, w) :: l), t. cbn [laid_out separated].
      rewrite !string_app_assoc. split; [reflexivity|].
      rewrite Hd, Hw, Hl. auto.
Qed.

Lemma every_string_well_laid_out (s : string) :
  exists l t, s = (laid_out l ++ t)%string /\ well_laid_out l = true
              /\ is_blank t = true.
Proof.
  destruct (blank_prefix s) as (d & x & -> & Hd & Hx).
  destruct x as [|c x].
  - exists [], d. rewrite string_app_nil_r. auto.
  - destruct (word_prefix x c Hx) as (w & r & E & Hw & Hr). rewrite E.
    destruct (every_string_laid_out (String.length r) r (le_n _) Hr)
      as (l & t & -> & Hl & Ht).
    exists ((d, w) :: l), t. cbn [laid_out well_laid_out].
    rewrite !string_app_assoc. split; [reflexivity|].
    rewrite Hd, Hw, Hl. auto.
Qed.

(** str2uint64 *)
Lemma is_digit_value c :
  is_digit c = true ->
  0 <= Z.of_nat (nat_of_ascii c) - 48 <= 9.
Proof.
  unfold is_digit. cbv zeta. intros H. apply andb_prop in H.
  destruct H as [H1 H2]. apply Z.leb_le in H1. apply Z.leb_le in H2. lia.
Qed.

Lemma decimal_value_ge s :
  forall acc, string_forallb is_digit s = true -> 0 <= acc ->
  acc <= decimal_value s acc.
Proof.
  induction s as [|c s IH]; intros acc Hd Hacc; cbn [decimal_value]; [lia|].
  cbn [string_forallb] in Hd. apply andb_prop in Hd. destruct Hd as [Hc Hs].
  pose proof (is_digit_value c Hc).
  specialize (IH (acc * 10 + (Z.of_nat (nat_of_ascii c) - 48)) Hs). lia.
Qed.

Lemma str2uint64_loop_value s :
  forall val, string_forallb is_digit s = true -> 0 <= val ->
  decimal_value s val <= UINT64_MAX ->
  str2uint64_loop s val = Some (decimal_value s val).
Proof.
  induction s as [|c s IH]; intros val Hd Hval Hmax;
    cbn [decimal_value str2uint64_loop]; [reflexivity|].
  cbn [string_forallb] in Hd. apply andb_prop in Hd. destruct Hd as [Hc Hs].
  pose proof (is_digit_value c Hc) as Hv.
  cbn [decimal_value] in Hmax.
  pose proof (decimal_value_ge s
                (val * 10 + (Z.of_nat (nat_of_ascii c) - 48)) Hs) as Hge.
  unfold UINT64_MAX in *.
  replace (val * 10 >? 2 ^ 64 - 1) with false
    by (symmetry; rewrite Z.gtb_ltb; apply Z.ltb_ge; lia).
  unfold char2int. rewrite Hc.
  rewrite (Z.mod_small (Z.of_nat (nat_of_ascii c) - 48)) by lia.
  unfold wrap64. rewrite Z.mod_small by lia.
  apply IH; auto; lia.
Qed.

Lemma str2uint64_loop_nondigit s :
  forall val, string_forallb is_digit s = false ->
  str2uint64_loop s val = None.
Proof.
  induction s as [|c s IH]; intros val Hd; [discriminate Hd|].
  cbn [string_forallb] in Hd. cbn [str2uint64_loop].
  destruct (val * 10 >? UINT64_MAX); [reflexivity|].
  unfold char2int. destruct (is_digit c); [|reflexivity].
  apply IH. exact Hd.
Qed.

(** The tokenizer, step by step *)
Lemma tok_iter_at_make s r :
  str s = r -> Z.of_nat (String.length r) <= CF_STR_MAX_LEN ->
  tok_iter_at (tok_iter_make s) r.
Proof.
  intros <- Hlen. unfold tok_iter_at, tok_iter_make, cf_str_borrow_str.
  cbn [ti_str ti_cur ti_end str cf_str_borrow]. split; [exact Hlen|].
  exists ""%string. auto.
Qed.

Lemma tok_iter_at_word it (d w r : string) :
  tok_iter_at it (d ++ w ++ r) ->
  is_blank d = true -> is_word w = true -> ends_word r = true ->
  exists it',
    tok_iter_next it = (Ok true, it')
    /\ tok_iter_peek it' = Ok (cf_str_borrow w)
    /\ tok_iter_at it' r.
Proof.
  intros [Hlen (pre & Hs & He)] Hd Hw Hr. destruct it as [ts c e].
  cbn [ti_str ti_cur ti_end] in *.
  exists (mk_tok_iter ts (Some (String.length pre + String.length d)%nat)
            (String.length pre + String.length d + String.length w)%nat).
  split; [|split].
  - apply (tok_iter_next_word ts c e pre d w r); assumption.
  - apply (tok_iter_peek_word ts pre d w r); auto.
    rewrite Hs in Hlen. rewrite !string_length_app in Hlen. lia.
  - split; cbn [ti_str ti_cur ti_end]; [exact Hlen|].
    exists (pre ++ d ++ w)%string. rewrite !string_length_app.
    rewrite Hs, !string_app_assoc. split; [reflexivity|lia].
Qed.

Lemma tok_iter_at_blank it (t : string) :
  tok_iter_at it t -> is_blank t = true ->
  exists it', tok_iter_next it = (Ok false, it') /\ tok_iter_at it' t.
Proof.
  intros [Hlen (pre & Hs & He)] Ht. destruct it as [ts c e].
  cbn [ti_str ti_cur ti_end] in *.
  exists (mk_tok_iter ts c (String.length pre)). split.
  - apply (tok_iter_next_blank ts c e pre t); assumption.
  - split; cbn [ti_str ti_cur ti_end]; [exact Hlen|].
    exists pre. split; [exact Hs|]. destruct c; [reflexivity|exact He].
Qed.

(** What is left of a command line after its arguments: further words
    and a blank. *)
Lemma tok_iter_at_rest it l t :
  tok_iter_at it (laid_out l ++ t) ->
  separated l = true -> is_blank t = true ->
  (exists it', tok_iter_next it = (Ok false, it'))
  \/ (exists it' tok, tok_iter_next it = (Ok true, it')
                      /\ tok_iter_peek it' = Ok tok).
Proof.
  intros Hat Hl Ht. destruct l as [|[d w] rest].
  - left. cbn [laid_out append] in Hat.
    destruct (tok_iter_at_blank it t Hat Ht) as (it' & E & _). eauto.
  - right. cbn [laid_out separated] in *.
    apply andb_prop in Hl. destruct Hl as [Hl Hs].
    apply andb_prop in Hl. destruct Hl as [Hl Hw].
    apply andb_prop in Hl. destruct Hl as [Hd _].
    rewrite !string_app_assoc in Hat.
    destruct (tok_iter_at_word it d w (laid_out rest ++ t) Hat Hd Hw)
      as (it' & E1 & E2 & _).
    { apply separated_ends_word; assumption. }
    eauto.
Qed.

(** parse.c, function by function *)
Lemma digits_word n :
  n <> EmptyString -> string_forallb is_digit n = true -> is_word n = true.
Proof.
  intros Hne Hd. unfold is_word.
  destruct n as [|c n]; [congruence|]. cbn [String.eqb negb andb].
  revert Hd. generalize (String c n). clear. intros s.
  induction s as [|c s IH]; cbn [string_forallb]; [reflexivity|].
  intros H. apply andb_prop in H. destruct H as [Hc Hs].
  rewrite (IH Hs), andb_true_r.
  destruct c as [[] [] [] [] [] [] [] []]; try reflexivity;
    vm_compute in Hc; discriminate Hc.
Qed.

Lemma str2elab_keyword kw :
  In kw ["struct"; "union"; "enum"]%string ->
  str2elab (cf_str_borrow kw) <> name_none
  /\ exists c r, kw = String c r /\ is_digit c = false.
Proof.
  intros [<-|[<-|[<-|[]]]]; (split; [vm_compute; discriminate|]);
    eexists; eexists; (split; [reflexivity|vm_compute; reflexivity]).
Qed.

Lemma litcmp_eq lit w : litcmp lit (cf_str_borrow w) = true -> w = lit.
Proof.
  unfold litcmp, memcmp_eq0, cf_str_borrow. cbn [str].
  destruct (negb _); [discriminate|].
  intros H. apply String.eqb_eq in H. congruence.
Qed.

Lemma str2elab_plain w :
  ~ In w ["struct"; "union"; "enum"]%string ->
  str2elab (cf_str_borrow w) = name_none.
Proof.
  intros Hn. unfold str2elab.
  destruct (litcmp "struct" _) eqn:E1;
    [apply litcmp_eq in E1; subst; exfalso; apply Hn; cbn; tauto|].
  destruct (litcmp "union" _) eqn:E2;
    [apply litcmp_eq in E2; subst; exfalso; apply Hn; cbn; tauto|].
  destruct (litcmp "enum" _) eqn:E3;
    [apply litcmp_eq in E3; subst; exfalso; apply Hn; cbn; tauto|].
  reflexivity.
Qed.

Lemma command_string2kind_unknown w :
  ~ In w ["td"; "typedecl"; "tn"; "typename"; "md"; "memberdecl"]%string ->
  command_string2kind (cf_str_borrow w) = None.
Proof.
  intros Hn. unfold command_string2kind.
  repeat match goal with
  | |- context [litcmp ?l ?s] =>
      let E := fresh "E" in
      destruct (litcmp l s) eqn:E;
      [apply litcmp_eq in E; subst; exfalso; apply Hn; cbn; tauto|]
  end.
  reflexivity.
Qed.

Lemma parse_command_verb_at it (d w r : string) :
  tok_iter_at it (d ++ w ++ r) ->
  is_blank d = true -> is_word w = true -> ends_word r = true ->
  exists it',
    parse_command_verb it
    = (match command_string2kind (cf_str_borrow w) with
       | Some cmd => Ok cmd
       | None => Err EINVAL
       end, it')
    /\ tok_iter_at it' r.
Proof.
  intros Hat Hd Hw Hr.
  destruct (tok_iter_at_word it d w r Hat Hd Hw Hr) as (it' & E1 & E2 & Hat').
  exists it'. split; [|exact Hat'].
  unfold parse_command_verb. rewrite E1, E2.
  destruct (command_string2kind (cf_str_borrow w)); reflexivity.
Qed.

Lemma parse_type_search_id it (d n r : string) :
  tok_iter_at it (d ++ n ++ r) ->
  is_blank d = true -> n <> EmptyString ->
  string_forallb is_digit n = true -> ends_word r = true ->
  decimal_value n 0 <= UINT64_MAX ->
  exists it',
    parse_type_search it
    = (if decimal_value n 0 >? INT64_MAX then Err ERANGE
       else Ok (search_id (decimal_value n 0)), it')
    /\ tok_iter_at it' r.
Proof.
  intros Hat Hd Hne Hdig Hr Hmax.
  pose proof (digits_word n Hne Hdig) as Hw.
  destruct (tok_iter_at_word it d n r Hat Hd Hw Hr) as (it' & E1 & E2 & Hat').
  exists it'. split; [|exact Hat'].
  unfold parse_type_search. rewrite E1, E2.
  unfold cf_str_borrow at 1. cbn [str].
  destruct n as [|c n']; [congruence|]. cbn [String.get].
  pose proof Hdig as Hc. cbn [string_forallb] in Hc.
  apply andb_prop in Hc. destruct Hc as [Hc _]. rewrite Hc.
  unfold str2uint64, cf_str_len, cf_str_borrow. cbn [str String.length].
  replace (Z.of_nat (S (String.length n')) =? 0) with false
    by (symmetry; apply Z.eqb_neq; lia).
  rewrite (str2uint64_loop_value _ 0 Hdig (Z.le_refl 0) Hmax).
  destruct (Z.gtb_spec (decimal_value (String c n') 0) INT64_MAX);
    [reflexivity|].
  rewrite to_int64_small; [reflexivity|].
  pose proof (decimal_value_ge (String c n') 0 Hdig). lia.
Qed.

Lemma parse_type_search_bad_id it (d n r : string) c n' :
  tok_iter_at it (d ++ n ++ r) ->
  is_blank d = true -> is_word n = true -> ends_word r = true ->
  n = String c n' -> is_digit c = true ->
  string_forallb is_digit n = false ->
  exists it', parse_type_search it = (Err EINVAL, it').
Proof.
  intros Hat Hd Hw Hr -> Hc Hdig.
  destruct (tok_iter_at_word it d _ r Hat Hd Hw Hr) as (it' & E1 & E2 & Hat').
  exists it'. unfold parse_type_search. rewrite E1, E2.
  unfold cf_str_borrow. cbn [str String.get]. rewrite Hc.
  unfold str2uint64, cf_str_len. cbn [str String.length].
  replace (Z.of_nat (S (String.length n')) =? 0) with false
    by (symmetry; apply Z.eqb_neq; lia).
  rewrite (str2uint64_loop_nondigit _ 0 Hdig). reflexivity.
Qed.

Lemma parse_name_spec2_keyword tok it (d w r : string) :
  str2elab tok <> name_none ->
  tok_iter_at it (d ++ w ++ r) ->
  is_blank d = true -> is_word w = true -> ends_word r = true ->
  exists it',
    parse_name_spec2 tok it
    = (Ok tt, mk_name_spec (str2elab tok) (cf_str_borrow w), it')
    /\ tok_iter_at it' r.
Proof.
  intros Hk Hat Hd Hw Hr.
  destruct (tok_iter_at_word it d w r Hat Hd Hw Hr) as (it' & E1 & E2 & Hat').
  exists it'. split; [|exact Hat'].
  unfold parse_name_spec2. cbv zeta.
  destruct (str2elab tok); [congruence| | |];
    cbn [name_elab_eqb]; rewrite E1, E2; reflexivity.
Qed.

Lemma parse_name_spec2_dangling tok it (t : string) :
  str2elab tok <> name_none ->
  tok_iter_at it t -> is_blank t = true ->
  exists it',
    parse_name_spec2 tok it
    = (Err EINVAL, mk_name_spec (str2elab tok) cf_str_null, it')
    /\ tok_iter_at it' t.
Proof.
  intros Hk Hat Ht.
  destruct (tok_iter_at_blank it t Hat Ht) as (it' & E1 & Hat').
  exists it'. split; [|exact Hat'].
  unfold parse_name_spec2. cbv zeta.
  destruct (str2elab tok); [congruence| | |];
    cbn [name_elab_eqb]; rewrite E1; reflexivity.
Qed.

Lemma parse_name_spec2_plain tok it :
  str2elab tok = name_none ->
  parse_name_spec2 tok it
  = (Ok tt, mk_name_spec name_none (cf_str_borrow_str tok), it).
Proof.
  intros Hk. unfold parse_name_spec2. cbv zeta. rewrite Hk. reflexivity.
Qed.

(** The look at the tokens left over changes nothing. *)
Lemma parse_command_rest it l t (out : search_cmd_t) :
  tok_iter_at it (laid_out l ++ t) ->
  separated l = true -> is_blank t = true ->
  match tok_iter_next it with
  | (Ok true, iter3) =>
      match tok_iter_peek iter3 with
      | Ok _ => Ok out
      | Err e => Err e
      | Trap => Trap
      end
  | (Ok false, _) => Ok out
  | (Err e, _) => Err e
  | (Trap, _) => Trap
  end = Ok out.
Proof.
  intros Hat Hl Ht.
  destruct (tok_iter_at_rest it l t Hat Hl Ht)
    as [(it' & E)|(it' & tok & E1 & E2)].
  - rewrite E. reflexivity.
  - rewrite E1, E2. reflexivity.
Qed.

Lemma parse_command_verb_step b d0 verb tail t :
  well_laid_out ((d0, verb) :: tail) = true -> is_blank t = true ->
  Z.of_nat (String.length (laid_out ((d0, verb) :: tail) ++ t))
  <= CF_STR_MAX_LEN ->
  exists it1,
    parse_command_verb
      (tok_iter_make (mk_str (laid_out ((d0, verb) :: tail) ++ t) b))
    = (match command_string2kind (cf_str_borrow verb) with
       | Some cmd => Ok cmd
       | None => Err EINVAL
       end, it1)
    /\ tok_iter_at it1 (laid_out tail ++ t)
    /\ separated tail = true.
Proof.
  intros Hl Ht Hlen. cbn [well_laid_out] in Hl.
  apply andb_prop in Hl. destruct Hl as [Hl Hs].
  apply andb_prop in Hl. destruct Hl as [Hd Hw].
  assert (Hstr : (laid_out ((d0, verb) :: tail) ++ t
                  = d0 ++ verb ++ laid_out tail ++ t)%string)
    by (cbn [laid_out]; rewrite !string_app_assoc; reflexivity).
  assert (Hat : tok_iter_at
                  (tok_iter_make
                     (mk_str (laid_out ((d0, verb) :: tail) ++ t) b))
                  (d0 ++ verb ++ laid_out tail ++ t)).
  { apply tok_iter_at_make; [exact Hstr|]. rewrite <- Hstr. exact Hlen. }
  destruct (parse_command_verb_at _ d0 verb (laid_out tail ++ t) Hat Hd Hw)
    as (it1 & E & Hat1).
  { apply separated_ends_word; assumption. }
  exists it1. auto.
Qed.

Lemma separated_cons d w rest :
  separated ((d, w) :: rest) = true ->
  is_blank d = true /\ is_word w = true /\ separated rest = true
  /\ forall r, ends_word (d ++ r) = true.
Proof.
  cbn [separated]. intros H.
  apply andb_prop in H. destruct H as [H Hs].
  apply andb_prop in H. destruct H as [H Hw].
  apply andb_prop in H. destruct H as [Hd Hne].
  repeat split; auto. intros r.
  destruct d as [|c d]; [discriminate Hne|].
  cbn [append ends_word]. unfold is_blank in Hd. cbn [string_forallb] in Hd.
  apply andb_prop in Hd. tauto.
Qed.

Lemma word_first_byte w :
  is_word w = true -> exists c w', w = String c w'.
Proof.
  intros H. destruct (is_word_cons w H) as (c & w' & -> & _). eauto.
Qed.

(* ------------------------------------------------------------------ *)
(** ** parse.c, token.c: what a command line is read as *)

(** X1. [str2uint64] reads every non-empty string of decimal digits
    whose value fits in a [uint64_t], UINT64_MAX included, as that
    value. *)
Theorem str2uint64_decimal_value (s : string) (b : bool) :
  s <> EmptyString -> string_forallb is_digit s = true ->
  decimal_value s 0 <= UINT64_MAX ->
  str2uint64 (mk_str s b) = Some (decimal_value s 0).
Proof.
  intros Hne Hd Hmax. unfold str2uint64, cf_str_len. cbn [str].
  destruct s as [|c s]; [congruence|].
  cbn [String.length].
  replace (Z.of_nat (S (String.length s)) =? 0) with false
    by (symmetry; apply Z.eqb_neq; lia).
  apply str2uint64_loop_value; auto; lia.
Qed.

Lemma str2uint64_decimal_value_witness :
  ("18446744073709551615"%string <> EmptyString
   /\ string_forallb is_digit "18446744073709551615" = true
   /\ decimal_value "18446744073709551615" 0 <= UINT64_MAX)
  /\ str2uint64 (mk_str "18446744073709551615" true)
     = Some (decimal_value "18446744073709551615" 0).
Proof.
  assert (H1 : "18446744073709551615"%string <> EmptyString)
    by discriminate.
  assert (H2 : string_forallb is_digit "18446744073709551615" = true)
    by reflexivity.
  assert (H3 : decimal_value "18446744073709551615" 0 <= UINT64_MAX)
    by (vm_compute; discriminate).
  split; [auto|].
  exact (str2uint64_decimal_value "18446744073709551615" true H1 H2 H3).
Defined.

(** X2. [str2uint64] fails on the empty string and on every string
    that holds a byte other than a decimal digit: a sign, a blank or a
    hexadecimal prefix is not accepted. *)
Theorem str2uint64_rejects_non_numbers (s : string) (b : bool) :
  s = EmptyString \/ string_forallb is_digit s = false ->
  str2uint64 (mk_str s b) = None.
Proof.
  intros [->|Hd]; [reflexivity|].
  unfold str2uint64. cbn [str].
  destruct (cf_str_len _ =? 0); [reflexivity|].
  apply str2uint64_loop_nondigit. exact Hd.
Qed.

Lemma str2uint64_rejects_non_numbers_witness :
  ("-1"%string = EmptyString \/ string_forallb is_digit "-1" = false)
  /\ str2uint64 (mk_str "-1" true) = None.
Proof.
  assert (H : "-1"%string = EmptyString
              \/ string_forallb is_digit "-1" = false)
    by (right; reflexivity).
  split; [exact H|].
  exact (str2uint64_rejects_non_numbers "-1" true H).
Defined.

(** X3. Splitting undoes joining: for words [w1 .. wn] (non-empty, free
    of blanks and tabs) written one after the other, the first after
    any run of blanks and tabs, the others after a non-empty one, and
    followed by any such run, the loop over [tok_iter_next] and
    [tok_iter_peek] yields exactly [w1 .. wn], borrowed, in order. *)
Theorem tokens_laid_out (l : list (string * string)) (t : string) (b : bool) :
  well_laid_out l = true -> is_blank t = true ->
  Z.of_nat (String.length (laid_out l ++ t)) <= CF_STR_MAX_LEN ->
  tokens (mk_str (laid_out l ++ t) b)
  = Some (Ok (map (fun p => cf_str_borrow (snd p)) l)).
Proof.
  apply tokens_of_laid_out.
Qed.

Lemma tokens_laid_out_witness :
  (well_laid_out [("  ", "td"); (" ", "struct"); ("	 ", "foo")]%string = true
   /\ is_blank " " = true
   /\ Z.of_nat (String.length
                  (laid_out [("  ", "td"); (" ", "struct"); ("	 ", "foo")]
                   ++ " "))
      <= CF_STR_MAX_LEN)
  /\ tokens (mk_str "  td struct	 foo " false)
     = Some (Ok [cf_str_borrow "td"; cf_str_borrow "struct";
                 cf_str_borrow "foo"]).
Proof.
  assert (H1 : well_laid_out
                 [("  ", "td"); (" ", "struct"); ("	 ", "foo")]%string = true)
    by reflexivity.
  assert (H2 : is_blank " " = true) by reflexivity.
  assert (H3 : Z.of_nat (String.length
                  (laid_out [("  ", "td"); (" ", "struct"); ("	 ", "foo")]
                   ++ " "))
               <= CF_STR_MAX_LEN)
    by (vm_compute; discriminate).
  split; [auto|].
  exact (tokens_laid_out _ " " false H1 H2 H3).
Defined.

(** X4. On every string the tokenizer loop comes to an end without
    failing one of the assertions of token.c, and each token it yields
    is borrowed, has at least one byte and holds no blank and no tab. *)
Theorem tokens_are_words (s : string) (b : bool) :
  Z.of_nat (String.length s) <= CF_STR_MAX_LEN ->
  exists l,
    tokens (mk_str s b) = Some (Ok l)
    /\ Forall (fun tok => is_word (str tok) = true /\ borrowed tok = true) l.
Proof.
  intros Hlen.
  destruct (every_string_well_laid_out s) as (l & t & -> & Hl & Ht).
  exists (map (fun p => cf_str_borrow (snd p)) l). split.
  - apply tokens_of_laid_out; assumption.
  - apply Forall_forall. intros tok Hin. apply in_map_iff in Hin.
    destruct Hin as ([d w] & <- & Hin). cbn [snd cf_str_borrow str borrowed].
    split; [|reflexivity].
    clear - Hl Hin. destruct l as [|[d0 w0] rest]; [destruct Hin|].
    cbn [well_laid_out] in Hl.
    apply andb_prop in Hl. destruct Hl as [Hl Hs].
    apply andb_prop in Hl. destruct Hl as [_ Hw0].
    destruct Hin as [E|Hin]; [congruence|].
    induction rest as [|[d1 w1] rest IH]; [destruct Hin|].
    destruct (separated_cons _ _ _ Hs) as (_ & Hw1 & Hs' & _).
    destruct Hin as [E|Hin]; [congruence|]. apply IH; assumption.
Qed.

Lemma tokens_are_words_witness :
  Z.of_nat (String.length "md  foo bar") <= CF_STR_MAX_LEN
  /\ exists l,
       tokens (mk_str "md  foo bar" false) = Some (Ok l)
       /\ Forall (fun tok => is_word (str tok) = true /\ borrowed tok = true)
            l.
Proof.
  assert (H : Z.of_nat (String.length "md  foo bar") <= CF_STR_MAX_LEN)
    by (vm_compute; discriminate).
  split; [exact H|].
  exact (tokens_are_words "md  foo bar" false H).
Defined.

(** X5. Once [tok_iter_next] has returned false it returns false on
    every later call and leaves the iterator as it is. *)
Theorem tok_iter_next_stays_false (it it' : cf_tok_iter_t) :
  tok_iter_next it = (Ok false, it') ->
  tok_iter_next it' = (Ok false, it').
Proof.
  unfold tok_iter_next. cbv zeta.
  destruct it as [ts c e]. cbn [ti_str ti_cur ti_end].
  set (end0 := match c with None => O | Some _ => e end).
  destruct (Nat.eqb _ _) eqn:E.
  - intros H. injection H as <-. cbn [ti_str ti_cur ti_end].
    assert (E0 : match c with None => O | Some _ => end0 end = end0)
      by (subst end0; destruct c; reflexivity).
    rewrite E0, E. reflexivity.
  - destruct (String.get _ _); [|discriminate].
    destruct (is_delim _); discriminate.
Qed.

Lemma tok_iter_next_stays_false_witness :
  tok_iter_next (mk_tok_iter (cf_str_borrow "td ") (Some 0%nat) 2)
  = (Ok false, mk_tok_iter (cf_str_borrow "td ") (Some 0%nat) 2)
  /\ tok_iter_next (mk_tok_iter (cf_str_borrow "td ") (Some 0%nat) 2)
     = (Ok false, mk_tok_iter (cf_str_borrow "td ") (Some 0%nat) 2).
Proof.
  assert (H : tok_iter_next (mk_tok_iter (cf_str_borrow "td ") (Some 0%nat) 2)
              = (Ok false, mk_tok_iter (cf_str_borrow "td ") (Some 0%nat) 2))
    by reflexivity.
  split; [exact H|].
  exact (tok_iter_next_stays_false _ _ H).
Defined.

(** A type search by number, whatever follows the number. *)
Lemma parse_command_td_number
    (d0 verb d1 n : string) (rest : list (string * string)) (t : string)
    (b : bool) :
  well_laid_out ((d0, verb) :: (d1, n) :: rest) = true ->
  is_blank t = true ->
  Z.of_nat (String.length (laid_out ((d0, verb) :: (d1, n) :: rest) ++ t))
  <= CF_STR_MAX_LEN ->
  verb = "td"%string \/ verb = "typedecl"%string ->
  string_forallb is_digit n = true ->
  decimal_value n 0 <= UINT64_MAX ->
  parse_command (mk_str (laid_out ((d0, verb) :: (d1, n) :: rest) ++ t) b)
  = if decimal_value n 0 >? INT64_MAX then Err ERANGE
    else Ok (cmd_type_decl (search_id (decimal_value n 0))).
Proof.
  intros Hl Ht Hlen Hverb Hdig Hmax.
  destruct (parse_command_verb_step b d0 verb _ t Hl Ht Hlen)
    as (it1 & E1 & Hat1 & Hs).
  assert (Hk : command_string2kind (cf_str_borrow verb)
               = Some search_type_decl)
    by (destruct Hverb; subst; reflexivity).
  rewrite Hk in E1.
  destruct (separated_cons _ _ _ Hs) as (Hd1 & Hn & Hrest & _).
  cbn [laid_out] in Hat1. rewrite !string_app_assoc in Hat1.
  destruct (parse_type_search_id it1 d1 n (laid_out rest ++ t) Hat1 Hd1)
    as (it2 & E2 & Hat2); auto.
  { destruct (word_first_byte n Hn) as (c & n' & ->). discriminate. }
  { apply separated_ends_word; assumption. }
  unfold parse_command. cbv zeta. rewrite E1. cbv beta iota. rewrite E2.
  destruct (decimal_value n 0 >? INT64_MAX); [reflexivity|].
  cbv beta iota.
  apply (parse_command_rest it2 rest t); assumption.
Qed.

(** X6. A line [td N] or [typedecl N], with N a decimal number that a
    [uint64_t] holds, asks for the type with row id N when N is at most
    INT64_MAX and is refused with ERANGE when it is larger; whatever
    follows N on the line does not change the result. *)
Theorem parse_command_type_id
    (d0 verb d1 n : string) (rest : list (string * string)) (t : string)
    (b : bool) :
  well_laid_out ((d0, verb) :: (d1, n) :: rest) = true ->
  is_blank t = true ->
  Z.of_nat (String.length (laid_out ((d0, verb) :: (d1, n) :: rest) ++ t))
  <= CF_STR_MAX_LEN ->
  verb = "td"%string \/ verb = "typedecl"%string ->
  string_forallb is_digit n = true ->
  decimal_value n 0 <= UINT64_MAX ->
  parse_command (mk_str (laid_out ((d0, verb) :: (d1, n) :: rest) ++ t) b)
  = if decimal_value n 0 >? INT64_MAX then Err ERANGE
    else Ok (cmd_type_decl (search_id (decimal_value n 0))).
Proof.
  apply parse_command_td_number.
Qed.

Lemma parse_command_type_id_witness :
  (well_laid_out [("", "td"); (" ", "12"); (" ", "junk")]%string = true
   /\ is_blank "" = true
   /\ Z.of_nat (String.length
                  (laid_out [("", "td"); (" ", "12"); (" ", "junk")] ++ ""))
      <= CF_STR_MAX_LEN
   /\ ("td"%string = "td"%string \/ "td"%string = "typedecl"%string)
   /\ string_forallb is_digit "12" = true
   /\ decimal_value "12" 0 <= UINT64_MAX)
  /\ parse_command (mk_str "td 12 junk" false)
     = Ok (cmd_type_decl (search_id 12)).
Proof.
  assert (H1 : well_laid_out
                 [("", "td"); (" ", "12"); (" ", "junk")]%string = true)
    by reflexivity.
  assert (H2 : is_blank "" = true) by reflexivity.
  assert (H3 : Z.of_nat (String.length
                  (laid_out [("", "td"); (" ", "12"); (" ", "junk")] ++ ""))
               <= CF_STR_MAX_LEN)
    by (vm_compute; discriminate).
  assert (H4 : "td"%string = "td"%string \/ "td"%string = "typedecl"%string)
    by (left; reflexivity).
  assert (H5 : string_forallb is_digit "12" = true) by reflexivity.
  assert (H6 : decimal_value "12" 0 <= UINT64_MAX)
    by (vm_compute; discriminate).
  split; [auto 10|].
  exact (parse_command_type_id "" "td" " " "12" [(" ", "junk")]%string ""
           false H1 H2 H3 H4 H5 H6).
Defined.

(** X7. A type argument that starts with a digit is read as a row id
    and as nothing else: [td 12ab] is refused with EINVAL, it is not a
    search for the name [12ab]. *)
Theorem parse_command_type_bad_id
    (d0 verb d1 n : string) (rest : list (string * string)) (t : string)
    (b : bool) (c : ascii) (n' : string) :
  well_laid_out ((d0, verb) :: (d1, n) :: rest) = true ->
  is_blank t = true ->
  Z.of_nat (String.length (laid_out ((d0, verb) :: (d1, n) :: rest) ++ t))
  <= CF_STR_MAX_LEN ->
  In verb ["td"; "typedecl"; "md"; "memberdecl"]%string ->
  n = String c n' -> is_digit c = true ->
  string_forallb is_digit n = false ->
  parse_command (mk_str (laid_out ((d0, verb) :: (d1, n) :: rest) ++ t) b)
  = Err EINVAL.
Proof.
  intros Hl Ht Hlen Hverb Hn Hc Hdig.
  destruct (parse_command_verb_step b d0 verb _ t Hl Ht Hlen)
    as (it1 & E1 & Hat1 & Hs).
  destruct (separated_cons _ _ _ Hs) as (Hd1 & Hw & Hrest & _).
  cbn [laid_out] in Hat1. rewrite !string_app_assoc in Hat1.
  destruct (parse_type_search_bad_id it1 d1 n (laid_out rest ++ t) c n'
              Hat1 Hd1 Hw) as (it2 & E2); auto.
  { apply separated_ends_word; assumption. }
  unfold parse_command. cbv zeta. rewrite E1.
  destruct Hverb as [<-|[<-|[<-|[<-|[]]]]];
    change (command_string2kind (cf_str_borrow _)) with
      (Some search_type_decl) || 
    change (command_string2kind (cf_str_borrow _)) with
      (Some search_member_decl);
    cbv beta iota; unfold parse_member_search; rewrite E2; reflexivity.
Qed.

Lemma parse_command_type_bad_id_witness :
  (well_laid_out [("", "td"); (" ", "12ab")]%string = true
   /\ is_blank "" = true
   /\ Z.of_nat (String.length (laid_out [("", "td"); (" ", "12ab")] ++ ""))
      <= CF_STR_MAX_LEN
   /\ In "td"%string ["td"; "typedecl"; "md"; "memberdecl"]%string
   /\ "12ab"%string = String "1" "2ab"
   /\ is_digit "1" = true
   /\ string_forallb is_digit "12ab" = false)
  /\ parse_command (mk_str "td 12ab" false) = Err EINVAL.
Proof.
  assert (H1 : well_laid_out [("", "td"); (" ", "12ab")]%string = true)
    by reflexivity.
  assert (H2 : is_blank "" = true) by reflexivity.
  assert (H3 : Z.of_nat
                 (String.length (laid_out [("", "td"); (" ", "12ab")] ++ ""))
               <= CF_STR_MAX_LEN)
    by (vm_compute; discriminate).
  assert (H4 : In "td"%string ["td"; "typedecl"; "md"; "memberdecl"]%string)
    by (left; reflexivity).
  assert (H5 : "12ab"%string = String "1" "2ab") by reflexivity.
  assert (H6 : is_digit "1" = true) by reflexivity.
  assert (H7 : string_forallb is_digit "12ab" = false) by reflexivity.
  split; [auto 10|].
  exact (parse_command_type_bad_id "" "td" " " "12ab" [] "" false "1" "2ab"
           H1 H2 H3 H4 H5 H6 H7).
Defined.

(** X8. A line [tn K NAME] or [typename K NAME], with K one of
    [struct], [union] and [enum], asks for the type names NAME of that
    kind; NAME is taken as it is, whatever it looks like, and what
    follows it is not looked at. *)
Theorem parse_command_typename_elaborated
    (d0 verb d1 kw d2 w : string) (rest : list (string * string))
    (t : string) (b : bool) :
  well_laid_out ((d0, verb) :: (d1, kw) :: (d2, w) :: rest) = true ->
  is_blank t = true ->
  Z.of_nat
    (String.length
       (laid_out ((d0, verb) :: (d1, kw) :: (d2, w) :: rest) ++ t))
  <= CF_STR_MAX_LEN ->
  verb = "tn"%string \/ verb = "typename"%string ->
  In kw ["struct"; "union"; "enum"]%string ->
  parse_command
    (mk_str (laid_out ((d0, verb) :: (d1, kw) :: (d2, w) :: rest) ++ t) b)
  = Ok (cmd_typename
          (mk_name_spec (str2elab (cf_str_borrow kw)) (cf_str_borrow w))).
Proof.
  intros Hl Ht Hlen Hverb Hkw.
  destruct (parse_command_verb_step b d0 verb _ t Hl Ht Hlen)
    as (it1 & E1 & Hat1 & Hs).
  assert (Hk : command_string2kind (cf_str_borrow verb)
               = Some search_typename)
    by (destruct Hverb; subst; reflexivity).
  rewrite Hk in E1.
  destruct (separated_cons _ _ _ Hs) as (Hd1 & Hw1 & Hs1 & He1).
  destruct (separated_cons _ _ _ Hs1) as (Hd2 & Hw2 & Hs2 & He2).
  cbn [laid_out] in Hat1. rewrite !string_app_assoc in Hat1.
  destruct (tok_iter_at_word it1 d1 kw _ Hat1 Hd1 Hw1)
    as (it2 & E2 & E3 & Hat2).
  { apply He2. }
  destruct (str2elab_keyword kw Hkw) as (Hne & _).
  destruct (parse_name_spec2_keyword (cf_str_borrow kw) it2 d2 w
              (laid_out rest ++ t) Hne Hat2 Hd2 Hw2)
    as (it3 & E4 & Hat3).
  { apply separated_ends_word; assumption. }
  unfold parse_command. cbv zeta. rewrite E1. cbv beta iota.
  unfold parse_typename_search, parse_name_spec1. rewrite E2, E3, E4.
  cbv beta iota.
  apply (parse_command_rest it3 rest t); assumption.
Qed.

Lemma parse_command_typename_elaborated_witness :
  (well_laid_out [("", "tn"); (" ", "struct"); (" ", "foo")]%string = true
   /\ is_blank " " = true
   /\ Z.of_nat
        (String.length
           (laid_out [("", "tn"); (" ", "struct"); (" ", "foo")] ++ " "))
      <= CF_STR_MAX_LEN
   /\ ("tn"%string = "tn"%string \/ "tn"%string = "typename"%string)
   /\ In "struct"%string ["struct"; "union"; "enum"]%string)
  /\ parse_command (mk_str "tn struct foo " false)
     = Ok (cmd_typename (mk_name_spec name_struct (cf_str_borrow "foo"))).
Proof.
  assert (H1 : well_laid_out
                 [("", "tn"); (" ", "struct"); (" ", "foo")]%string = true)
    by reflexivity.
  assert (H2 : is_blank " " = true) by reflexivity.
  assert (H3 : Z.of_nat
                 (String.length
                    (laid_out [("", "tn"); (" ", "struct"); (" ", "foo")]
                     ++ " "))
               <= CF_STR_MAX_LEN)
    by (vm_compute; discriminate).
  assert (H4 : "tn"%string = "tn"%string \/ "tn"%string = "typename"%string)
    by (left; reflexivity).
  assert (H5 : In "struct"%string ["struct"; "union"; "enum"]%string)
    by (left; reflexivity).
  split; [auto 10|].
  exact (parse_command_typename_elaborated "" "tn" " " "struct" " " "foo" []
           " " false H1 H2 H3 H4 H5).
Defined.

(** X9. A line [td NAME] or [typedecl NAME], with NAME no keyword and
    not starting with a digit, asks for the type declarations named
    NAME of any kind. *)
Theorem parse_command_type_plain_name
    (d0 verb d1 w : string) (rest : list (string * string)) (t : string)
    (b : bool) (c : ascii) (w' : string) :
  well_laid_out ((d0, verb) :: (d1, w) :: rest) = true ->
  is_blank t = true ->
  Z.of_nat (String.length (laid_out ((d0, verb) :: (d1, w) :: rest) ++ t))
  <= CF_STR_MAX_LEN ->
  verb = "td"%string \/ verb = "typedecl"%string ->
  w = String c w' -> is_digit c = false ->
  ~ In w ["struct"; "union"; "enum"]%string ->
  parse_command (mk_str (laid_out ((d0, verb) :: (d1, w) :: rest) ++ t) b)
  = Ok (cmd_type_decl
          (search_name (mk_name_spec name_none (cf_str_borrow w)))).
Proof.
  intros Hl Ht Hlen Hverb Hw Hc Hkw.
  destruct (parse_command_verb_step b d0 verb _ t Hl Ht Hlen)
    as (it1 & E1 & Hat1 & Hs).
  assert (Hk : command_string2kind (cf_str_borrow verb)
               = Some search_type_decl)
    by (destruct Hverb; subst; reflexivity).
  rewrite Hk in E1.
  destruct (separated_cons _ _ _ Hs) as (Hd1 & Hw1 & Hs1 & He1).
  cbn [laid_out] in Hat1. rewrite !string_app_assoc in Hat1.
  destruct (tok_iter_at_word it1 d1 w _ Hat1 Hd1 Hw1)
    as (it2 & E2 & E3 & Hat2).
  { apply separated_ends_word; assumption. }
  unfold parse_command. cbv zeta. rewrite E1. cbv beta iota.
  unfold parse_type_search. rewrite E2, E3.
  rewrite (parse_name_spec2_plain _ it2 (str2elab_plain w Hkw)).
  unfold cf_str_borrow at 1. cbn [str]. rewrite Hw at 1. cbn [String.get].
  rewrite Hc. cbv beta iota.
  apply (parse_command_rest it2 rest t); assumption.
Qed.

Lemma parse_command_type_plain_name_witness :
  (well_laid_out [(" ", "typedecl"); ("  ", "foo")]%string = true
   /\ is_blank "" = true
   /\ Z.of_nat
        (String.length (laid_out [(" ", "typedecl"); ("  ", "foo")] ++ ""))
      <= CF_STR_MAX_LEN
   /\ ("typedecl"%string = "td"%string
       \/ "typedecl"%string = "typedecl"%string)
   /\ "foo"%string = String "f" "oo"
   /\ is_digit "f" = false
   /\ ~ In "foo"%string ["struct"; "union"; "enum"]%string)
  /\ parse_command (mk_str " typedecl  foo" false)
     = Ok (cmd_type_decl
             (search_name (mk_name_spec name_none (cf_str_borrow "foo")))).
Proof.
  assert (H1 : well_laid_out [(" ", "typedecl"); ("  ", "foo")]%string = true)
    by reflexivity.
  assert (H2 : is_blank "" = true) by reflexivity.
  assert (H3 : Z.of_nat
                 (String.length
                    (laid_out [(" ", "typedecl"); ("  ", "foo")] ++ ""))
               <= CF_STR_MAX_LEN)
    by (vm_compute; discriminate).
  assert (H4 : "typedecl"%string = "td"%string
               \/ "typedecl"%string = "typedecl"%string)
    by (right; reflexivity).
  assert (H5 : "foo"%string = String "f" "oo") by reflexivity.
  assert (H6 : is_digit "f" = false) by reflexivity.
  assert (H7 : ~ In "foo"%string ["struct"; "union"; "enum"]%string)
    by (intros [H|[H|[H|[]]]]; discriminate H).
  split; [auto 10|].
  exact (parse_command_type_plain_name " " "typedecl" "  " "foo" [] "" false
           "f" "oo" H1 H2 H3 H4 H5 H6 H7).
Defined.

(** X10. A line [md K TYPE MEMBER] or [memberdecl K TYPE MEMBER], with
    K one of [struct], [union] and [enum], asks for the member MEMBER
    of the types TYPE of that kind. *)
Theorem parse_command_member
    (d0 verb d1 kw d2 w d3 m : string) (rest : list (string * string))
    (t : string) (b : bool) :
  well_laid_out ((d0, verb) :: (d1, kw) :: (d2, w) :: (d3, m) :: rest)
  = true ->
  is_blank t = true ->
  Z.of_nat
    (String.length
       (laid_out ((d0, verb) :: (d1, kw) :: (d2, w) :: (d3, m) :: rest)
        ++ t))
  <= CF_STR_MAX_LEN ->
  verb = "md"%string \/ verb = "memberdecl"%string ->
  In kw ["struct"; "union"; "enum"]%string ->
  parse_command
    (mk_str
       (laid_out ((d0, verb) :: (d1, kw) :: (d2, w) :: (d3, m) :: rest)
        ++ t) b)
  = Ok (cmd_member_decl
          (search_name
             (mk_name_spec (str2elab (cf_str_borrow kw)) (cf_str_borrow w)))
          (cf_str_borrow m)).
Proof.
  intros Hl Ht Hlen Hverb Hkw.
  destruct (parse_command_verb_step b d0 verb _ t Hl Ht Hlen)
    as (it1 & E1 & Hat1 & Hs).
  assert (Hk : command_string2kind (cf_str_borrow verb)
               = Some search_member_decl)
    by (destruct Hverb; subst; reflexivity).
  rewrite Hk in E1.
  destruct (separated_cons _ _ _ Hs) as (Hd1 & Hw1 & Hs1 & He1).
  destruct (separated_cons _ _ _ Hs1) as (Hd2 & Hw2 & Hs2 & He2).
  destruct (separated_cons _ _ _ Hs2) as (Hd3 & Hw3 & Hs3 & He3).
  cbn [laid_out] in Hat1. rewrite !string_app_assoc in Hat1.
  destruct (tok_iter_at_word it1 d1 kw _ Hat1 Hd1 Hw1)
    as (it2 & E2 & E3 & Hat2).
  { apply He2. }
  destruct (str2elab_keyword kw Hkw) as (Hne & c & r & Hc & Hdig).
  destruct (parse_name_spec2_keyword (cf_str_borrow kw) it2 d2 w _
              Hne Hat2 Hd2 Hw2)
    as (it3 & E4 & Hat3).
  { apply He3. }
  destruct (tok_iter_at_word it3 d3 m _ Hat3 Hd3 Hw3)
    as (it4 & E5 & E6 & Hat4).
  { apply separated_ends_word; assumption. }
  unfold parse_command. cbv zeta. rewrite E1. cbv beta iota.
  unfold parse_member_search, parse_type_search. rewrite E2, E3, E4.
  unfold cf_str_borrow at 1. cbn [str]. rewrite Hc at 1. cbn [String.get].
  rewrite Hdig. cbv beta iota. rewrite E5, E6. cbv beta iota.
  apply (parse_command_rest it4 rest t); assumption.
Qed.

Lemma parse_command_member_witness :
  (well_laid_out
     [("", "md"); (" ", "union"); (" ", "u"); (" ", "x")]%string = true
   /\ is_blank "" = true
   /\ Z.of_nat
        (String.length
           (laid_out [("", "md"); (" ", "union"); (" ", "u"); (" ", "x")]
            ++ ""))
      <= CF_STR_MAX_LEN
   /\ ("md"%string = "md"%string \/ "md"%string = "memberdecl"%string)
   /\ In "union"%string ["struct"; "union"; "enum"]%string)
  /\ parse_command (mk_str "md union u x" false)
     = Ok (cmd_member_decl
             (search_name (mk_name_spec name_union (cf_str_borrow "u")))
             (cf_str_borrow "x")).
Proof.
  assert (H1 : well_laid_out
                 [("", "md"); (" ", "union"); (" ", "u"); (" ", "x")]%string
               = true)
    by reflexivity.
  assert (H2 : is_blank "" = true) by reflexivity.
  assert (H3 : Z.of_nat
                 (String.length
                    (laid_out
                       [("", "md"); (" ", "union"); (" ", "u"); (" ", "x")]
                     ++ ""))
               <= CF_STR_MAX_LEN)
    by (vm_compute; discriminate).
  assert (H4 : "md"%string = "md"%string \/ "md"%string = "memberdecl"%string)
    by (left; reflexivity).
  assert (H5 : In "union"%string ["struct"; "union"; "enum"]%string)
    by (right; left; reflexivity).
  split; [auto 10|].
  exact (parse_command_member "" "md" " " "union" " " "u" " " "x" [] ""
           false H1 H2 H3 H4 H5).
Defined.

(** X11. A keyword [struct], [union] or [enum] with no tag after it is
    not treated alike by the commands: [td K] is accepted, as a search
    of kind K for the empty name, because [parse_type_search] does not
    look at the error of [parse_name_spec2], whereas [tn K] is refused
    with EINVAL. *)
Theorem parse_command_dangling_keyword
    (d0 verb d1 kw : string) (t : string) (b : bool) :
  well_laid_out [(d0, verb); (d1, kw)] = true ->
  is_blank t = true ->
  Z.of_nat (String.length (laid_out [(d0, verb); (d1, kw)] ++ t))
  <= CF_STR_MAX_LEN ->
  In kw ["struct"; "union"; "enum"]%string ->
  (verb = "td"%string \/ verb = "typedecl"%string ->
   parse_command (mk_str (laid_out [(d0, verb); (d1, kw)] ++ t) b)
   = Ok (cmd_type_decl
           (search_name
              (mk_name_spec (str2elab (cf_str_borrow kw)) cf_str_null))))
  /\ (verb = "tn"%string \/ verb = "typename"%string ->
      parse_command (mk_str (laid_out [(d0, verb); (d1, kw)] ++ t) b)
      = Err EINVAL).
Proof.
  intros Hl Ht Hlen Hkw.
  destruct (parse_command_verb_step b d0 verb _ t Hl Ht Hlen)
    as (it1 & E1 & Hat1 & Hs).
  destruct (separated_cons _ _ _ Hs) as (Hd1 & Hw1 & Hs1 & He1).
  cbn [laid_out] in Hat1. rewrite !string_app_assoc in Hat1.
  cbn [append] in Hat1.
  destruct (tok_iter_at_word it1 d1 kw t Hat1 Hd1 Hw1)
    as (it2 & E2 & E3 & Hat2).
  { apply is_blank_ends_word; assumption. }
  destruct (str2elab_keyword kw Hkw) as (Hne & c & r & Hc & Hdig).
  destruct (parse_name_spec2_dangling (cf_str_borrow kw) it2 t Hne Hat2 Ht)
    as (it3 & E4 & Hat3).
  split; intros Hverb.
  - assert (Hk : command_string2kind (cf_str_borrow verb)
                 = Some search_type_decl)
      by (destruct Hverb; subst; reflexivity).
    rewrite Hk in E1.
    unfold parse_command. cbv zeta. rewrite E1. cbv beta iota.
    unfold parse_type_search. rewrite E2, E3, E4.
    unfold cf_str_borrow at 1. cbn [str]. rewrite Hc at 1. cbn [String.get].
    rewrite Hdig. cbv beta iota.
    apply (parse_command_rest it3 [] t); auto.
  - assert (Hk : command_string2kind (cf_str_borrow verb)
                 = Some search_typename)
      by (destruct Hverb; subst; reflexivity).
    rewrite Hk in E1.
    unfold parse_command. cbv zeta. rewrite E1. cbv beta iota.
    unfold parse_typename_search, parse_name_spec1. rewrite E2, E3, E4.
    reflexivity.
Qed.

Lemma parse_command_dangling_keyword_witness :
  (well_laid_out [("", "td"); (" ", "struct")]%string = true
   /\ is_blank "" = true
   /\ Z.of_nat (String.length (laid_out [("", "td"); (" ", "struct")] ++ ""))
      <= CF_STR_MAX_LEN
   /\ In "struct"%string ["struct"; "union"; "enum"]%string
   /\ ("td"%string = "td"%string \/ "td"%string = "typedecl"%string))
  /\ parse_command (mk_str "td struct" false)
     = Ok (cmd_type_decl
             (search_name (mk_name_spec name_struct cf_str_null))).
Proof.
  assert (H1 : well_laid_out [("", "td"); (" ", "struct")]%string = true)
    by reflexivity.
  assert (H2 : is_blank "" = true) by reflexivity.
  assert (H3 : Z.of_nat
                 (String.length (laid_out [("", "td"); (" ", "struct")] ++ ""))
               <= CF_STR_MAX_LEN)
    by (vm_compute; discriminate).
  assert (H4 : In "struct"%string ["struct"; "union"; "enum"]%string)
    by (left; reflexivity).
  assert (H5 : "td"%string = "td"%string \/ "td"%string = "typedecl"%string)
    by (left; reflexivity).
  split; [auto 10|].
  exact (proj1 (parse_command_dangling_keyword "" "td" " " "struct" "" false
                  H1 H2 H3 H4) H5).
Defined.

(** X12. A line without what a command needs is refused with ENOENT: a
    line of blanks and tabs only (the empty line too), and a line that
    holds a command verb and nothing else. *)
Theorem parse_command_missing_token (d0 verb t : string) (b : bool) :
  is_blank t = true ->
  parse_command (mk_str t b) = Err ENOENT
  /\ (well_laid_out [(d0, verb)] = true ->
      Z.of_nat (String.length (laid_out [(d0, verb)] ++ t))
      <= CF_STR_MAX_LEN ->
      In verb ["td"; "typedecl"; "tn"; "typename"; "md"; "memberdecl"]%string
      ->
      parse_command (mk_str (laid_out [(d0, verb)] ++ t) b) = Err ENOENT).
Proof.
  intros Ht. split.
  - unfold parse_command, parse_command_verb, tok_iter_make,
      cf_str_borrow_str. cbv zeta. cbn [str].
    rewrite (tok_iter_next_blank (cf_str_borrow t) None O "" t
               eq_refl eq_refl Ht).
    reflexivity.
  - intros Hl Hlen Hverb.
    destruct (parse_command_verb_step b d0 verb _ t Hl Ht Hlen)
      as (it1 & E1 & Hat1 & Hs).
    cbn [laid_out append] in Hat1.
    destruct (tok_iter_at_blank it1 t Hat1 Ht) as (it2 & E2 & Hat2).
    unfold parse_command. cbv zeta. rewrite E1.
    destruct Hverb as [<-|[<-|[<-|[<-|[<-|[<-|[]]]]]]];
      (change (command_string2kind (cf_str_borrow _)) with
         (Some search_type_decl)
       || change (command_string2kind (cf_str_borrow _)) with
            (Some search_typename)
       || change (command_string2kind (cf_str_borrow _)) with
            (Some search_member_decl));
      cbv beta iota;
      unfold parse_member_search, parse_type_search, parse_typename_search,
        parse_name_spec1;
      rewrite E2; reflexivity.
Qed.

Lemma parse_command_missing_token_witness :
  is_blank " 	" = true
  /\ parse_command (mk_str " 	" false) = Err ENOENT.
Proof.
  assert (H : is_blank " 	" = true) by reflexivity.
  split; [exact H|].
  exact (proj1 (parse_command_missing_token "" "td" " 	" false H)).
Defined.

(** X13. A line whose first word is none of [td], [typedecl], [tn],
    [typename], [md] and [memberdecl] is refused with EINVAL, whatever
    follows the word. *)
Theorem parse_command_unknown_verb
    (d0 w : string) (rest : list (string * string)) (t : string) (b : bool) :
  well_laid_out ((d0, w) :: rest) = true ->
  is_blank t = true ->
  Z.of_nat (String.length (laid_out ((d0, w) :: rest) ++ t))
  <= CF_STR_MAX_LEN ->
  ~ In w ["td"; "typedecl"; "tn"; "typename"; "md"; "memberdecl"]%string ->
  parse_command (mk_str (laid_out ((d0, w) :: rest) ++ t) b) = Err EINVAL.
Proof.
  intros Hl Ht Hlen Hw.
  destruct (parse_command_verb_step b d0 w _ t Hl Ht Hlen)
    as (it1 & E1 & _).
  rewrite (command_string2kind_unknown w Hw) in E1.
  unfold parse_command. cbv zeta. rewrite E1. reflexivity.
Qed.

Lemma parse_command_unknown_verb_witness :
  (well_laid_out [("", "TD"); (" ", "foo")]%string = true
   /\ is_blank "" = true
   /\ Z.of_nat (String.length (laid_out [("", "TD"); (" ", "foo")] ++ ""))
      <= CF_STR_MAX_LEN
   /\ ~ In "TD"%string
          ["td"; "typedecl"; "tn"; "typename"; "md"; "memberdecl"]%string)
  /\ parse_command (mk_str "TD foo" false) = Err EINVAL.
Proof.
  assert (H1 : well_laid_out [("", "TD"); (" ", "foo")]%string = true)
    by reflexivity.
  assert (H2 : is_blank "" = true) by reflexivity.
  assert (H3 : Z.of_nat
                 (String.length (laid_out [("", "TD"); (" ", "foo")] ++ ""))
               <= CF_STR_MAX_LEN)
    by (vm_compute; discriminate).
  assert (H4 : ~ In "TD"%string
                 ["td"; "typedecl"; "tn"; "typename"; "md"; "memberdecl"]%string)
    by (intros [H|[H|[H|[H|[H|[H|[]]]]]]]; discriminate H).
  split; [auto 10|].
  exact (parse_command_unknown_verb "" "TD" [(" ", "foo")]%string "" false
           H1 H2 H3 H4).
Defined.

(* ------------------------------------------------------------------ *)
(** ** cf_vector.c, cf_map.c: what the containers keep *)

Lemma assert_vec_spec {A} (v : cf_vec_t A) :
  assert_vec v = true <->
  0 < vec_stride v /\ vec_len_bytes v <= vec_capacity v
  /\ vec_len_bytes v mod vec_stride v = 0
  /\ vec_capacity v mod vec_stride v = 0.
Proof.
  unfold assert_vec. rewrite !andb_true_iff, Z.ltb_lt, Z.leb_le, !Z.eqb_eq.
  tauto.
Qed.

Lemma multiple_gap (s len cap : Z) :
  0 < s -> len mod s = 0 -> cap mod s = 0 -> len < cap -> len + s <= cap.
Proof.
  intros Hs Hl Hc Hlt.
  apply Z.mod_divide in Hl; [|lia]. apply Z.mod_divide in Hc; [|lia].
  destruct Hl as [q1 ->]. destruct Hc as [q2 ->].
  assert (q1 < q2) by nia.
  replace (q1 * s + s) with ((q1 + 1) * s) by ring.
  apply Z.mul_le_mono_nonneg_r; lia.
Qed.

Lemma vec_len_bytes_commit {A} (v : cf_vec_t A) (x : A) :
  vec_len_bytes (cf_vec_commit v x) = vec_len_bytes v + vec_stride v.
Proof.
  unfold vec_len_bytes, cf_vec_commit. cbn [vec_data vec_stride].
  rewrite length_app, Nat2Z.inj_add. cbn [List.length]. lia.
Qed.

Lemma roundup_fits (x y : Z) :
  0 < x -> 0 < y -> x + (y - 1) <= SIZE_MAX ->
  roundup x y = (x + (y - 1)) / y * y /\ 0 < roundup x y.
Proof.
  intros Hx Hy Hb. unfold roundup, wrap64. unfold SIZE_MAX in Hb.
  assert (Hq : 0 < (x + (y - 1)) / y) by (apply Z.div_str_pos; lia).
  assert (Hm : (x + (y - 1)) / y * y <= x + (y - 1))
    by (rewrite Z.mul_comm; apply Z.mul_div_le; lia).
  rewrite (Z.mod_small (x + (y - 1))) by lia.
  rewrite Z.mod_small by nia.
  split; [reflexivity|nia].
Qed.

(** X14. [cf_vec_make] passes its three assertions when the size is not
    zero, the alignment is not zero and at most [CF_VEC_DATA_ALIGN], and
    the size rounded up stays within [size_t]; the size checks of
    [assert_vec] (a stride other than zero, a length within the
    capacity, both multiples of the stride) then hold for the new
    vector.  They are kept by [cf_vec_reserve] whether it succeeds or
    not; after a successful reservation there is room for one more
    element, so that [cf_vec_commit] and [cf_vec_abort] keep them too,
    and the elements stored are never touched. *)
Theorem cf_vec_sizes_invariant (A : Type) :
  (forall type_size type_align : Z,
     0 < type_size -> 0 < type_align <= CF_VEC_DATA_ALIGN ->
     type_size + (type_align - 1) <= SIZE_MAX ->
     cf_vec_make_asserts A type_size type_align = true
     /\ assert_vec (cf_vec_make A type_size type_align) = true)
  /\ (forall (h : heap_t) (v : cf_vec_t A) slot v1 h1,
        assert_vec v = true -> vec_capacity v <= SIZE_MAX ->
        cf_vec_reserve h v = (slot, v1, h1) ->
        assert_vec v1 = true /\ vec_capacity v1 <= SIZE_MAX
        /\ vec_data v1 = vec_data v
        /\ (slot = true ->
            vec_len_bytes v1 + vec_stride v1 <= vec_capacity v1
            /\ assert_vec (cf_vec_abort v1) = true
            /\ forall x : A, assert_vec (cf_vec_commit v1 x) = true)).
Proof.
  split.
  - intros size align Hs Ha Hb.
    destruct (roundup_fits size align Hs (proj1 Ha) Hb) as [_ Hr].
    assert (Hv : assert_vec (cf_vec_make A size align) = true).
    { apply assert_vec_spec. unfold cf_vec_make, vec_len_bytes.
      cbn [vec_data vec_capacity vec_stride List.length Z.of_nat].
      rewrite Z.mul_0_l, Zmod_0_l.
      split; [exact Hr|]. split; [apply Z.le_refl|]. split; reflexivity. }
    split; [|exact Hv]. unfold cf_vec_make_asserts. rewrite Hv.
    assert ((size =? 0) = false) as -> by (apply Z.eqb_neq; lia).
    assert ((align =? 0) = false) as -> by (apply Z.eqb_neq; lia).
    assert ((align <=? CF_VEC_DATA_ALIGN) = true) as ->
      by (apply Z.leb_le; lia).
    reflexivity.
  - intros h v slot v1 h1 Hv Hcap Hr.
    apply assert_vec_spec in Hv. destruct Hv as (Hs & Hle & Hl & Hc).
    assert (Hroom : forall w : cf_vec_t A,
              0 < vec_stride w -> vec_len_bytes w < vec_capacity w ->
              vec_len_bytes w mod vec_stride w = 0 ->
              vec_capacity w mod vec_stride w = 0 ->
              vec_len_bytes w + vec_stride w <= vec_capacity w
              /\ assert_vec (cf_vec_abort w) = true
              /\ forall x : A, assert_vec (cf_vec_commit w x) = true).
    { intros w Hs' Hlt Hl' Hc'.
      pose proof (multiple_gap _ _ _ Hs' Hl' Hc' Hlt) as Hgap.
      split; [exact Hgap|]. split.
      - apply assert_vec_spec. unfold cf_vec_abort. repeat split; auto; lia.
      - intros x. apply assert_vec_spec.
        rewrite vec_len_bytes_commit.
        cbn [cf_vec_commit vec_capacity vec_stride].
        repeat split; auto.
        rewrite <- Zplus_mod_idemp_l, Hl', Z.add_0_l. apply Z.mod_same. lia. }
    unfold cf_vec_reserve in Hr.
    destruct (Z.eqb_spec (vec_len_bytes v) (vec_capacity v)) as [E|E].
    + unfold grow_strategy in Hr.
      destruct (Z.gtb_spec (vec_stride v * 8) SIZE_MAX) as [Hg1|Hg1];
        [injection Hr as <- <- <-; split;
         [apply assert_vec_spec; auto|repeat split; auto; discriminate]|].
      destruct (Z.gtb_spec (vec_capacity v + vec_stride v * 8) SIZE_MAX)
        as [Hg2|Hg2];
        [injection Hr as <- <- <-; split;
         [apply assert_vec_spec; auto|repeat split; auto; discriminate]|].
      destruct (cf_realloc h) as [ok h'] eqn:Eh. destruct ok.
      * injection Hr as <- <- <-.
        set (w := mk_vec (vec_data v) (vec_capacity v + vec_stride v * 8)
                    (vec_stride v)).
        assert (Hw : vec_len_bytes w = vec_len_bytes v) by reflexivity.
        assert (Hc' : vec_capacity w mod vec_stride w = 0).
        { subst w. cbn [vec_capacity vec_stride].
          rewrite (Z.mul_comm (vec_stride v) 8), Z.mod_add; [exact Hc|lia]. }
        assert (Hlt : vec_len_bytes w < vec_capacity w)
          by (rewrite Hw; subst w; cbn [vec_capacity]; lia).
        split; [|split; [exact Hg2|split; [reflexivity|intros _]]].
        -- apply assert_vec_spec. repeat split; auto; lia.
        -- apply Hroom; auto.
      * injection Hr as <- <- <-. split;
          [apply assert_vec_spec; auto|repeat split; auto; discriminate].
    + injection Hr as <- <- <-. split; [apply assert_vec_spec; auto|].
      split; [exact Hcap|]. split; [reflexivity|]. intros _.
      apply Hroom; auto; lia.
Qed.

Lemma cf_vec_sizes_invariant_witness :
  (0 < 32 /\ 0 < 8 <= CF_VEC_DATA_ALIGN /\ 32 + (8 - 1) <= SIZE_MAX)
  /\ cf_vec_make_asserts loc_ctx_t 32 8 = true
  /\ assert_vec (cf_vec_make loc_ctx_t 32 8) = true
  /\ vec_capacity (cf_vec_make loc_ctx_t 32 8) <= SIZE_MAX
  /\ cf_vec_reserve [] (cf_vec_make loc_ctx_t 32 8)
     = (true, mk_vec [] 256 32, [])
  /\ assert_vec (cf_vec_commit (mk_vec [] 256 32) zero_loc) = true.
Proof.
  assert (H1 : 0 < 32) by lia.
  assert (H2 : 0 < 8 <= CF_VEC_DATA_ALIGN) by (unfold CF_VEC_DATA_ALIGN; lia).
  assert (H0 : 32 + (8 - 1) <= SIZE_MAX) by (vm_compute; discriminate).
  destruct (proj1 (cf_vec_sizes_invariant loc_ctx_t) 32 8 H1 H2 H0)
    as [H6 H3].
  assert (H4 : vec_capacity (cf_vec_make loc_ctx_t 32 8) <= SIZE_MAX)
    by (vm_compute; discriminate).
  assert (H5 : cf_vec_reserve [] (cf_vec_make loc_ctx_t 32 8)
               = (true, mk_vec [] 256 32, [])) by reflexivity.
  split; [auto|]. split; [exact H6|]. split; [exact H3|].
  split; [exact H4|]. split; [exact H5|].
  exact (proj2 (proj2 (proj2 (proj2 (proj2 (proj2
           (cf_vec_sizes_invariant loc_ctx_t) [] _ _ _ _ H3 H4 H5)))
             eq_refl)) zero_loc).
Defined.

(** X15. [cf_map8] never rebinds a key: inserting a value under a key
    that is bound leaves every look-up as it was, the old value
    included; under a key that is not bound it binds that key and
    changes no other look-up. *)
Theorem cf_map8_insert_never_rebinds (map : cf_map8_t) (key value : Z) :
  (forall v, cf_map8_lookup map key = Some v ->
             forall k, cf_map8_lookup (cf_map8_insert map key value) k
                       = cf_map8_lookup map k)
  /\ (cf_map8_lookup map key = None ->
      cf_map8_lookup (cf_map8_insert map key value) key = Some value
      /\ forall k, k <> key ->
                   cf_map8_lookup (cf_map8_insert map key value) k
                   = cf_map8_lookup map k).
Proof.
  assert (G : forall k,
             cf_map8_lookup (cf_map8_insert map key value) k
             = match cf_map8_lookup map k with
               | Some v => Some v
               | None => if key =? k then Some value else None
               end).
  { intros k. unfold cf_map8_insert.
    induction map as [|[k0 v0] map IH]; cbn; [reflexivity|].
    destruct (k0 =? k); [reflexivity|exact IH]. }
  split.
  - intros v Hv k. rewrite G. destruct (Z.eqb_spec key k) as [<-|Hne].
    + rewrite Hv. reflexivity.
    + destruct (cf_map8_lookup map k); reflexivity.
  - intros Hn. split.
    + rewrite G, Hn, Z.eqb_refl. reflexivity.
    + intros k Hk. rewrite G.
      destruct (Z.eqb_spec key k); [congruence|].
      destruct (cf_map8_lookup map k); reflexivity.
Qed.

Lemma cf_map8_insert_never_rebinds_witness :
  cf_map8_lookup [(7, 1)] 7 = Some 1
  /\ cf_map8_lookup (cf_map8_insert [(7, 1)] 7 2) 7
     = cf_map8_lookup [(7, 1)] 7.
Proof.
  assert (H : cf_map8_lookup [(7, 1)] 7 = Some 1) by reflexivity.
  split; [exact H|].
  exact (proj1 (cf_map8_insert_never_rebinds [(7, 1)] 7 2) 1 H 7).
Defined.

Lemma cf_map8_lookup_in map key v :
  cf_map8_lookup map key = Some v -> In key (List.map fst map).
Proof.
  induction map as [|[k0 v0] map IH]; cbn; [discriminate|].
  destruct (Z.eqb_spec k0 key); [auto|]. intros H. right. auto.
Qed.

(** X16. [cf_map8_remove] takes out the first entry of the key and
    nothing else: the look-up of every other key is unchanged, a map
    that does not bind the key is left as it is, one entry goes when
    the key is bound, and the key is unbound afterwards when no two
    entries of the map share a key. *)
Theorem cf_map8_remove_lookup (map : cf_map8_t) (key : Z) :
  (forall k, k <> key ->
             cf_map8_lookup (cf_map8_remove map key) k
             = cf_map8_lookup map k)
  /\ (cf_map8_lookup map key = None -> cf_map8_remove map key = map)
  /\ (forall v, cf_map8_lookup map key = Some v ->
                S (List.length (cf_map8_remove map key)) = List.length map)
  /\ (NoDup (List.map fst map) ->
      cf_map8_lookup (cf_map8_remove map key) key = None).
Proof.
  repeat split.
  - intros k Hk. induction map as [|[k0 v0] map IH]; cbn; [reflexivity|].
    destruct (Z.eqb_spec k0 key) as [->|Hne].
    + destruct (Z.eqb_spec key k); [congruence|reflexivity].
    + cbn. destruct (k0 =? k); [reflexivity|exact IH].
  - induction map as [|[k0 v0] map IH]; cbn; [reflexivity|].
    destruct (k0 =? key); [discriminate|]. intros H. rewrite IH; auto.
  - induction map as [|[k0 v0] map IH]; cbn; [discriminate|].
    intros v. destruct (k0 =? key); [reflexivity|].
    intros H. cbn. f_equal. eauto.
  - induction map as [|[k0 v0] map IH]; cbn; [reflexivity|].
    intros Hnd. apply NoDup_cons_iff in Hnd. destruct Hnd as [Hin Hnd].
    destruct (Z.eqb_spec k0 key) as [->|Hne].
    + destruct (cf_map8_lookup map key) eqn:E; [|reflexivity].
      exfalso. apply Hin. eapply cf_map8_lookup_in; eauto.
    + cbn. destruct (Z.eqb_spec k0 key); [congruence|]. auto.
Qed.

Lemma cf_map8_remove_lookup_witness :
  3 <> 7
  /\ cf_map8_lookup (cf_map8_remove [(7, 1); (3, 4); (7, 2)] 7) 3
     = cf_map8_lookup [(7, 1); (3, 4); (7, 2)] 3.
Proof.
  assert (H : 3 <> 7) by discriminate.
  split; [exact H|].
  exact (proj1 (cf_map8_remove_lookup [(7, 1); (3, 4); (7, 2)] 7) 3 H).
Defined.

(* ------------------------------------------------------------------ *)
(** ** mem_db.c: rows and their locations *)

Lemma cf_vec_reserve_len {A} h (v : cf_vec_t A) b v' h' :
  cf_vec_reserve h v = (b, v', h') -> cf_vec_len v' = cf_vec_len v.
Proof.
  intros H. unfold cf_vec_len. rewrite (cf_vec_reserve_data _ _ _ _ _ H).
  reflexivity.
Qed.

Lemma cf_vec_len_commit {A} (v : cf_vec_t A) x :
  cf_vec_len (cf_vec_commit v x) = cf_vec_len v + 1.
Proof.
  unfold cf_vec_len, cf_vec_commit. cbn [vec_data].
  rewrite length_app. cbn [List.length]. lia.
Qed.

Lemma cf_vec_at_commit_last {A} (v : cf_vec_t A) x :
  cf_vec_at (cf_vec_commit v x) (cf_vec_len v) = Some x.
Proof.
  unfold cf_vec_at, cf_vec_commit, cf_vec_len. cbn [vec_data].
  destruct (Z.ltb_spec (Z.of_nat (List.length (vec_data v))) 0); [lia|].
  rewrite Nat2Z.id, nth_error_app2, Nat.sub_diag; [reflexivity|lia].
Qed.

Lemma cf_vec_at_commit_old {A} (v : cf_vec_t A) x i :
  i < cf_vec_len v -> cf_vec_at (cf_vec_commit v x) i = cf_vec_at v i.
Proof.
  unfold cf_vec_at, cf_vec_commit, cf_vec_len. cbn [vec_data]. intros Hi.
  destruct (Z.ltb_spec i 0); [reflexivity|].
  apply nth_error_app1. lia.
Qed.

Lemma cf_vec_at_reserve {A} h (v : cf_vec_t A) b v' h' i :
  cf_vec_reserve h v = (b, v', h') -> cf_vec_at v' i = cf_vec_at v i.
Proof.
  intros H. unfold cf_vec_at. rewrite (cf_vec_reserve_data _ _ _ _ _ H).
  reflexivity.
Qed.

Ltac reserve_step h v :=
  let b := fresh "slot" in
  let v1 := fresh "v" in
  let h1 := fresh "h" in
  let E := fresh "Er" in
  destruct (cf_vec_reserve h v) as [[b v1] h1] eqn:E;
  pose proof (cf_vec_reserve_len _ _ _ _ _ E);
  destruct b; cbn [negb].

(** X17. Whatever the allocator answers and whether they succeed or
    fail, [mem_db_type_insert], [mem_db_typename_insert],
    [mem_db_type_use_insert], [mem_db_member_insert] and
    [mem_db_add_file] leave the type, type name and type use tables
    with exactly one location per row. *)
Theorem mem_db_inserts_keep_alignment
    (h : heap_t) (db : mem_db_t) (loc : loc_ctx_t) :
  mem_db_aligned db ->
  (forall e, mem_db_aligned (snd (fst (mem_db_type_insert h db loc e))))
  /\ (forall e,
        mem_db_aligned (snd (fst (mem_db_typename_insert h db loc e))))
  /\ (forall e,
        mem_db_aligned (snd (fst (mem_db_type_use_insert h db loc e))))
  /\ (forall u e,
        mem_db_aligned (snd (fst (mem_db_member_insert u h db loc e))))
  /\ (forall path, mem_db_aligned (snd (fst (mem_db_add_file h db path)))).
Proof.
  intros (H1 & H2 & H3). repeat split; intros.
  all: try (unfold mem_db_type_insert);
       try (unfold mem_db_typename_insert);
       try (unfold mem_db_type_use_insert);
       try (unfold mem_db_member_insert);
       try (unfold mem_db_add_file).
  all: match goal with
       | |- context [cf_vec_reserve ?h0 ?v] => reserve_step h0 v
       end;
       cbn [fst snd user_types typenames type_uses locs_type locs_typename
              locs_type_use locs_member members files set_user_types
              set_typenames set_type_uses set_members set_files
              set_locs_type set_locs_typename set_locs_type_use
              set_locs_member cf_vec_abort];
       unfold cf_vec_abort; try congruence; try lia.
  all: try match goal with
       | |- context [cf_vec_reserve ?h0 ?v] => reserve_step h0 v
       end;
       cbn [fst snd user_types typenames type_uses locs_type locs_typename
              locs_type_use locs_member members files set_user_types
              set_typenames set_type_uses set_members set_files
              set_locs_type set_locs_typename set_locs_type_use
              set_locs_member cf_vec_abort];
       rewrite ?cf_vec_len_commit;
       unfold cf_vec_abort; try congruence; try lia.
  all: try match goal with
       | |- context [cf_str_dup_str ?h0 ?s] =>
           destruct (cf_str_dup_str h0 s) as [[s1|err|] h3]
       | |- context [cf_str_dup ?h0 ?s] =>
           destruct (cf_str_dup h0 s) as [[s1|err|] h3]
       end;
       cbn [fst snd user_types typenames type_uses locs_type locs_typename
              locs_type_use locs_member members files set_user_types
              set_typenames set_type_uses set_members set_files
              set_locs_type set_locs_typename set_locs_type_use
              set_locs_member cf_vec_abort];
       rewrite ?cf_vec_len_commit;
       unfold cf_vec_abort; try congruence; try lia.
Qed.

Lemma mem_db_inserts_keep_alignment_witness :
  mem_db_aligned mem_db_open
  /\ mem_db_aligned
       (snd (fst (mem_db_typename_insert [true; false] mem_db_open
                    (mk_loc 1 0 0 2 5)
                    (mk_typename name_kind_direct 1 (cf_str_borrow "foo"))))).
Proof.
  assert (H : mem_db_aligned mem_db_open) by (repeat split; reflexivity).
  split; [exact H|].
  exact (proj1 (proj2 (mem_db_inserts_keep_alignment [true; false]
                         mem_db_open (mk_loc 1 0 0 2 5) H))
           (mk_typename name_kind_direct 1 (cf_str_borrow "foo"))).
Defined.

(** X18. The handle [mem_db_type_insert] returns is the number of the
    new row, counted from 1; [mem_db_type_lookup] on it gives back the
    entry and the location inserted, the handle was unknown before, and
    the look-up of every older handle is unchanged. *)
Theorem mem_db_type_insert_lookup
    (h : heap_t) (db : mem_db_t) (loc : loc_ctx_t) (entry : db_type_entry_t)
    (id : Z) (db' : mem_db_t) (h' : heap_t) :
  cf_vec_len (user_types db) = cf_vec_len (locs_type db) ->
  cf_vec_len (user_types db) < SIZE_MAX ->
  mem_db_type_insert h db loc entry = (Ok id, db', h') ->
  id = cf_vec_len (user_types db) + 1
  /\ mem_db_type_lookup db id = Err ENOENT
  /\ mem_db_type_lookup db' id = Ok (entry, loc)
  /\ forall id0, 0 < id0 < id ->
                 mem_db_type_lookup db' id0 = mem_db_type_lookup db id0.
Proof.
  intros Hal Hmax Hins. unfold mem_db_type_insert in Hins.
  reserve_step h (user_types db); [|discriminate Hins].
  cbn [locs_type set_user_types] in Hins.
  reserve_step h0 (locs_type db); [|discriminate Hins].
  injection Hins as <- <- <-.
  cbn [user_types locs_type set_user_types set_locs_type].
  rewrite cf_vec_len_commit.
  assert (Hlen : 0 <= cf_vec_len (user_types db))
    by (unfold cf_vec_len; lia).
  assert (Hw : forall i, 0 <= i <= cf_vec_len (user_types db) ->
                         wrap64 (i + 1 - 1) = i).
  { intros i Hi. unfold wrap64, SIZE_MAX in *.
    replace (i + 1 - 1) with i by lia. apply Z.mod_small. lia. }
  split; [congruence|]. rewrite H. split; [|split].
  - unfold mem_db_type_lookup.
    destruct (Z.eqb_spec (cf_vec_len (user_types db) + 1) 0); [lia|].
    rewrite Hw by lia.
    destruct (Z.geb_spec (cf_vec_len (user_types db))
                (cf_vec_len (user_types db))); [reflexivity|lia].
  - unfold mem_db_type_lookup.
    cbn [user_types locs_type set_user_types set_locs_type].
    destruct (Z.eqb_spec (cf_vec_len (user_types db) + 1) 0); [lia|].
    rewrite Hw by lia. rewrite cf_vec_len_commit, H.
    destruct (Z.geb_spec (cf_vec_len (user_types db))
                (cf_vec_len (user_types db) + 1)); [lia|].
    rewrite <- H at 1. rewrite cf_vec_at_commit_last.
    rewrite Hal, <- H0, cf_vec_at_commit_last. reflexivity.
  - intros id0 Hid. unfold mem_db_type_lookup.
    cbn [user_types locs_type set_user_types set_locs_type].
    destruct (Z.eqb_spec id0 0); [lia|].
    assert (Hw0 : wrap64 (id0 - 1) = id0 - 1)
      by (unfold wrap64, SIZE_MAX in *; apply Z.mod_small; lia).
    rewrite !Hw0, cf_vec_len_commit, H.
    destruct (Z.geb_spec (id0 - 1) (cf_vec_len (user_types db) + 1)); [lia|].
    destruct (Z.geb_spec (id0 - 1) (cf_vec_len (user_types db))); [lia|].
    rewrite !cf_vec_at_commit_old by lia.
    rewrite (cf_vec_at_reserve _ _ _ _ _ _ Er).
    rewrite (cf_vec_at_reserve _ _ _ _ _ _ Er0). reflexivity.
Qed.

Lemma mem_db_type_insert_lookup_witness :
  cf_vec_len (user_types mem_db_open) = cf_vec_len (locs_type mem_db_open)
  /\ cf_vec_len (user_types mem_db_open) < SIZE_MAX
  /\ exists db',
       mem_db_type_insert [] mem_db_open (mk_loc 1 0 0 2 5)
         (mk_type_entry type_kind_struct true)
       = (Ok 1, db', [])
       /\ mem_db_type_lookup db' 1
          = Ok (mk_type_entry type_kind_struct true, mk_loc 1 0 0 2 5).
Proof.
  assert (H1 : cf_vec_len (user_types mem_db_open)
               = cf_vec_len (locs_type mem_db_open)) by reflexivity.
  assert (H2 : cf_vec_len (user_types mem_db_open) < SIZE_MAX)
    by reflexivity.
  split; [exact H1|]. split; [exact H2|].
  eexists. split; [reflexivity|].
  exact (proj1 (proj2 (proj2 (mem_db_type_insert_lookup [] mem_db_open
                                (mk_loc 1 0 0 2 5)
                                (mk_type_entry type_kind_struct true)
                                1 _ [] H1 H2 eq_refl)))).
Defined.

Lemma strncmp_eq0_refl s n : strncmp_eq0 s s n = true.
Proof.
  revert s. induction n as [|n IH]; intros s; destruct s as [|c s];
    cbn [strncmp_eq0]; try reflexivity.
  rewrite Ascii.eqb_refl. destruct (is_nul c); [reflexivity|apply IH].
Qed.

Lemma cf_str_dup_not_enoent h s h' : cf_str_dup h s <> (Err ENOENT, h').
Proof.
  unfold cf_str_dup. cbv zeta.
  destruct (_ =? 0); [discriminate|].
  destruct (_ >? CF_STR_MAX_LEN); [discriminate|].
  destruct (cf_malloc h) as [[] ?]; discriminate.
Qed.

Lemma cf_str_dup_again h s r h' :
  cf_str_dup h s = (Ok r, h') -> cf_str_dup [] s = (Ok (mk_str s false), []).
Proof.
  unfold cf_str_dup. cbv zeta.
  destruct (Z.eqb_spec (Z.of_nat (String.length s)) 0) as [E|E].
  - intros _. destruct s; [reflexivity|cbn in E; lia].
  - destruct (_ >? CF_STR_MAX_LEN); [discriminate|]. intros _. reflexivity.
Qed.

(** The entries the loop of [mem_db_member_lookup] passes over. *)
Lemma mem_db_member_lookup_loop_app parent name entries :
  forall h locs i h',
  mem_db_member_lookup_loop h locs parent name entries i = (Err ENOENT, h') ->
  forall h2 locs2 tail,
    mem_db_member_lookup_loop h2 locs2 parent name (entries ++ tail) i
    = mem_db_member_lookup_loop h2 locs2 parent name tail
        (i + Z.of_nat (List.length entries)).
Proof.
  induction entries as [|e entries IH]; intros h locs i h' Hn h2 locs2 tail.
  - cbn [app List.length Z.of_nat]. rewrite Z.add_0_r. reflexivity.
  - cbn [app List.length mem_db_member_lookup_loop] in *.
    replace (i + Z.of_nat (S (List.length entries)))
      with (i + 1 + Z.of_nat (List.length entries)) by lia.
    destruct (negb (parent =? mb_parent e)); [eapply IH; eauto|].
    cbv zeta in *.
    destruct (negb (cf_str_len name =? cf_str_len (mb_name e)));
      [eapply IH; eauto|].
    destruct (negb (strncmp_eq0 _ _ _)); [eapply IH; eauto|].
    exfalso. destruct (cf_vec_at locs i); [|discriminate Hn].
    unfold cf_str_dup_str in Hn.
    destruct (cf_str_dup h (str (mb_name e))) as [[s|err|] h3] eqn:Ed;
      try discriminate Hn.
    injection Hn as -> ->. exact (cf_str_dup_not_enoent _ _ _ Ed).
Qed.

Lemma mem_db_member_lookup_new u h db loc entry db' h' h0 h0' :
  mem_db_member_lookup h0 db (mb_parent entry) (mb_name entry)
  = (Err ENOENT, h0') ->
  mem_db_member_insert u h db loc entry = (Ok tt, db', h') ->
  exists l1 b h1 h2,
    cf_vec_reserve h1 (locs_member db) = (b, l1, h2)
    /\ locs_member db' = cf_vec_commit l1 loc
    /\ mem_db_member_lookup [] db' (mb_parent entry) (mb_name entry)
       = (match cf_vec_at (cf_vec_commit l1 loc) (cf_vec_len (members db)) with
          | Some l =>
              Ok (mk_member (mb_parent entry) (mb_base_type entry)
                    (mk_str (str (mb_name entry)) false), l)
          | None => Trap
          end, []).
Proof.
  intros Hmiss Hins. unfold mem_db_member_insert in Hins.
  reserve_step h (members db); [|discriminate Hins].
  cbn [locs_member set_members] in Hins.
  reserve_step h1 (locs_member db); [|discriminate Hins].
  unfold cf_str_dup_str in Hins.
  destruct (cf_str_dup h2 (str (mb_name entry))) as [[s|err|] h3] eqn:Ed;
    try discriminate Hins.
  injection Hins as <- <-.
  exists v0, true, h1, h2. split; [exact Er0|]. split; [reflexivity|].
  pose proof (cf_str_dup_ok _ _ _ _ Ed) as Hs.
  unfold mem_db_member_lookup.
  cbn [members locs_member set_members set_locs_member].
  rewrite cf_vec_len_commit.
  assert (Hlen : 0 <= cf_vec_len v) by (unfold cf_vec_len; lia).
  destruct (Z.eqb_spec (cf_vec_len v + 1) 0); [lia|].
  unfold cf_vec_commit at 2. cbn [vec_data].
  rewrite (cf_vec_reserve_data _ _ _ _ _ Er).
  assert (Hloop : forall tail h4 locs4,
            mem_db_member_lookup_loop h4 locs4 (mb_parent entry)
              (mb_name entry) (vec_data (members db) ++ tail) 0
            = mem_db_member_lookup_loop h4 locs4 (mb_parent entry)
                (mb_name entry) tail (cf_vec_len (members db))).
  { intros tail h4 locs4. unfold mem_db_member_lookup in Hmiss.
    destruct (Z.eqb_spec (cf_vec_len (members db)) 0) as [E0|E0].
    - rewrite E0. unfold cf_vec_len in E0.
      destruct (vec_data (members db)); [reflexivity|cbn in E0; lia].
    - rewrite (mem_db_member_lookup_loop_app _ _ _ _ _ _ _ Hmiss).
      reflexivity. }
  rewrite Hloop. cbn [mem_db_member_lookup_loop mb_parent mb_name].
  rewrite Z.eqb_refl. cbn [negb]. cbv zeta.
  unfold cf_str_len. rewrite Hs, Z.eqb_refl, strncmp_eq0_refl. cbn [negb].
  destruct (cf_vec_at _ _); [|reflexivity].
  unfold cf_str_dup_str. rewrite Hs.
  rewrite (cf_str_dup_again _ _ _ _ Ed). reflexivity.
Qed.

(** X19. When every member has its location, a member that
    [mem_db_member_lookup] did not find and [mem_db_member_insert] then
    stored is found under its parent and name, with the base type and
    the location it was inserted with. *)
Theorem mem_db_member_insert_lookup
    (u : loc_ctx_t) (h : heap_t) (db : mem_db_t) (loc : loc_ctx_t)
    (entry : db_member_t) (db' : mem_db_t) (h' h0 h0' : heap_t) :
  cf_vec_len (members db) = cf_vec_len (locs_member db) ->
  mem_db_member_lookup h0 db (mb_parent entry) (mb_name entry)
  = (Err ENOENT, h0') ->
  mem_db_member_insert u h db loc entry = (Ok tt, db', h') ->
  mem_db_member_lookup [] db' (mb_parent entry) (mb_name entry)
  = (Ok (mk_member (mb_parent entry) (mb_base_type entry)
           (mk_str (str (mb_name entry)) false), loc), []).
Proof.
  intros Hal Hmiss Hins.
  destruct (mem_db_member_lookup_new u h db loc entry db' h' h0 h0'
              Hmiss Hins) as (l1 & b & h1 & h2 & Er & _ & ->).
  rewrite Hal, <- (cf_vec_reserve_len _ _ _ _ _ Er), cf_vec_at_commit_last.
  reflexivity.
Qed.

Lemma mem_db_member_insert_lookup_witness :
  cf_vec_len (members mem_db_open) = cf_vec_len (locs_member mem_db_open)
  /\ mem_db_member_lookup [] mem_db_open 1 (cf_str_borrow "x")
     = (Err ENOENT, [])
  /\ exists db',
       mem_db_member_insert (mk_loc 0 0 0 0 0) [] mem_db_open
         (mk_loc 1 0 0 2 5) (mk_member 1 0 (cf_str_borrow "x"))
       = (Ok tt, db', [])
       /\ mem_db_member_lookup [] db' 1 (cf_str_borrow "x")
          = (Ok (mk_member 1 0 (mk_str "x" false), mk_loc 1 0 0 2 5), []).
Proof.
  assert (H1 : cf_vec_len (members mem_db_open)
               = cf_vec_len (locs_member mem_db_open)) by reflexivity.
  assert (H2 : mem_db_member_lookup [] mem_db_open 1 (cf_str_borrow "x")
               = (Err ENOENT, [])) by reflexivity.
  split; [exact H1|]. split; [exact H2|].
  eexists. split; [reflexivity|].
  exact (mem_db_member_insert_lookup (mk_loc 0 0 0 0 0) [] mem_db_open
           (mk_loc 1 0 0 2 5) (mk_member 1 0 (cf_str_borrow "x")) _ [] [] []
           H1 H2 eq_refl).
Defined.

(** X20. When a location is left over in [locs[member_idx]], as it is
    after a [mem_db_member_insert] that failed to copy the name, the
    next member stored is found with that left-over location and not
    with the location it was inserted with. *)
Theorem mem_db_member_lookup_stale_location
    (u : loc_ctx_t) (h : heap_t) (db : mem_db_t) (loc stale : loc_ctx_t)
    (entry : db_member_t) (db' : mem_db_t) (h' h0 h0' : heap_t) :
  cf_vec_at (locs_member db) (cf_vec_len (members db)) = Some stale ->
  mem_db_member_lookup h0 db (mb_parent entry) (mb_name entry)
  = (Err ENOENT, h0') ->
  mem_db_member_insert u h db loc entry = (Ok tt, db', h') ->
  mem_db_member_lookup [] db' (mb_parent entry) (mb_name entry)
  = (Ok (mk_member (mb_parent entry) (mb_base_type entry)
           (mk_str (str (mb_name entry)) false), stale), []).
Proof.
  intros Hst Hmiss Hins.
  destruct (mem_db_member_lookup_new u h db loc entry db' h' h0 h0'
              Hmiss Hins) as (l1 & b & h1 & h2 & Er & _ & ->).
  assert (Hlt : cf_vec_len (members db) < cf_vec_len l1).
  { rewrite (cf_vec_reserve_len _ _ _ _ _ Er).
    unfold cf_vec_at, cf_vec_len in *.
    destruct (Z.ltb_spec (Z.of_nat (List.length (vec_data (members db)))) 0);
      [discriminate Hst|].
    assert (Hn : nth_error (vec_data (locs_member db))
                   (Z.to_nat (Z.of_nat (List.length (vec_data (members db)))))
                 <> None) by congruence.
    apply nth_error_Some in Hn. lia. }
  rewrite (cf_vec_at_commit_old _ _ _ Hlt).
  rewrite (cf_vec_at_reserve _ _ _ _ _ _ Er), Hst. reflexivity.
Qed.

Lemma mem_db_member_lookup_stale_location_witness :
  exists db1 db2,
    mem_db_member_insert (mk_loc 0 0 0 0 0) [true; true; false] mem_db_open
      (mk_loc 1 0 0 2 5) (mk_member 1 0 (cf_str_borrow "a"))
    = (Err ENOMEM, db1, [])
    /\ cf_vec_at (locs_member db1) (cf_vec_len (members db1))
       = Some (mk_loc 0 0 0 0 0)
    /\ mem_db_member_lookup [] db1 1 (cf_str_borrow "b") = (Err ENOENT, [])
    /\ mem_db_member_insert (mk_loc 0 0 0 0 0) [] db1
         (mk_loc 1 0 0 3 7) (mk_member 1 0 (cf_str_borrow "b"))
       = (Ok tt, db2, [])
    /\ mem_db_member_lookup [] db2 1 (cf_str_borrow "b")
       = (Ok (mk_member 1 0 (mk_str "b" false), mk_loc 0 0 0 0 0), []).
Proof.
  eexists. eexists. split; [reflexivity|].
  assert (H1 : cf_vec_at
                 (locs_member
                    (snd (fst (mem_db_member_insert (mk_loc 0 0 0 0 0)
                                 [true; true; false] mem_db_open
                                 (mk_loc 1 0 0 2 5)
                                 (mk_member 1 0 (cf_str_borrow "a"))))))
                 (cf_vec_len
                    (members
                       (snd (fst (mem_db_member_insert (mk_loc 0 0 0 0 0)
                                    [true; true; false] mem_db_open
                                    (mk_loc 1 0 0 2 5)
                                    (mk_member 1 0 (cf_str_borrow "a")))))))
               = Some (mk_loc 0 0 0 0 0)) by reflexivity.
  split; [exact H1|]. split; [reflexivity|]. split; [reflexivity|].
  exact (mem_db_member_lookup_stale_location (mk_loc 0 0 0 0 0) [] _
           (mk_loc 1 0 0 3 7) (mk_loc 0 0 0 0 0)
           (mk_member 1 0 (cf_str_borrow "b")) _ [] [] []
           H1 eq_refl eq_refl).
Defined.

(** X21. After a successful [mem_db_typename_insert] the cursor over
    the inserted name yields what it yielded before, followed by the
    new entry with its kind and base type: no entry is lost or
    reordered, and the run does not fail. *)
Theorem mem_db_typename_insert_find
    (h : heap_t) (db : mem_db_t) (loc : loc_ctx_t) (entry : db_typename_t)
    (db' : mem_db_t) (h' : heap_t) (fuel : nat) :
  cf_vec_len (typenames db) = cf_vec_len (locs_typename db) ->
  cf_vec_len (typenames db) < SIZE_MAX ->
  mem_db_typename_insert h db loc entry = (Ok tt, db', h') ->
  (List.length (vec_data (typenames db)) + 1 < fuel)%nat ->
  exists old,
    db_typename_iter_collect fuel (db_kind_mem db)
      (iter_mem (mem_db_typename_find (tn_name entry)))
    = Some (Ok old)
    /\ db_typename_iter_collect fuel (db_kind_mem db')
         (iter_mem (mem_db_typename_find (tn_name entry)))
       = Some (Ok (old ++ [mk_typename (tn_kind entry) (tn_base_type entry)
                             (cf_str_borrow (str (tn_name entry)))])).
Proof.
  intros Hal Hmax Hins Hfuel.
  set (key := cf_str_borrow_str (tn_name entry)).
  exists (map borrow_name
            (filter (mem_iter_match key) (vec_data (typenames db)))).
  assert (Hskip : Z.to_nat (wrap64 (SIZE_MAX + 1)) = O) by reflexivity.
  assert (Hlen : forall l : list db_typename_t,
            (List.length (filter (mem_iter_match key) l)
             <= List.length l)%nat) by (intros l; apply filter_length_le).
  split.
  - apply mem_collect.
    + lia.
    + unfold cf_vec_len in Hal. lia.
    + unfold mem_iter_rest, mem_db_typename_find. cbn [it_i it_key].
      rewrite Hskip. reflexivity.
    + specialize (Hlen (vec_data (typenames db))). lia.
  - unfold mem_db_typename_insert in Hins.
    reserve_step h (typenames db); [|discriminate Hins].
    cbn [locs_typename set_typenames] in Hins.
    reserve_step h0 (locs_typename db); [|discriminate Hins].
    unfold cf_str_dup_str in Hins.
    destruct (cf_str_dup h1 (str (tn_name entry))) as [[s|err|] h3] eqn:Ed;
      try discriminate Hins.
    injection Hins as <- <-.
    pose proof (cf_str_dup_ok _ _ _ _ Ed) as Hs.
    set (new := mk_typename (tn_kind entry) (tn_base_type entry) s).
    assert (Hdata : vec_data (typenames
                      (set_locs_typename
                         (set_typenames (set_locs_typename
                                           (set_typenames db v) v0)
                            (cf_vec_commit v new))
                         (cf_vec_commit v0 loc)))
                    = vec_data (typenames db) ++ [new]).
    { cbn [typenames set_typenames set_locs_typename cf_vec_commit vec_data].
      rewrite (cf_vec_reserve_data _ _ _ _ _ Er). reflexivity. }
    assert (Hlocs : vec_data (locs_typename
                      (set_locs_typename
                         (set_typenames (set_locs_typename
                                           (set_typenames db v) v0)
                            (cf_vec_commit v new))
                         (cf_vec_commit v0 loc)))
                    = vec_data (locs_typename db) ++ [loc]).
    { cbn [locs_typename set_typenames set_locs_typename cf_vec_commit
             vec_data].
      rewrite (cf_vec_reserve_data _ _ _ _ _ Er0). reflexivity. }
    assert (Hm : mem_iter_match key new = true).
    { unfold mem_iter_match, key, new, cf_str_borrow_str, cf_str_borrow,
        cf_str_len. cbn [tn_name str]. rewrite Hs, Z.eqb_refl.
      apply strncmp_eq0_refl. }
    replace [mk_typename (tn_kind entry) (tn_base_type entry)
               (cf_str_borrow (str (tn_name entry)))]
      with (map borrow_name [new])
      by (unfold borrow_name, new, cf_str_borrow_str; cbn; rewrite Hs;
          reflexivity).
    rewrite <- map_app.
    apply mem_collect.
    + unfold cf_vec_len in *. rewrite Hdata, length_app. cbn [List.length].
      lia.
    + rewrite Hdata, Hlocs, !length_app. unfold cf_vec_len in Hal.
      cbn [List.length]. lia.
    + unfold mem_iter_rest, mem_db_typename_find. cbn [it_i it_key].
      rewrite Hskip, Hdata. cbn [skipn]. rewrite filter_app.
      cbn [filter]. fold key. rewrite Hm. reflexivity.
    + rewrite length_app. cbn [List.length].
      specialize (Hlen (vec_data (typenames db))). lia.
Qed.

Lemma mem_db_typename_insert_find_witness :
  cf_vec_len (typenames mem_db_open) = cf_vec_len (locs_typename mem_db_open)
  /\ cf_vec_len (typenames mem_db_open) < SIZE_MAX
  /\ (List.length (vec_data (typenames mem_db_open)) + 1 < 2)%nat
  /\ exists db',
       mem_db_typename_insert [] mem_db_open (mk_loc 1 0 0 2 5)
         (mk_typename name_kind_direct 1 (cf_str_borrow "foo"))
       = (Ok tt, db', [])
       /\ exists old,
            db_typename_iter_collect 2 (db_kind_mem mem_db_open)
              (iter_mem (mem_db_typename_find (cf_str_borrow "foo")))
            = Some (Ok old)
            /\ db_typename_iter_collect 2 (db_kind_mem db')
                 (iter_mem (mem_db_typename_find (cf_str_borrow "foo")))
               = Some (Ok (old ++ [mk_typename name_kind_direct 1
                                     (cf_str_borrow "foo")])).
Proof.
  assert (H1 : cf_vec_len (typenames mem_db_open)
               = cf_vec_len (locs_typename mem_db_open)) by reflexivity.
  assert (H2 : cf_vec_len (typenames mem_db_open) < SIZE_MAX)
    by reflexivity.
  assert (H3 : (List.length (vec_data (typenames mem_db_open)) + 1 < 2)%nat)
    by (simpl; lia).
  split; [exact H1|]. split; [exact H2|]. split; [exact H3|].
  eexists. split; [reflexivity|].
  exact (mem_db_typename_insert_find [] mem_db_open (mk_loc 1 0 0 2 5)
           (mk_typename name_kind_direct 1 (cf_str_borrow "foo")) _ [] 2%nat
           H1 H2 eq_refl H3).
Defined.

(* ------------------------------------------------------------------ *)
(** ** cf_index.c: what a commit stores, and what it does not *)

Section CommitNothing.
Context {DB : Type} {store : Store DB}.

Lemma commit_members_no_parent pkgs :
  forall ctx : index_ctx_t DB, commit_members [] pkgs ctx = Some ctx.
Proof.
  induction pkgs as [|p pkgs IH]; intros ctx; cbn [commit_members];
    [reflexivity|apply IH].
Qed.

Lemma commit_type_uses_no_parent pkgs :
  forall ctx : index_ctx_t DB, commit_type_uses [] pkgs ctx = Some ctx.
Proof.
  induction pkgs as [|p pkgs IH]; intros ctx; cbn [commit_type_uses];
    [reflexivity|apply IH].
Qed.

Lemma commit_new_types_known (db : DB) unnamed ntm pkgs :
  Forall (fun pkg =>
            pkg_type_id pkg <> 0
            /\ (cf_map8_lookup unnamed (pkg_type_id pkg) <> None
                \/ exists ref,
                     cf_db_typename_lookup db (pkg_loc1 pkg) (pkg_name pkg)
                     = Ok ref /\ ref <> 0)) pkgs ->
  forall ctx : index_ctx_t DB,
  ctx_db ctx = db ->
  exists m,
    commit_new_types unnamed pkgs ntm ctx = Some (ntm, set_type_map ctx m).
Proof.
  induction 1 as [|pkg pkgs (Hid & Hpkg) _ IH]; intros ctx Hdb.
  - exists (type_map ctx). destruct ctx; reflexivity.
  - cbn [commit_new_types].
    destruct (Z.eqb_spec (pkg_type_id pkg) 0); [contradiction|].
    destruct (cf_map8_lookup unnamed (pkg_type_id pkg)) eqn:El.
    + apply IH; exact Hdb.
    + destruct Hpkg as [Hn|(ref & Hr & Hnz)]; [congruence|].
      unfold commit_one_struct. rewrite Hdb, Hr. unfold type_map_insert.
      destruct (Z.eqb_spec (pkg_type_id pkg) 0); [contradiction|].
      destruct (Z.eqb_spec ref 0); [contradiction|].
      destruct (IH (set_type_map ctx
                      (cf_map8_insert (type_map ctx) (pkg_type_id pkg) ref))
                  Hdb) as (m & E).
      exists m. rewrite E. reflexivity.
Qed.

(** X22. A commit in which every staged record either still waits for
    a name or is found by the look-up of its name in the store writes
    nothing to the store, whatever the back-end: no type, no type
    name, and none of the staged members and type uses, which are only
    stored below a record that is new. *)
Theorem commit_struct_scoreboard_nothing_new
    (sb : struct_scoreboard_t) (ctx : index_ctx_t DB) :
  Forall (fun pkg =>
            pkg_type_id pkg <> 0
            /\ (cf_map8_lookup (unnamed_types sb) (pkg_type_id pkg) <> None
                \/ exists ref,
                     cf_db_typename_lookup (ctx_db ctx) (pkg_loc1 pkg)
                       (pkg_name pkg) = Ok ref /\ ref <> 0))
    (new_types sb) ->
  exists ctx',
    commit_struct_scoreboard sb ctx = Some ctx'
    /\ ctx_db ctx' = ctx_db ctx
    /\ struct_sb ctx' = struct_sb ctx.
Proof.
  intros H.
  destruct (commit_new_types_known (ctx_db ctx) (unnamed_types sb) []
              (new_types sb) H ctx eq_refl) as (m & E).
  unfold commit_struct_scoreboard, commit_scratch. rewrite E.
  rewrite commit_members_no_parent, commit_type_uses_no_parent.
  cbn [merge_type_map]. eexists. split; [reflexivity|].
  split; reflexivity.
Qed.
End CommitNothing.

Lemma commit_struct_scoreboard_nothing_new_witness :
  Forall (fun pkg =>
            pkg_type_id pkg <> 0
            /\ (cf_map8_lookup [(100, 0)] (pkg_type_id pkg) <> None
                \/ exists ref,
                     @cf_db_typename_lookup _ nop_store nop_db_open
                       (pkg_loc1 pkg) (pkg_name pkg) = Ok ref /\ ref <> 0))
    [mk_struct_pkg 100 (mk_type_entry type_kind_struct true) zero_typename
       zero_loc zero_loc]
  /\ exists ctx',
       @commit_struct_scoreboard _ nop_store
         (mk_sb make_ast_path [] zero_loc
            [mk_struct_pkg 100 (mk_type_entry type_kind_struct true)
               zero_typename zero_loc zero_loc]
            [mk_member_pkg 100 (mk_member 100 0 (cf_str_borrow "x")) zero_loc]
            [] [(100, 0)])
         (make_index_ctx nop_db_open)
       = Some ctx'
       /\ ctx_db ctx' = nop_db_open
       /\ struct_sb ctx' = make_struct_scoreboard.
Proof.
  assert (H : Forall (fun pkg =>
            pkg_type_id pkg <> 0
            /\ (cf_map8_lookup [(100, 0)] (pkg_type_id pkg) <> None
                \/ exists ref,
                     @cf_db_typename_lookup _ nop_store nop_db_open
                       (pkg_loc1 pkg) (pkg_name pkg) = Ok ref /\ ref <> 0))
    [mk_struct_pkg 100 (mk_type_entry type_kind_struct true) zero_typename
       zero_loc zero_loc]).
  { apply Forall_cons; [|apply Forall_nil].
    split; [discriminate|left; cbn; discriminate]. }
  split; [exact H|].
  exact (@commit_struct_scoreboard_nothing_new _ nop_store
           (mk_sb make_ast_path [] zero_loc
              [mk_struct_pkg 100 (mk_type_entry type_kind_struct true)
                 zero_typename zero_loc zero_loc]
              [mk_member_pkg 100 (mk_member 100 0 (cf_str_borrow "x"))
                 zero_loc]
              [] [(100, 0)])
           (make_index_ctx nop_db_open) H).
Defined.

(** X23. On the in-memory store the look-up of a staged record's name
    answers with the index of the type name row it finds, which is 0
    for the first row: a commit of a record named as the first type
    name row, in the file of that row, fails the assertion of
    [type_map_insert] on the reference, instead of reusing the type. *)
Theorem commit_record_named_as_first_row_traps
    (uninit_loc : loc_ctx_t) (sb : struct_scoreboard_t)
    (ctx : index_ctx_t mem_store_t) (pkg : struct_pkg_t)
    (e0 : db_typename_t) (rest : list db_typename_t)
    (l0 : loc_ctx_t) (lrest : list loc_ctx_t) :
  new_types sb = [pkg] ->
  pkg_type_id pkg <> 0 ->
  cf_map8_lookup (unnamed_types sb) (pkg_type_id pkg) = None ->
  vec_data (typenames (fst (ctx_db ctx))) = e0 :: rest ->
  vec_data (locs_typename (fst (ctx_db ctx))) = l0 :: lrest ->
  str (tn_name (pkg_name pkg)) = str (tn_name e0) ->
  loc_file (pkg_loc1 pkg) = loc_file l0 ->
  @cf_db_typename_lookup _ (mem_store uninit_loc) (ctx_db ctx) (pkg_loc1 pkg)
    (pkg_name pkg) = Ok 0
  /\ @commit_struct_scoreboard _ (mem_store uninit_loc) sb ctx = None.
Proof.
  intros Hnew Hid Hun Hrows Hlocs Hname Hfile.
  assert (Hlook : @cf_db_typename_lookup _ (mem_store uninit_loc) (ctx_db ctx)
                    (pkg_loc1 pkg) (pkg_name pkg) = Ok 0).
  { cbn [cf_db_typename_lookup mem_store]. unfold mem_db_typename_lookup.
    unfold cf_vec_len. rewrite Hrows. cbn [List.length].
    destruct (Z.eqb_spec (Z.of_nat (S (List.length rest))) 0); [lia|].
    cbn [mem_db_typename_lookup_loop]. unfold cf_str_len.
    rewrite Hname, Z.eqb_refl, strncmp_eq0_refl. cbn [negb].
    unfold cf_vec_at. rewrite Hlocs. cbn.
    rewrite Hfile, Z.eqb_refl. reflexivity. }
  split; [exact Hlook|].
  unfold commit_struct_scoreboard, commit_scratch. rewrite Hnew.
  cbn [commit_new_types].
  destruct (Z.eqb_spec (pkg_type_id pkg) 0); [contradiction|].
  rewrite Hun. unfold commit_one_struct. rewrite Hlook.
  unfold type_map_insert.
  destruct (Z.eqb_spec (pkg_type_id pkg) 0); [contradiction|].
  reflexivity.
Qed.

Lemma commit_record_named_as_first_row_traps_witness :
  exists db1 db2,
    mem_db_type_insert [] mem_db_open (mk_loc 1 0 0 2 5)
      (mk_type_entry type_kind_struct true)
    = (Ok 1, db1, [])
    /\ mem_db_typename_insert [] db1 (mk_loc 1 0 0 2 5)
         (mk_typename name_kind_direct 1 (cf_str_borrow "foo"))
       = (Ok tt, db2, [])
    /\ @commit_struct_scoreboard _ (mem_store zero_loc)
         (mk_sb make_ast_path [] zero_loc
            [mk_struct_pkg 100 (mk_type_entry type_kind_struct true)
               (mk_typename name_kind_direct 0 (mk_str "foo" false))
               (mk_loc 1 0 0 2 5) (mk_loc 1 0 0 2 5)]
            [] [] [])
         (make_index_ctx (db2, []))
       = None.
Proof.
  eexists. eexists. split; [reflexivity|]. split; [reflexivity|].
  assert (H : 100 <> 0) by discriminate.
  match goal with
  | |- @commit_struct_scoreboard _ _ ?sb ?ctx = None =>
      apply (proj2 (commit_record_named_as_first_row_traps zero_loc sb ctx
                      _ _ _ _ _ eq_refl H eq_refl eq_refl eq_refl eq_refl
                      eq_refl))
  end.
Defined.

Section UnnamedAlone.
Context {DB : Type} {store : Store DB}.

(** X24. An unnamed struct or union at file scope, with members of the
    plain kind, that is the last declaration of its translation unit is
    never committed: the ingestion ends with the store as it was,
    whatever the back-end, and the record is left staged. *)
Theorem unnamed_record_without_declarator_not_stored
    (db : DB) (fm : cf_map8_t) (root R : CXCursor) (body : list ast)
    (k : Z) :
  get_struct_name_kind R = Some struct_name_unnamed ->
  extract_type_kind (cur_kind R) = Some k ->
  type_is_indexable (cur_type R) = true ->
  type_is_indexable (clang_getCanonicalType (cur_type R)) = true ->
  ct_incomplete (cur_type R) = false ->
  forallb (plain_member (ct_data (cur_type R)) [cur_id R]) body = true ->
  exists ctx',
    index_tu (Node root [Node R body]) (set_file_map (make_index_ctx db) fm)
    = Some ctx'
    /\ ctx_db ctx' = db
    /\ last_struct ctx' = ct_data (cur_type R)
    /\ List.length (new_types (struct_sb ctx')) = 1%nat.
Proof.
  intros Hn Hk Hi Hic Hc Hp.
  unfold index_tu, iterate_children, clang_visitChildren.
  cbn [visit_list visit_node].
  rewrite (iterate_children_cb_root (Node R body) root _ 0) by reflexivity.
  rewrite (index_ast_node_tag _ R body root k Hk Hi Hc) by reflexivity.
  match goal with
  | |- context [update_location ?c R] =>
      destruct (update_location_frame c R) as [loc ->]
  end.
  match goal with
  | |- context [index_struct (Node R body) ?c] =>
      destruct (index_struct_plain c R body k struct_name_unnamed zero_loc
                  eq_refl Hk Hic Hn ltac:(discriminate) Hp)
        as (stack & cnt & loc' & sloc' & news & M & E)
  end.
  cbn zeta in E. rewrite E. clear E.
  rewrite (get_clang_type_cursor _ Hi Hic).
  eexists. split; [reflexivity|]. repeat split.
Qed.
End UnnamedAlone.

Lemma unnamed_record_without_declarator_not_stored_witness :
  exists ctx',
    @index_tu _ nop_store
      (Node tu_root
         [Node (decl_cursor 1 CXCursor_StructDecl (record_type 100) no_type
                  false "struct {...}" "")
            [int_field 2 "x"]])
      (set_file_map (make_index_ctx nop_db_open) [(1, 1)])
    = Some ctx'
    /\ ctx_db ctx' = nop_db_open
    /\ last_struct ctx' = 100
    /\ List.length (new_types (struct_sb ctx')) = 1%nat.
Proof.
  apply (@unnamed_record_without_declarator_not_stored _ nop_store
           nop_db_open [(1, 1)] tu_root
           (decl_cursor 1 CXCursor_StructDecl (record_type 100) no_type false
              "struct {...}" "")
           [int_field 2 "x"] type_kind_struct);
    reflexivity.
Defined.

(* ------------------------------------------------------------------ *)
(** ** search.c: a search by keyword and name *)

Lemma find_elab_type_loop_sound db name kind :
  elab2type_kind (ns_kind name) = Some kind ->
  forall fuel it id0 id,
  (id0 = 0 \/ exists te loc, cf_db_type_lookup db id0 = Ok (te, loc)
                             /\ te_kind te = kind) ->
  find_elab_type_loop fuel db name it id0 = Some (Ok id) ->
  id <> 0
  /\ exists te loc, cf_db_type_lookup db id = Ok (te, loc)
                    /\ te_kind te = kind.
Proof.
  intros Hk. induction fuel as [|fuel IH]; intros it id0 id Hinv H;
    [discriminate H|].
  cbn [find_elab_type_loop] in H.
  destruct (db_typename_iter_next db it) as [[[]|e|] it'];
    try discriminate H.
  - destruct (db_typename_iter_peek db it') as [[ne l]|e|];
      try discriminate H.
    destruct (negb (tn_kind ne =? name_kind_direct)); [eauto|].
    destruct (cf_db_type_lookup db (tn_base_type ne)) as [[te tl]|e|] eqn:El;
      try discriminate H.
    rewrite Hk in H.
    destruct (Z.eqb_spec kind (te_kind te)) as [Ekind|Ekind];
      cbn [negb] in H; [|eauto].
    destruct (Z.eqb_spec id0 0) as [E0|E0].
    + rewrite Z.eqb_refl in H. cbn [negb] in H.
      apply (IH it' (tn_base_type ne) id); [|exact H].
      right. exists te, tl. auto.
    + destruct (Z.eqb_spec (tn_base_type ne) id0); cbn [negb] in H;
        [|discriminate H].
      apply (IH it' id0 id); [exact Hinv|exact H].
  - destruct (Z.eqb_spec id0 0) as [E0|E0]; [discriminate H|].
    injection H as <-. split; [exact E0|].
    destruct Hinv as [?|Hinv]; [contradiction|exact Hinv].
Qed.

(** X25. A type search by keyword and name that succeeds reports a
    type of that keyword's kind, on every back-end: [struct foo] never
    answers with a union or an enumeration named [foo], and the row id
    it answers with is never 0. *)
Theorem search_type_core_keyword_kind
    (sql_like : string -> sql_value -> bool) (fuel : nat) (db : cf_db_t)
    (elab : name_elab_t) (n : cf_str_t) (id : Z) (entry : db_type_entry_t)
    (loc : loc_ctx_t) (msgs : list user_msg) :
  elab <> name_none ->
  search_type_core sql_like fuel db (search_name (mk_name_spec elab n))
  = Some (Ok (id, entry, loc), msgs) ->
  elab2type_kind elab = Some (te_kind entry)
  /\ id <> 0
  /\ cf_db_type_lookup db id = Ok (entry, loc).
Proof.
  intros Hne H. unfold search_type_core, find_one_type in H.
  cbn [ns_kind ns_name] in H.
  assert (Hk : exists kind, elab2type_kind elab = Some kind)
    by (destruct elab; [congruence| | |]; eexists; reflexivity).
  destruct Hk as (kind & Hk).
  assert (Hnn : name_elab_eqb elab name_none = false)
    by (destruct elab; [congruence| | |]; reflexivity).
  rewrite Hnn in H. cbn [negb] in H.
  unfold find_elab_type in H. cbn [ns_kind ns_name] in H. rewrite Hnn in H.
  destruct (cf_db_typename_find sql_like db n) as [it|e|];
    [|cbn in H; destruct (errno_eqb e ENOENT); discriminate H
     |discriminate H].
  destruct (find_elab_type_loop fuel db (mk_name_spec elab n) it 0)
    as [[id1|e|]|] eqn:El; try discriminate H.
  destruct (find_elab_type_loop_sound db (mk_name_spec elab n) kind Hk
              fuel it 0 id1 (or_introl eq_refl) El)
    as (Hid & te & tl & Hl & Hkind).
  rewrite Hl in H. injection H as <- <- <- <-.
  rewrite Hk, Hkind. auto.
Qed.

Lemma search_type_core_keyword_kind_witness :
  exists db1 db2,
    mem_db_type_insert [] mem_db_open (mk_loc 1 0 0 2 5)
      (mk_type_entry type_kind_union true)
    = (Ok 1, db1, [])
    /\ mem_db_typename_insert [] db1 (mk_loc 1 0 0 2 5)
         (mk_typename name_kind_direct 1 (cf_str_borrow "foo"))
       = (Ok tt, db2, [])
    /\ name_union <> name_none
    /\ search_type_core (fun _ _ => false) 3 (db_kind_mem db2)
         (search_name (mk_name_spec name_union (cf_str_borrow "foo")))
       = Some (Ok (1, mk_type_entry type_kind_union true, mk_loc 1 0 0 2 5),
               [])
    /\ elab2type_kind name_union = Some type_kind_union.
Proof.
  eexists. eexists. split; [reflexivity|]. split; [reflexivity|].
  assert (H1 : name_union <> name_none) by discriminate.
  split; [exact H1|].
  match goal with
  | |- ?s = ?r /\ _ =>
      assert (H2 : s = r) by reflexivity; split; [exact H2|];
      exact (proj1 (search_type_core_keyword_kind _ _ _ _ _ _ _ _ _ H1 H2))
  end.
Defined.

(* ------------------------------------------------------------------ *)
(** ** sql_db.c: what the on-disk cursor lets through *)

Lemma sql_next_true_sane it it' lg :
  sql_db_typename_iter_next it = (Ok true, it', lg) ->
  (sanitize_typename_kind (tn_kind (sit_cur_name it')) = true
   /\ 0 < tn_base_type (sit_cur_name it') < INT64_MAX
   /\ str (tn_name (sit_cur_name it')) <> EmptyString
   /\ borrowed (tn_name (sit_cur_name it')) = true)
  /\ (List.length (stmt_pending (sit_stmt it'))
      < List.length (stmt_pending (sit_stmt it)))%nat.
Proof.
  unfold sql_db_typename_iter_next, iter_next_typename, query_step_one,
    sqlite3_step.
  destruct (stmt_pending (sit_stmt it)) as [|[row|code] rest] eqn:Ep;
    try discriminate.
  unfold iter_get_typename, exec_find_typename_query.
  destruct (select_serial_row _ _) as [[vals|e|] l2]; try discriminate.
  destruct (borrowed (get_str (col vals 0))) eqn:Eb; [|discriminate].
  destruct (sanitize_typename _) as [ok l3] eqn:Es.
  destruct ok; [|discriminate].
  intros H. injection H as <- _. cbn [sit_cur_name sit_stmt stmt_pending].
  split; [|cbn [List.length]; lia].
  unfold sanitize_typename in Es.
  destruct (sanitize_typename_kind _) eqn:E1; cbn [negb] in Es;
    [|discriminate Es].
  destruct (sanitize_rowid _) eqn:E2; cbn [negb] in Es; [|discriminate Es].
  destruct (cf_str_is_null _) eqn:E3; [discriminate Es|].
  cbn [tn_kind tn_base_type tn_name] in *.
  split; [first [exact E1|reflexivity]|]. split.
  - unfold sanitize_rowid in E2. apply andb_prop in E2.
    destruct E2 as [A B]. apply Z.ltb_lt in A. apply Z.ltb_lt in B. lia.
  - split; [|reflexivity].
    unfold cf_str_is_null, cf_str_len in E3. apply Z.eqb_neq in E3.
    intros E. rewrite E in E3. apply E3. reflexivity.
Qed.

(** X26. However damaged the rows of the database are, every entry the
    on-disk cursor hands to its caller has a type name kind of the
    enumeration, a base type row id strictly between 0 and INT64_MAX
    and a borrowed name that is not empty; the run yields no more
    entries than the statement has rows. *)
Theorem sql_cursor_entries_pass_sanitize
    (it : sqlite_db_typename_iter_t)
    (l : list (db_typename_t * loc_ctx_t)) :
  sql_typename_iter_collect it = Some l ->
  Forall (fun p =>
            sanitize_typename_kind (tn_kind (fst p)) = true
            /\ 0 < tn_base_type (fst p) < INT64_MAX
            /\ str (tn_name (fst p)) <> EmptyString
            /\ borrowed (tn_name (fst p)) = true) l
  /\ (List.length l <= List.length (stmt_pending (sit_stmt it)))%nat.
Proof.
  unfold sql_typename_iter_collect.
  generalize (S (List.length (stmt_pending (sit_stmt it)))) as n.
  intros n. revert it l.
  induction n as [|n IH]; intros it l H; cbn [sql_typename_iter_collect_n] in H.
  - injection H as <-. split; [constructor|cbn; lia].
  - destruct (sql_db_typename_iter_next it) as [[r it'] lg] eqn:En.
    destruct r as [[]|e|]; try discriminate H.
    + destruct (sql_typename_iter_collect_n n it') as [l'|] eqn:Ec;
        [|discriminate H].
      injection H as <-.
      destruct (sql_next_true_sane _ _ _ En) as (Hs & Hlt).
      destruct (IH it' l' Ec) as (Hf & Hlen).
      split; [constructor; [exact Hs|exact Hf]|]. cbn [List.length]. lia.
    + injection H as <-. split; [constructor|cbn; lia].
Qed.

Lemma sql_cursor_entries_pass_sanitize_witness :
  sql_typename_iter_collect
    (sql_iter_of [typename_row "foo" name_kind_direct 2 1 9 1;
                  typename_row "foo" 7 1 1 3 1;
                  typename_row "foo" name_kind_typedef 3 1 9 1])
  = Some [(mk_typename name_kind_direct 2 (cf_str_borrow "foo"),
           mk_loc 1 0 0 9 1)]
  /\ Forall (fun p =>
               sanitize_typename_kind (tn_kind (fst p)) = true
               /\ 0 < tn_base_type (fst p) < INT64_MAX
               /\ str (tn_name (fst p)) <> EmptyString
               /\ borrowed (tn_name (fst p)) = true)
       [(mk_typename name_kind_direct 2 (cf_str_borrow "foo"),
         mk_loc 1 0 0 9 1)].
Proof.
  assert (H : sql_typename_iter_collect
                (sql_iter_of [typename_row "foo" name_kind_direct 2 1 9 1;
                              typename_row "foo" 7 1 1 3 1;
                              typename_row "foo" name_kind_typedef 3 1 9 1])
              = Some [(mk_typename name_kind_direct 2 (cf_str_borrow "foo"),
                       mk_loc 1 0 0 9 1)]) by reflexivity.
  split; [exact H|].
  exact (proj1 (sql_cursor_entries_pass_sanitize _ _ H)).
Defined.

(** X27. A type name row whose columns have the types of the schema
    but whose name is the empty text is not sorted out by
    [sanitize_typename]: the call of [sql_db_typename_iter_next] that
    reads it fails the assertion of [exec_find_typename_query] on the
    borrowed bit, whatever the other columns hold. *)
Theorem sql_cursor_empty_name_traps
    (it : sqlite_db_typename_iter_t) (rest : list sql_step)
    (kind base_type file func scope line column : Z) :
  stmt_pending (sit_stmt it)
  = step_row [sql_text ""; sql_integer kind; sql_integer base_type;
              sql_integer file; sql_integer func; sql_integer scope;
              sql_integer line; sql_integer column] :: rest ->
  fst (fst (sql_db_typename_iter_next it)) = Trap.
Proof.
  intros Hp.
  unfold sql_db_typename_iter_next, iter_next_typename, query_step_one,
    sqlite3_step. rewrite Hp.
  unfold iter_get_typename, exec_find_typename_query, select_serial_row.
  cbn [stmt_row List.length typename_find_query_output_kinds].
  cbn [Z.of_nat Pos.of_succ_nat Pos.succ Z.leb Z.eqb Pos.eqb Z.compare orb
       negb].
  cbn [select_columns select_one_column sqlite3_column_type
       sql_column_kind2type sqlite3_column_text String.length Z.of_nat].
  change (SQLITE_TEXT =? SQLITE_TEXT) with true.
  change (SQLITE_INTEGER =? SQLITE_INTEGER) with true.
  cbn [negb Z.leb Z.compare].
  cbn [col nth get_str cf_str_null borrowed fst snd].
  reflexivity.
Qed.

Lemma sql_cursor_empty_name_traps_witness :
  stmt_pending (sit_stmt (sql_iter_of [typename_row "" name_kind_direct 2 1 9 1]))
  = step_row [sql_text ""; sql_integer name_kind_direct; sql_integer 2;
              sql_integer 1; sql_integer 0; sql_integer 0;
              sql_integer 9; sql_integer 1] :: []
  /\ fst (fst (sql_db_typename_iter_next
                 (sql_iter_of [typename_row "" name_kind_direct 2 1 9 1])))
     = Trap.
Proof.
  assert (H : stmt_pending
                (sit_stmt
                   (sql_iter_of [typename_row "" name_kind_direct 2 1 9 1]))
              = step_row [sql_text ""; sql_integer name_kind_direct;
                          sql_integer 2; sql_integer 1; sql_integer 0;
                          sql_integer 0; sql_integer 9; sql_integer 1] :: [])
    by reflexivity.
  split; [exact H|].
  exact (sql_cursor_empty_name_traps _ _ _ _ _ _ _ _ _ H).
Defined.

(* ------------------------------------------------------------------ *)
(** ** parse.c, search.c: the row id 0 *)

(** X28. The row id 0 passes the parser and stops the search: a line
    [td 0] or [typedecl 0] (the number written with any count of
    zeros) parses to a search for the type with row id 0, on which
    [search_type_core] fails the assertion that the in-memory and the
    on-disk store make on a row id, instead of reporting that there is
    no such type. *)
Theorem typedecl_zero_fails_assertion
    (sql_like : string -> sql_value -> bool) (fuel : nat) (db : cf_db_t)
    (d0 verb d1 n : string) (rest : list (string * string)) (t : string)
    (b : bool) :
  well_laid_out ((d0, verb) :: (d1, n) :: rest) = true ->
  is_blank t = true ->
  Z.of_nat (String.length (laid_out ((d0, verb) :: (d1, n) :: rest) ++ t))
  <= CF_STR_MAX_LEN ->
  verb = "td"%string \/ verb = "typedecl"%string ->
  string_forallb is_digit n = true ->
  decimal_value n 0 = 0 ->
  (forall nop, db <> db_kind_nop nop) ->
  parse_command (mk_str (laid_out ((d0, verb) :: (d1, n) :: rest) ++ t) b)
  = Ok (cmd_type_decl (search_id 0))
  /\ search_type_core sql_like fuel db (search_id 0) = Some (Trap, []).
Proof.
  intros Hl Ht Hlen Hverb Hdig Hval Hdb. split.
  - rewrite (parse_command_td_number d0 verb d1 n rest t b Hl Ht Hlen Hverb
               Hdig) by (rewrite Hval; vm_compute; discriminate).
    rewrite Hval. reflexivity.
  - unfold search_type_core, cf_db_type_lookup.
    destruct db as [nop|mem|sqldb]; [exfalso; eapply Hdb; reflexivity| |];
      reflexivity.
Qed.

Lemma typedecl_zero_fails_assertion_witness :
  (well_laid_out [("", "td"); (" ", "0")]%string = true
   /\ is_blank "" = true
   /\ Z.of_nat (String.length (laid_out [("", "td"); (" ", "0")] ++ ""))
      <= CF_STR_MAX_LEN
   /\ ("td"%string = "td"%string \/ "td"%string = "typedecl"%string)
   /\ string_forallb is_digit "0" = true
   /\ decimal_value "0" 0 = 0
   /\ (forall nop, db_kind_mem mem_db_open <> db_kind_nop nop))
  /\ parse_command (mk_str "td 0" false) = Ok (cmd_type_decl (search_id 0))
  /\ search_type_core (fun _ _ => false) 1 (db_kind_mem mem_db_open)
       (search_id 0)
     = Some (Trap, []).
Proof.
  assert (H1 : well_laid_out [("", "td"); (" ", "0")]%string = true)
    by reflexivity.
  assert (H2 : is_blank "" = true) by reflexivity.
  assert (H3 : Z.of_nat
                 (String.length (laid_out [("", "td"); (" ", "0")] ++ ""))
               <= CF_STR_MAX_LEN)
    by (vm_compute; discriminate).
  assert (H4 : "td"%string = "td"%string \/ "td"%string = "typedecl"%string)
    by (left; reflexivity).
  assert (H5 : string_forallb is_digit "0" = true) by reflexivity.
  assert (H6 : decimal_value "0" 0 = 0) by reflexivity.
  assert (H7 : forall nop, db_kind_mem mem_db_open <> db_kind_nop nop)
    by (intros nop; discriminate).
  split; [auto 10|].
  exact (typedecl_zero_fails_assertion (fun _ _ => false) 1
           (db_kind_mem mem_db_open) "" "td" " " "0" [] "" false
           H1 H2 H3 H4 H5 H6 H7).
Defined.
